(** * datax: the set validator ([src/sets.ts], [src/species.ts])

    A shallow embedding of [Sets.validate] and of its three helpers
    [isLegendary], [checkBatonPass] and [checkSleepTrap]; then the notions
    the properties are stated with and a small instance of the data tables;
    then the properties of the validator, and runs of it on sample sets.

    Conventions of the embedding.
    - JavaScript numbers that hold levels, IVs, EVs, DVs, boosts and
      generations are integers ([Z]); the gender ratio, the only fractional
      quantity, is a rational ([Q]); multiplying it by 16 is exact.
    - An optional field ([level?], [gender?], ...) is an [option]; the
      truthiness tests of the source are written out ([truthy_string], ...).
    - The [problems] array holds one entry per template literal of the
      source: the constructor of [Problem] names the template and carries the
      interpolated values; [render] builds the text.
    - [moveTable] is a plain JavaScript object ([{}]) keyed by move id.  Its
      own keys are enumerated in insertion order and an assignment to an
      existing key keeps the key's position, hence an association list.  A
      read [moveTable[k]] also finds the members of [Object.prototype]
      ([table_lookup]); these are not enumerable, so [for (id in moveTable)]
      visits the own keys only.
    - [species.genderRatio!] and [s.eggGroups!] are non-null assertions: on
      an undefined field the property access throws a [TypeError]. *)

From Stdlib Require Import List String ZArith QArith Bool Lia Arith.
From Stdlib Require DecimalString.
Import ListNotations.
Open Scope string_scope.
Open Scope Z_scope.
Open Scope list_scope.

(** ** JavaScript values *)

Definition truthy_string (s : string) : bool := negb (s =? "")%string.

Definition truthy_opt_string (o : option string) : bool :=
  match o with
  | Some s => truthy_string s
  | None => false
  end.

Definition truthy_opt_bool (o : option bool) : bool :=
  match o with
  | Some b => b
  | None => false
  end.

(** [a || b] on a possibly undefined string and a string. *)
Definition js_or (a : option string) (b : string) : string :=
  match a with
  | Some s => if truthy_string s then s else b
  | None => b
  end.

(** [a === b] on two possibly undefined strings. *)
Definition opt_string_eqb (a b : option string) : bool :=
  match a, b with
  | Some x, Some y => (x =? y)%string
  | None, None => true
  | _, _ => false
  end.

(** [n && n > 0] on a possibly undefined number. *)
Definition positive (o : option Z) : bool :=
  match o with
  | Some n => negb (n =? 0) && (n >? 0)
  | None => false
  end.

(** [new Set(ids)] with its [has]. *)
Definition IDSet := list string.

Definition has (s : IDSet) (id : string) : bool :=
  existsb (fun x => (x =? id)%string) s.

(** ** Data model *)

Record StatsTable := {
  hp : Z; atk : Z; def : Z; spa : Z; spd : Z; spe : Z
}.

(** The keys of a stats table, in the order [for (stat in ivs)] visits them. *)
Definition stat_values (t : StatsTable) : list Z :=
  [hp t; atk t; def t; spa t; spd t; spe t].

Record BoostsTable := {
  b_atk : option Z; b_def : option Z; b_spa : option Z;
  b_spd : option Z; b_spe : option Z
}.

Record Move := {
  move_id : string;
  move_name : string;
  move_type : string;
  move_ohko : bool;                       (* truthiness of [ohko] *)
  move_boosts : option BoostsTable;
  move_zMoveBoosts : option BoostsTable
}.

Record Item := {
  item_id : string;
  item_name : string;
  item_zMove : bool;                      (* truthiness of [zMove] *)
  item_zMoveType : option string
}.

Record Nature := { nature_name : string }.

Record GenderRatio := { ratio_M : Q; ratio_F : Q }.

Record Species := {
  sp_name : string;
  sp_baseSpecies : string;
  sp_gen : Z;
  sp_num : Z;
  sp_tier : string;
  sp_prevo : option string;
  sp_evos : option (list string);
  sp_gender : option string;
  sp_genderRatio : option GenderRatio;
  sp_eggGroups : option (list string)
}.

Record PokemonSet := {
  set_species : string;
  set_name : option string;
  set_level : option Z;
  set_gender : option string;
  set_shiny : option bool;
  set_moves : list string;
  set_ivs : StatsTable;
  set_evs : StatsTable;
  set_nature : string;
  set_ability : string;
  set_item : string
}.

Record Format := { gen : Z; format_id : string }.

(** Modelled from the spec: [./rules] is not part of the sources at hand.  A
    rule set is a set of named clauses, each present or absent. *)
Record RuleSet := { clauses : IDSet }.

(** The entries of the [problems] array, one constructor per template. *)
Inductive Problem :=
| InvalidFormat (f : Format)
    (* `${format} is not a valid format.` *)
| InvalidSpecies (species : string) (g : Z)
    (* `${set.species} is not a valid species for generation ${format.gen}` *)
| IllegalSpecies (pokemon : string) (g : Z)
    (* `${pokemon} does not exist outside of generation ${species.gen}.` *)
| UnreleasedSpecies (pokemon : string) (g : Z)
    (* `${pokemon} in unreleased in generation ${species.gen}.` *)
| NotFirstInFamily (pokemon : string)
    (* `${pokemon} isn't the first in its evolution family.` *)
| NoEvolutionFamily (pokemon : string)
    (* `${pokemon} doesn't have an evolution family.` *)
| LevelAboveFive (pokemon : string)
    (* `${pokemon} must be level 5 or under in Little Cup.` *)
| LevelAboveHundred (pokemon : string)
    (* `${pokemon} is higher than level 100.` *)
| MoreThanFourMoves (pokemon : string)
    (* `${pokemon} has more than four moves.` *)
| InvalidMove (m : string) (g : Z)
    (* `${m} is not a valid move for generation ${format.gen}` *)
| DuplicateMove (pokemon : string) (move : Move)
    (* `${pokemon} may not have duplicate moves (${move} is duplicated).` *)
| BannedByOHKO (name : string)
    (* `${move.name} is banned by OHKO Clause.` *)
| BannedByEvasionMoves (name : string)
    (* `${move.name} is banned by Evasion Moves Clause.` *)
| BannedBySwagger (name : string)
    (* `${move.name} is banned by Swagger Clause.` *)
| SleepTrap (pokemon : string) (g : Z)
    (* `${pokemon} has both a sleeping and a trapping move, a combination
       which is banned in generation ${format.gen}.` *)
| BatonPassBan (pokemon : string)
    (* `${pokemon} can Baton Pass both Speed and a different stat, which is
       banned by Baton Pass Clause.` *)
| NoMoves (pokemon : string)
    (* `${pokemon} must have at least one move.` *)
| WrongGender (pokemon : string) (declared : string) (fixed : option string)
    (* `${pokemon} is the wrong gender for its species (${set.gender} vs.
       ${species.gender}).` *)
| GenderAgainstDV (pokemon : string) (declared : string) (atkDV : Z)
                  (expected : string)
    (* `${pokemon} is ${set.gender}, but it has an Atk DV of ${atkDV}, which
       makes its gender ${expectedGender}.` *)
| EVsDiffer (pokemon : string) (a d : Z)
    (* `Before generation 3, SpA and SpD EVs must match (${pokemon} has
       ${set.evs.spa} SpA and ${set.evs.spd} SpD EVs).` *)
| LegendaryIVs (pokemon : string) (g : Z)
    (* `${pokemon} must have at least three perfect IVs because it's a
       legendary in generation ${format.gen}.` *)
| IVsDiffer (pokemon : string) (a d : Z)
    (* `Before generation 3, SpA and SpD IVs must match (${pokemon} has
       ${set.ivs.spa} SpA and ${set.ivs.spd} SpD IVs).` *)
| WrongHPDV (pokemon : string) (hpDV expected : Z)
    (* `${pokemon} has an HP DV of ${dvs.hp}, but its Atk, Def, Spe and Spc
       DVs give it an HP DV of ${expectedHPDV}.` *)
| WrongShiny (pokemon : string) (shiny : bool)
    (* `${pokemon} is${set.shiny ? ' not ' : ' '}shiny, which does not match
       its DVs.` *)
| NaturesDoNotExist (g : Z) (pokemon : string) (n : Nature)
    (* `Natures do not exist in generation ${format.gen} (${pokemon} has
       ${nature})` *)
| InvalidNature (nature : string) (g : Z)
    (* `${set.nature} is not a valid nature in generation ${format.gen}` *)
| NatureRequired (pokemon : string) (g : Z)
    (* `${pokemon} requires a nature in generation ${format.gen}` *)
| InvalidAbility (ability : string) (g : Z)
    (* `${set.ability} is not a valid ability for generation ${format.gen}` *)
| BannedByEvasionAbilities (name : string)
    (* `${ability.name} is banned by Evasion Abilities Clause.` *)
| BannedByMoody (name : string)
    (* `${ability.name} is banned by Moody Clause.` *)
| AbilitiesDoNotExist (g : Z) (pokemon : string) (ability : string)
    (* `Abilities do not exist in generation ${format.gen} (${pokemon} has
       ability ${set.ability})` *)
| InvalidItem (item : string) (g : Z)
    (* `${set.item} is not a valid item for generation ${format.gen}` *)
| GriseousOrbHolder
    (* 'Griseous Orb can only be held by Giratina in Generation 4.' *)
| ItemsDoNotExist (g : Z) (pokemon : string) (item : string)
    (* `Held items do not exist in generation ${format.gen} (${pokemon} has
       item ${set.item})` *).

(** ** The move table *)

Definition MoveTable := list (string * Move).

(** [k] is an own key of the table. *)
Fixpoint table_has (t : MoveTable) (k : string) : bool :=
  match t with
  | [] => false
  | (k', _) :: rest => (k' =? k)%string || table_has rest k
  end.

(** The members every plain object inherits from [Object.prototype]; each
    is a function or, for [__proto__], the prototype itself: a truthy value. *)
Definition Object_prototype_members : IDSet :=
  ["constructor"; "__defineGetter__"; "__defineSetter__"; "hasOwnProperty";
   "__lookupGetter__"; "__lookupSetter__"; "isPrototypeOf";
   "propertyIsEnumerable"; "toString"; "valueOf"; "__proto__";
   "toLocaleString"].

(** [moveTable[k]], of which the source only takes the truthiness: the move
    stored under an own key, or else the member of [Object.prototype] that
    [k] names. *)
Definition table_lookup (t : MoveTable) (k : string) : bool :=
  table_has t k || has Object_prototype_members k.

(** [moveTable[k] = v]: overwrite in place, or append a new key.  The
    inherited members are writable data properties, which the assignment
    shadows with an own key.  (The key [__proto__] is the exception, an
    accessor whose setter replaces the prototype; an id is a [pkmn.ID],
    lower-case letters and digits, and never holds an underscore.) *)
Fixpoint table_set (t : MoveTable) (k : string) (v : Move) : MoveTable :=
  match t with
  | [] => [(k, v)]
  | (k', v') :: rest =>
      if (k' =? k)%string then (k', v) :: rest
      else (k', v') :: table_set rest k v
  end.

(** The values [moves[id]] met by [for (const id in moves)]. *)
Definition table_values (t : MoveTable) : list Move := map snd t.

(** ** The external collaborators

    The data tables of the [pkmn] package, the rule registry and the species
    table are lookups the validator only reads.  [Species.get] is an
    unfinished stub in [src/species.ts] ([Species_get_stub] below); the
    validator is embedded over an arbitrary species lookup, as it is over the
    other tables. *)
Class Data := {
  Rules_get : Format -> option RuleSet;
  Rules_isLittleCup : RuleSet -> bool;
  Species_get : string -> Z -> option Species;
  Moves_get : string -> Z -> option Move;
  Items_get : string -> Z -> option Item;
  Natures_get : string -> option Nature;
  toID : string -> string;
  Stats_itod : Z -> Z;
  Stats_istods : StatsTable -> StatsTable;
  Stats_getHPDV : StatsTable -> Z;
  (* what `${format}`, `${move}` and `${nature}` print *)
  Format_toString : Format -> string;
  Move_toString : Move -> string;
  Nature_toString : Nature -> string
}.

(** [Species.get] as [src/species.ts] has it. *)
Definition Species_get_stub (s : string) (g : Z) : option Species := None.

(** [Species.nfe(s)]: [s.evos && s.evos.length], as a truth value. *)
Definition nfe (s : Species) : bool :=
  match sp_evos s with
  | Some evos => negb (Nat.eqb (List.length evos) 0)
  | None => false
  end.

(** ** Results and the validator's monad *)

Inductive Res (A : Type) :=
| Ok (a : A)
| TypeError.

Arguments Ok {A} a.
Arguments TypeError {A}.

(** What a call can reach: the caller's set object, and the two objects the
    call allocates. *)
Record Store := {
  the_set : PokemonSet;
  problems : list Problem;
  moveTable : MoveTable
}.

Definition M (A : Type) := Store -> Res (A * Store).

Definition ret {A} (a : A) : M A := fun st => Ok (a, st).

Definition bind {A B} (m : M A) (f : A -> M B) : M B :=
  fun st =>
    match m st with
    | Ok (a, st') => f a st'
    | TypeError => TypeError
    end.

Declare Scope js_scope.
Delimit Scope js_scope with js.
Notation "x <- m ;; k" := (bind m (fun x => k))
  (at level 61, m at next level, right associativity) : js_scope.
Notation "m ;; k" := (bind m (fun _ => k))
  (at level 61, right associativity) : js_scope.
Open Scope js_scope.

Definition throw {A} : M A := fun _ => TypeError.

Definition gets {A} (f : Store -> A) : M A := fun st => Ok (f st, st).

(** [problems.push(p)] *)
Definition push (p : Problem) : M unit :=
  fun st =>
    Ok (tt, {| the_set := the_set st;
               problems := problems st ++ [p];
               moveTable := moveTable st |}).

(** [const problems: string[] = []] *)
Definition new_problems : M unit :=
  fun st =>
    Ok (tt, {| the_set := the_set st; problems := []; moveTable := moveTable st |}).

(** [const moveTable = {}] *)
Definition new_moveTable : M unit :=
  fun st =>
    Ok (tt, {| the_set := the_set st; problems := problems st; moveTable := [] |}).

(** [moveTable[k] = v] *)
Definition assign_move (k : string) (v : Move) : M unit :=
  fun st =>
    Ok (tt, {| the_set := the_set st;
               problems := problems st;
               moveTable := table_set (moveTable st) k v |}).

Definition when (b : bool) (m : M unit) : M unit :=
  if b then m else ret tt.

(** [for (const x of xs) body] *)
Fixpoint for_of {A} (xs : list A) (body : A -> M unit) : M unit :=
  match xs with
  | [] => ret tt
  | x :: rest => body x ;; for_of rest body
  end.

(** ** The special-case checks *)

Section Validator.

Context {data : Data}.

(** [function isLegendary(s, shiny)]; [s.eggGroups![0]] is read first. *)
Definition isLegendary (s : Species) (shiny : option bool) : Res bool :=
  match sp_eggGroups s with
  | None => TypeError
  | Some groups =>
      Ok ((opt_string_eqb (hd_error groups) (Some "Undiscovered")
           || (sp_name s =? "Manaphy")%string)
          && negb (truthy_opt_string (sp_prevo s))
          && negb (nfe s)
          && negb (sp_name s =? "Unown")%string
          && negb (sp_baseSpecies s =? "Pikachu")%string
          && (negb (sp_baseSpecies s =? "Diancie")%string
              || negb (truthy_opt_bool shiny)))
  end.

Definition SPEED_BOOST_ABILITIES : IDSet :=
  ["motordrive"; "rattled"; "speedboost"; "steadfast"; "weakarmor"].

Definition SPEED_BOOST_ITEMS : IDSet :=
  ["blazikenite"; "eeviumz"; "kommoniumz"; "salacberry"].

Definition NON_SPEED_BOOST_ABILITIES : IDSet :=
  ["angerpoint"; "competitive"; "defiant"; "download"; "justified";
   "lightningrod"; "moxie"; "sapsipper"; "stormdrain"].

Definition NON_SPEED_BOOST_ITEMS : IDSet :=
  ["absorbbulb"; "apicotberry"; "cellbattery"; "eeviumz"; "ganlonberry";
   "keeberry"; "kommoniumz"; "liechiberry"; "luminousmoss"; "marangaberry";
   "petayaberry"; "snowball"; "starfberry"; "weaknesspolicy"].

Definition NON_SPEED_BOOST_MOVES : IDSet :=
  ["acupressure"; "bellydrum"; "chargebeam"; "curse"; "diamondstorm";
   "fellstinger"; "fierydance"; "flowershield"; "poweruppunch"; "rage";
   "rototiller"; "skullbash"; "stockpile"].

(** The type [string|boolean] of [speedBoosted] and [nonSpeedBoosted]. *)
Inductive Boosted :=
| Flag (b : bool)
| Name (s : string).

Definition truthy (v : Boosted) : bool :=
  match v with
  | Flag b => b
  | Name s => truthy_string s
  end.

(** [typeof v === 'string'] *)
Definition is_string (v : Boosted) : bool :=
  match v with
  | Flag _ => false
  | Name _ => true
  end.

(** [a !== b] *)
Definition strict_neq (a b : Boosted) : bool :=
  match a, b with
  | Flag x, Flag y => negb (Bool.eqb x y)
  | Name x, Name y => negb (x =? y)%string
  | _, _ => true
  end.

(** [name === v] for a string [name] *)
Definition name_is (name : string) (v : Boosted) : bool :=
  match v with
  | Flag _ => false
  | Name s => (name =? s)%string
  end.

(** [b && b.spe && b.spe > 0] *)
Definition boosts_speed (b : option BoostsTable) : bool :=
  match b with
  | Some t => positive (b_spe t)
  | None => false
  end.

(** [b && ((b.atk && b.atk > 0) || ... || (b.spd && b.spd > 0))] *)
Definition boosts_other (b : option BoostsTable) : bool :=
  match b with
  | Some t =>
      positive (b_atk t) || positive (b_def t)
      || positive (b_spa t) || positive (b_spd t)
  | None => false
  end.

(** [item && item.zMove && move.type === item.zMoveType] *)
Definition z_crystal_for (item : option Item) (move : Move) : bool :=
  match item with
  | Some i => item_zMove i && opt_string_eqb (Some (move_type move)) (item_zMoveType i)
  | None => false
  end.

(** [item && ids.has(item.id)] *)
Definition item_in (item : option Item) (ids : IDSet) : bool :=
  match item with
  | Some i => has ids (item_id i)
  | None => false
  end.

(** One round of the loop of [checkBatonPass] over the pair
    ([speedBoosted], [nonSpeedBoosted]). *)
Definition batonPass_step (item : option Item)
    (acc : Boosted * Boosted) (move : Move) : Boosted * Boosted :=
  let '(speedBoosted, nonSpeedBoosted) := acc in
  let speedBoosted :=
    if (move_id move =? "flamecharge")%string || boosts_speed (move_boosts move)
    then Flag true else speedBoosted in
  let nonSpeedBoosted :=
    if has NON_SPEED_BOOST_MOVES (move_id move) || boosts_other (move_boosts move)
    then Flag true else nonSpeedBoosted in
  if z_crystal_for item move then
    let speedBoosted :=
      if boosts_speed (move_zMoveBoosts move) then
        if negb (truthy speedBoosted) then Name (move_name move)
        else speedBoosted
      else speedBoosted in
    let nonSpeedBoosted :=
      if boosts_other (move_zMoveBoosts move) then
        if negb (truthy nonSpeedBoosted) || name_is (move_name move) speedBoosted
        then Name (move_name move)
        else nonSpeedBoosted
      else nonSpeedBoosted in
    (speedBoosted, nonSpeedBoosted)
  else (speedBoosted, nonSpeedBoosted).

(** The state of the two variables when the loop is left. *)
Definition batonPass_loop (item : option Item) (moves : MoveTable)
  : Boosted * Boosted :=
  fold_left (batonPass_step item) (table_values moves) (Flag false, Flag false).

(** [function checkBatonPass(set, format, moves)] *)
Definition checkBatonPass (set : PokemonSet) (format : Format)
    (moves : MoveTable) : bool :=
  let item := Items_get (set_item set) (gen format) in
  let ability := toID (set_ability set) in
  let '(speedBoosted, nonSpeedBoosted) := batonPass_loop item moves in
  let speedBoosted :=
    if has SPEED_BOOST_ABILITIES ability || item_in item SPEED_BOOST_ITEMS
    then Flag true else speedBoosted in
  if negb (truthy speedBoosted) then false
  else
    let nonSpeedBoosted :=
      if has NON_SPEED_BOOST_ABILITIES ability || item_in item NON_SPEED_BOOST_ITEMS
      then Flag true else nonSpeedBoosted in
    if negb (truthy nonSpeedBoosted) then false
    else
      negb (strict_neq speedBoosted nonSpeedBoosted
            && is_string speedBoosted && is_string nonSpeedBoosted).

Definition SLEEP_MOVES : IDSet :=
  ["hypnosis"; "lovelykiss"; "sing"; "sleeppowder"; "spore"].

Definition TRAP_MOVES : IDSet := ["meanlook"; "spiderweb"].

Definition sleepTrap_step (acc : bool * bool) (move : Move) : bool * bool :=
  let '(sleep, trap) := acc in
  if has SLEEP_MOVES (move_id move) then (true, trap)
  else if has TRAP_MOVES (move_id move) then (sleep, true)
  else (sleep, trap).

(** [function checkSleepTrap(moves)] *)
Definition checkSleepTrap (moves : MoveTable) : bool :=
  let '(sleep, trap) :=
    fold_left sleepTrap_step (table_values moves) (false, false) in
  sleep && trap.

(** ** [Sets.validate]

    The body of [validate], one definition for each commented block of the
    source ([// Level], [// Moves], ...), which [validate_call] runs in the
    order of the source. *)

(** [set.level && set.level > bound] *)
Definition level_above (level : option Z) (bound : Z) : bool :=
  match level with
  | Some n => negb (n =? 0) && (n >? bound)
  | None => false
  end.

Definition check_tier (pokemon : string) (species : Species) : M unit :=
  if (sp_tier species =? "Illegal")%string then
    push (IllegalSpecies pokemon (sp_gen species))
  else if (sp_tier species =? "Unreleased")%string then
    push (UnreleasedSpecies pokemon (sp_gen species))
  else ret tt.

(* // Level *)
Definition check_level (rules : RuleSet) (pokemon : string)
    (set : PokemonSet) (species : Species) : M unit :=
  if Rules_isLittleCup rules then
    (if truthy_opt_string (sp_prevo species) then
       push (NotFirstInFamily pokemon)
     else if negb (nfe species) then
       push (NoEvolutionFamily pokemon)
     else ret tt) ;;
    when (level_above (set_level set) 5) (push (LevelAboveFive pokemon))
  else
    when (level_above (set_level set) 100) (push (LevelAboveHundred pokemon)).

(** The body of [for (const m of set.moves)]; each [continue] ends it. *)
Definition check_move (rules : RuleSet) (pokemon : string) (format : Format)
    (m : string) : M unit :=
  match Moves_get m (gen format) with
  | None => push (InvalidMove m (gen format))
  | Some move =>
      table <- gets moveTable ;;
      when (table_lookup table (move_id move))
        (push (DuplicateMove pokemon move)) ;;
      assign_move (move_id move) move ;;
      (* OHKO Clause *)
      if has (clauses rules) "OHKO" && move_ohko move then
        push (BannedByOHKO (move_name move))
      (* Evasion Moves Clause *)
      else if has (clauses rules) "Evasion Moves"
              && ((move_name move =? "Minimize")%string
                  || (move_name move =? "Double Team")%string) then
        push (BannedByEvasionMoves (move_name move))
      (* Swagger Clause *)
      else if has (clauses rules) "Swagger"
              && (move_name move =? "Swagger")%string then
        push (BannedBySwagger (move_name move))
      else ret tt
  end.

(* // Moves *)
Definition check_moves (rules : RuleSet) (pokemon : string)
    (set : PokemonSet) (format : Format) : M unit :=
  if negb (Nat.eqb (List.length (set_moves set)) 0) then
    when (Nat.ltb 4 (List.length (set_moves set)))
      (push (MoreThanFourMoves pokemon)) ;;
    new_moveTable ;;
    for_of (set_moves set) (check_move rules pokemon format) ;;
    (* Gen 2 Sleep Trapping *)
    when (gen format =? 2)
      (table <- gets moveTable ;;
       when (checkSleepTrap table) (push (SleepTrap pokemon (gen format)))) ;;
    (* Baton Pass Clause (partial) *)
    table <- gets moveTable ;;
    when (has (clauses rules) "Baton Pass" && table_lookup table "batonpass")
      (when (checkBatonPass set format table) (push (BatonPassBan pokemon)))
  else
    push (NoMoves pokemon).

(** The gender a generation 2 Atk DV gives, from the female ratio. *)
Definition expectedGender (ratio : GenderRatio) (atkDV : Z) : string :=
  let genderThreshold := (ratio_F ratio * 16)%Q in
  let genderThreshold :=
    if Qeq_bool genderThreshold 4 then 5%Q else genderThreshold in
  let genderThreshold :=
    if Qeq_bool genderThreshold 8 then 7%Q else genderThreshold in
  if Qle_bool genderThreshold (inject_Z atkDV) then "M" else "F".

(* // Gender *)
Definition check_gender (pokemon : string) (set : PokemonSet)
    (format : Format) (species : Species) : M unit :=
  match set_gender set with
  | None => ret tt
  | Some gender =>
      when (truthy_string gender)
        (when (negb (opt_string_eqb (Some gender) (sp_gender species)))
           (push (WrongGender pokemon gender (sp_gender species))) ;;
         when (gen format =? 2)
           (let atkDV := Stats_itod (atk (set_ivs set)) in
            match sp_genderRatio species with
            | None => throw
            | Some ratio =>
                let expected := expectedGender ratio atkDV in
                when (negb (gender =? expected)%string)
                  (push (GenderAgainstDV pokemon gender atkDV expected))
            end))
  end.

(* // EVs *)
Definition check_evs (pokemon : string) (set : PokemonSet)
    (format : Format) : M unit :=
  when ((gen format <? 3) && negb (spa (set_evs set) =? spd (set_evs set)))
    (push (EVsDiffer pokemon (spa (set_evs set)) (spd (set_evs set)))).

(** [perfect] after [for (stat in set.ivs) if (set.ivs[stat] >= 31) perfect++] *)
Definition perfect_ivs (ivs : StatsTable) : Z :=
  fold_left (fun perfect iv => if iv >=? 31 then perfect + 1 else perfect)
    (stat_values ivs) 0.

(** [!!(dvs.def === 10 && dvs.spe === 10 && dvs.spa === 10 && dvs.atk % 4 >= 2)] *)
Definition expectedShiny (dvs : StatsTable) : bool :=
  (def dvs =? 10) && (spe dvs =? 10) && (spa dvs =? 10)
  && (Z.rem (atk dvs) 4 >=? 2).

(* // IVs *)
Definition check_ivs (pokemon : string) (set : PokemonSet)
    (format : Format) (species : Species) : M unit :=
  if gen format >=? 6 then
    match isLegendary species (set_shiny set) with
    | TypeError => throw
    | Ok legendary =>
        when legendary
          (when (perfect_ivs (set_ivs set) <? 3)
             (push (LegendaryIVs pokemon (gen format))))
    end
  else if gen format <? 3 then
    when (negb (spa (set_ivs set) =? spd (set_ivs set)))
      (push (IVsDiffer pokemon (spa (set_ivs set)) (spd (set_ivs set)))) ;;
    when (gen format =? 2)
      (let dvs := Stats_istods (set_ivs set) in
       let expectedHPDV := Stats_getHPDV (set_ivs set) in
       when (negb (hp dvs =? expectedHPDV))
         (push (WrongHPDV pokemon (hp dvs) expectedHPDV)) ;;
       let shiny := truthy_opt_bool (set_shiny set) in
       when ((expectedShiny dvs && negb shiny) || (negb (expectedShiny dvs) && shiny))
         (push (WrongShiny pokemon shiny)))
  else ret tt.

(* // Nature *)
Definition check_nature (pokemon : string) (set : PokemonSet)
    (format : Format) : M unit :=
  if truthy_string (set_nature set) then
    match Natures_get (set_nature set) with
    | Some nature =>
        when (gen format <? 3)
          (push (NaturesDoNotExist (gen format) pokemon nature))
    | None =>
        when (gen format >=? 3)
          (push (InvalidNature (set_nature set) (gen format)))
    end
  else
    when (gen format >=? 3) (push (NatureRequired pokemon (gen format))).

(* // Ability *)
Definition check_ability (rules : RuleSet) (pokemon : string)
    (set : PokemonSet) (format : Format) : M unit :=
  if gen format >=? 3 then
    match Items_get (set_ability set) (gen format) with
    | None => push (InvalidAbility (set_ability set) (gen format))
    | Some ability =>
        (* Evasion Abilities Clause *)
        when (has (clauses rules) "Evasion Abilities"
              && ((item_name ability =? "Sand Veil")%string
                  || (item_name ability =? "Snow Cloak")%string))
          (push (BannedByEvasionAbilities (item_name ability))) ;;
        (* Moody Clause *)
        when (has (clauses rules) "Moody" && (item_name ability =? "Moody")%string)
          (push (BannedByMoody (item_name ability)))
    end
  else
    when (truthy_string (set_ability set))
      (push (AbilitiesDoNotExist (gen format) pokemon (set_ability set))).

(* // Item *)
Definition check_item (pokemon : string) (set : PokemonSet)
    (format : Format) (species : Species) : M unit :=
  if gen format >=? 2 then
    let item := Items_get (set_item set) (gen format) in
    when (truthy_string (set_item set)
          && match item with Some _ => false | None => true end)
      (push (InvalidItem (set_item set) (gen format))) ;;
    when (match item with
          | Some i => (item_id i =? "griseousorb")%string
                      && negb (sp_num species =? 487)
          | None => false
          end)
      (push GriseousOrbHolder)
  else
    when (truthy_string (set_item set))
      (push (ItemsDoNotExist (gen format) pokemon (set_item set))).

(** [static validate(set, format)], run in a store that holds the caller's
    [set]. *)
Definition validate_call (format : Format) : M (list Problem) :=
  set <- gets the_set ;;
  match Rules_get format with
  | None => ret [InvalidFormat format]
  | Some rules =>
      (* Species *)
      match Species_get (set_species set) (gen format) with
      | None => ret [InvalidSpecies (set_species set) (gen format)]
      | Some species =>
          new_problems ;;
          let pokemon := js_or (set_name set) (set_species set) in
          check_tier pokemon species ;;
          check_level rules pokemon set species ;;
          check_moves rules pokemon set format ;;
          check_gender pokemon set format species ;;
          check_evs pokemon set format ;;
          check_ivs pokemon set format species ;;
          check_nature pokemon set format ;;
          check_ability rules pokemon set format ;;
          check_item pokemon set format species ;;
          gets problems
      end
  end.

(** The store a call starts from: the set, and nothing allocated yet. *)
Definition entry (set : PokemonSet) : Store :=
  {| the_set := set; problems := []; moveTable := [] |}.

(** [Sets.validate(set, format)]: the returned array, or the [TypeError]. *)
Definition validate (set : PokemonSet) (format : Format) : Res (list Problem) :=
  match validate_call format (entry set) with
  | Ok (result, _) => Ok result
  | TypeError => TypeError
  end.

(** The text of a problem, as its template literal builds it. *)
Definition show_number (n : Z) : string :=
  DecimalString.NilZero.string_of_int (Z.to_int n).

Definition show_optional (o : option string) : string :=
  match o with
  | Some s => s
  | None => "undefined"
  end.

Definition render (p : Problem) : string :=
  match p with
  | InvalidFormat f => Format_toString f ++ " is not a valid format."
  | InvalidSpecies species g =>
      species ++ " is not a valid species for generation " ++ show_number g
  | IllegalSpecies pokemon g =>
      pokemon ++ " does not exist outside of generation " ++ show_number g
      ++ "."
  | UnreleasedSpecies pokemon g =>
      pokemon ++ " in unreleased in generation " ++ show_number g ++ "."
  | NotFirstInFamily pokemon =>
      pokemon ++ " isn't the first in its evolution family."
  | NoEvolutionFamily pokemon =>
      pokemon ++ " doesn't have an evolution family."
  | LevelAboveFive pokemon =>
      pokemon ++ " must be level 5 or under in Little Cup."
  | LevelAboveHundred pokemon => pokemon ++ " is higher than level 100."
  | MoreThanFourMoves pokemon => pokemon ++ " has more than four moves."
  | InvalidMove m g =>
      m ++ " is not a valid move for generation " ++ show_number g
  | DuplicateMove pokemon move =>
      pokemon ++ " may not have duplicate moves (" ++ Move_toString move
      ++ " is duplicated)."
  | BannedByOHKO name => name ++ " is banned by OHKO Clause."
  | BannedByEvasionMoves name => name ++ " is banned by Evasion Moves Clause."
  | BannedBySwagger name => name ++ " is banned by Swagger Clause."
  | SleepTrap pokemon g =>
      pokemon ++ " has both a sleeping and a trapping move, a "
      ++ "combination which is banned in generation " ++ show_number g ++ "."
  | BatonPassBan pokemon =>
      pokemon ++ " can Baton Pass both Speed and a different stat, "
      ++ "which is banned by Baton Pass Clause."
  | NoMoves pokemon => pokemon ++ " must have at least one move."
  | WrongGender pokemon declared fixed =>
      pokemon ++ " is the wrong gender for its species (" ++ declared
      ++ " vs. " ++ show_optional fixed ++ ")."
  | GenderAgainstDV pokemon declared atkDV expected =>
      pokemon ++ " is " ++ declared ++ ", but it has an Atk DV "
      ++ "of " ++ show_number atkDV ++ ", which makes its gender " ++ expected
      ++ "."
  | EVsDiffer pokemon a d =>
      "Before generation 3, SpA and SpD EVs must match "
      ++ "(" ++ pokemon ++ " has " ++ show_number a ++ " SpA and "
      ++ show_number d ++ " SpD EVs)."
  | LegendaryIVs pokemon g =>
      pokemon ++ " must have at least three perfect IVs "
      ++ "because it's a legendary in generation " ++ show_number g ++ "."
  | IVsDiffer pokemon a d =>
      "Before generation 3, SpA and SpD IVs must match "
      ++ "(" ++ pokemon ++ " has " ++ show_number a ++ " SpA and "
      ++ show_number d ++ " SpD IVs)."
  | WrongHPDV pokemon hpDV expected =>
      pokemon ++ " has an HP DV of " ++ show_number hpDV ++ ", but its "
      ++ "Atk, Def, Spe and Spc DVs give it an HP DV of "
      ++ show_number expected ++ "."
  | WrongShiny pokemon shiny =>
      pokemon ++ " is" ++ (if shiny then " not " else " ") ++ "shiny, "
      ++ "which does not match its DVs."
  | NaturesDoNotExist g pokemon n =>
      "Natures do not exist in generation " ++ show_number g ++ " "
      ++ "(" ++ pokemon ++ " has " ++ Nature_toString n ++ ")"
  | InvalidNature nature g =>
      nature ++ " is not a valid nature in " ++ "generation " ++ show_number g
  | NatureRequired pokemon g =>
      pokemon ++ " requires a nature in generation " ++ show_number g
  | InvalidAbility ability g =>
      ability ++ " is not a valid ability for " ++ "generation "
      ++ show_number g
  | BannedByEvasionAbilities name =>
      name ++ " is banned by Evasion Abilities Clause."
  | BannedByMoody name => name ++ " is banned by Moody Clause."
  | AbilitiesDoNotExist g pokemon ability =>
      "Abilities do not exist in generation " ++ show_number g ++ " "
      ++ "(" ++ pokemon ++ " has ability " ++ ability ++ ")"
  | InvalidItem item g =>
      item ++ " is not a valid item for generation " ++ show_number g
  | GriseousOrbHolder =>
      "Griseous Orb can only be held by Giratina in Generation 4."
  | ItemsDoNotExist g pokemon item =>
      "Held items do not exist in generation " ++ show_number g ++ " ("
      ++ pokemon ++ " has item " ++ item ++ ")"
  end%string.

(** The array of strings the caller receives. *)
Definition validate_text (set : PokemonSet) (format : Format)
  : Res (list string) :=
  match validate set format with
  | Ok result => Ok (map render result)
  | TypeError => TypeError
  end.

End Validator.

(** * Vocabulary of the properties *)

Section Vocabulary.

Context {data : Data}.

(** ** What each check pushes

    The problems a check appends, as a function of its inputs alone. *)

(** The store after [problems.push] of each element of [l]. *)
Definition pushed (st : Store) (l : list Problem) : Store :=
  {| the_set := the_set st;
     problems := problems st ++ l;
     moveTable := moveTable st |}.

Definition tier_problems (pokemon : string) (species : Species) : list Problem :=
  if (sp_tier species =? "Illegal")%string then
    [IllegalSpecies pokemon (sp_gen species)]
  else if (sp_tier species =? "Unreleased")%string then
    [UnreleasedSpecies pokemon (sp_gen species)]
  else [].

Definition level_problems (rules : RuleSet) (pokemon : string)
    (set : PokemonSet) (species : Species) : list Problem :=
  if Rules_isLittleCup rules then
    (if truthy_opt_string (sp_prevo species) then [NotFirstInFamily pokemon]
     else if negb (nfe species) then [NoEvolutionFamily pokemon]
     else [])
    ++ (if level_above (set_level set) 5 then [LevelAboveFive pokemon] else [])
  else
    if level_above (set_level set) 100 then [LevelAboveHundred pokemon] else [].

Definition clause_problems (rules : RuleSet) (move : Move) : list Problem :=
  if has (clauses rules) "OHKO" && move_ohko move then
    [BannedByOHKO (move_name move)]
  else if has (clauses rules) "Evasion Moves"
          && ((move_name move =? "Minimize")%string
              || (move_name move =? "Double Team")%string) then
    [BannedByEvasionMoves (move_name move)]
  else if has (clauses rules) "Swagger"
          && (move_name move =? "Swagger")%string then
    [BannedBySwagger (move_name move)]
  else [].

Definition duplicate_problems (pokemon : string) (table : MoveTable)
    (move : Move) : list Problem :=
  if table_lookup table (move_id move) then [DuplicateMove pokemon move]
  else [].

(** The problems of the loop over [set.moves], entered with [table]. *)
Fixpoint loop_problems (rules : RuleSet) (pokemon : string) (g : Z)
    (table : MoveTable) (moves : list string) : list Problem :=
  match moves with
  | [] => []
  | m :: rest =>
      match Moves_get m g with
      | None => InvalidMove m g :: loop_problems rules pokemon g table rest
      | Some move =>
          duplicate_problems pokemon table move
          ++ clause_problems rules move
          ++ loop_problems rules pokemon g
               (table_set table (move_id move) move) rest
      end
  end.

(** [moveTable] when the loop is left. *)
Fixpoint loop_table (g : Z) (table : MoveTable) (moves : list string)
  : MoveTable :=
  match moves with
  | [] => table
  | m :: rest =>
      match Moves_get m g with
      | None => loop_table g table rest
      | Some move => loop_table g (table_set table (move_id move) move) rest
      end
  end.

(** The move table [validate] hands to the two combination checks. *)
Definition moveTable_of (set : PokemonSet) (format : Format) : MoveTable :=
  loop_table (gen format) [] (set_moves set).

Definition sleepTrap_problems (pokemon : string) (set : PokemonSet)
    (format : Format) : list Problem :=
  if gen format =? 2 then
    if checkSleepTrap (moveTable_of set format)
    then [SleepTrap pokemon (gen format)] else []
  else [].

Definition batonPass_problems (rules : RuleSet) (pokemon : string)
    (set : PokemonSet) (format : Format) : list Problem :=
  if has (clauses rules) "Baton Pass"
     && table_lookup (moveTable_of set format) "batonpass" then
    if checkBatonPass set format (moveTable_of set format)
    then [BatonPassBan pokemon] else []
  else [].

Definition moves_problems (rules : RuleSet) (pokemon : string)
    (set : PokemonSet) (format : Format) : list Problem :=
  if negb (Nat.eqb (List.length (set_moves set)) 0) then
    (if Nat.ltb 4 (List.length (set_moves set))
     then [MoreThanFourMoves pokemon] else [])
    ++ loop_problems rules pokemon (gen format) [] (set_moves set)
    ++ sleepTrap_problems pokemon set format
    ++ batonPass_problems rules pokemon set format
  else [NoMoves pokemon].

Definition fixed_gender_problems (pokemon gender : string) (species : Species)
  : list Problem :=
  if negb (opt_string_eqb (Some gender) (sp_gender species))
  then [WrongGender pokemon gender (sp_gender species)] else [].

Definition dv_gender_problems (pokemon gender : string) (atkDV : Z)
    (ratio : GenderRatio) : list Problem :=
  if negb (gender =? expectedGender ratio atkDV)%string
  then [GenderAgainstDV pokemon gender atkDV (expectedGender ratio atkDV)]
  else [].

Definition gender_problems (pokemon : string) (set : PokemonSet)
    (format : Format) (species : Species) : Res (list Problem) :=
  match set_gender set with
  | None => Ok []
  | Some gender =>
      if truthy_string gender then
        if gen format =? 2 then
          match sp_genderRatio species with
          | None => TypeError
          | Some ratio =>
              Ok (fixed_gender_problems pokemon gender species
                  ++ dv_gender_problems pokemon gender
                       (Stats_itod (atk (set_ivs set))) ratio)
          end
        else Ok (fixed_gender_problems pokemon gender species)
      else Ok []
  end.

Definition evs_problems (pokemon : string) (set : PokemonSet)
    (format : Format) : list Problem :=
  if (gen format <? 3) && negb (spa (set_evs set) =? spd (set_evs set))
  then [EVsDiffer pokemon (spa (set_evs set)) (spd (set_evs set))] else [].

Definition dv_problems (pokemon : string) (set : PokemonSet) : list Problem :=
  let dvs := Stats_istods (set_ivs set) in
  let shiny := truthy_opt_bool (set_shiny set) in
  (if negb (hp dvs =? Stats_getHPDV (set_ivs set))
   then [WrongHPDV pokemon (hp dvs) (Stats_getHPDV (set_ivs set))] else [])
  ++ (if (expectedShiny dvs && negb shiny) || (negb (expectedShiny dvs) && shiny)
      then [WrongShiny pokemon shiny] else []).

Definition ivs_problems (pokemon : string) (set : PokemonSet)
    (format : Format) (species : Species) : Res (list Problem) :=
  if gen format >=? 6 then
    match isLegendary species (set_shiny set) with
    | TypeError => TypeError
    | Ok legendary =>
        Ok (if legendary && (perfect_ivs (set_ivs set) <? 3)
            then [LegendaryIVs pokemon (gen format)] else [])
    end
  else if gen format <? 3 then
    Ok ((if negb (spa (set_ivs set) =? spd (set_ivs set))
         then [IVsDiffer pokemon (spa (set_ivs set)) (spd (set_ivs set))]
         else [])
        ++ (if gen format =? 2 then dv_problems pokemon set else []))
  else Ok [].

Definition nature_problems (pokemon : string) (set : PokemonSet)
    (format : Format) : list Problem :=
  if truthy_string (set_nature set) then
    match Natures_get (set_nature set) with
    | Some nature =>
        if gen format <? 3
        then [NaturesDoNotExist (gen format) pokemon nature] else []
    | None =>
        if gen format >=? 3
        then [InvalidNature (set_nature set) (gen format)] else []
    end
  else if gen format >=? 3 then [NatureRequired pokemon (gen format)] else [].

Definition ability_problems (rules : RuleSet) (pokemon : string)
    (set : PokemonSet) (format : Format) : list Problem :=
  if gen format >=? 3 then
    match Items_get (set_ability set) (gen format) with
    | None => [InvalidAbility (set_ability set) (gen format)]
    | Some ability =>
        (if has (clauses rules) "Evasion Abilities"
            && ((item_name ability =? "Sand Veil")%string
                || (item_name ability =? "Snow Cloak")%string)
         then [BannedByEvasionAbilities (item_name ability)] else [])
        ++ (if has (clauses rules) "Moody"
               && (item_name ability =? "Moody")%string
            then [BannedByMoody (item_name ability)] else [])
    end
  else if truthy_string (set_ability set)
       then [AbilitiesDoNotExist (gen format) pokemon (set_ability set)]
       else [].

Definition item_problems (pokemon : string) (set : PokemonSet)
    (format : Format) (species : Species) : list Problem :=
  if gen format >=? 2 then
    (if truthy_string (set_item set)
        && match Items_get (set_item set) (gen format) with
           | Some _ => false
           | None => true
           end
     then [InvalidItem (set_item set) (gen format)] else [])
    ++ (if match Items_get (set_item set) (gen format) with
           | Some i => (item_id i =? "griseousorb")%string
                       && negb (sp_num species =? 487)
           | None => false
           end
        then [GriseousOrbHolder] else [])
  else if truthy_string (set_item set)
       then [ItemsDoNotExist (gen format) pokemon (set_item set)]
       else [].

(** The array a call returns once the format and the species are resolved:
    the problems of the nine checks, in the order of the checks. *)
Definition all_problems (rules : RuleSet) (species : Species)
    (set : PokemonSet) (format : Format) : Res (list Problem) :=
  let pokemon := js_or (set_name set) (set_species set) in
  match gender_problems pokemon set format species,
        ivs_problems pokemon set format species with
  | Ok of_gender, Ok of_ivs =>
      Ok (tier_problems pokemon species
          ++ level_problems rules pokemon set species
          ++ moves_problems rules pokemon set format
          ++ of_gender
          ++ evs_problems pokemon set format
          ++ of_ivs
          ++ nature_problems pokemon set format
          ++ ability_problems rules pokemon set format
          ++ item_problems pokemon set format species)
  | _, _ => TypeError
  end.

(** The two non-null assertions of the source hold on this input. *)
Definition assertions_hold (set : PokemonSet) (format : Format)
    (species : Species) : bool :=
  (if (gen format =? 2) && truthy_opt_string (set_gender set)
   then match sp_genderRatio species with Some _ => true | None => false end
   else true)
  && (if gen format >=? 6
      then match sp_eggGroups species with Some _ => true | None => false end
      else true).

(** ** Which check a problem comes from *)

Inductive Check :=
| Resolution | Tier | Level | Moves | Gender | EVs | IVs | NatureCheck
| Ability | ItemCheck.

Definition origin (p : Problem) : Check :=
  match p with
  | InvalidFormat _ | InvalidSpecies _ _ => Resolution
  | IllegalSpecies _ _ | UnreleasedSpecies _ _ => Tier
  | NotFirstInFamily _ | NoEvolutionFamily _
  | LevelAboveFive _ | LevelAboveHundred _ => Level
  | MoreThanFourMoves _ | InvalidMove _ _ | DuplicateMove _ _
  | BannedByOHKO _ | BannedByEvasionMoves _ | BannedBySwagger _
  | SleepTrap _ _ | BatonPassBan _ | NoMoves _ => Moves
  | WrongGender _ _ _ | GenderAgainstDV _ _ _ _ => Gender
  | EVsDiffer _ _ _ => EVs
  | LegendaryIVs _ _ | IVsDiffer _ _ _ | WrongHPDV _ _ _ | WrongShiny _ _ => IVs
  | NaturesDoNotExist _ _ _ | InvalidNature _ _ | NatureRequired _ _ => NatureCheck
  | InvalidAbility _ _ | BannedByEvasionAbilities _ | BannedByMoody _
  | AbilitiesDoNotExist _ _ _ => Ability
  | InvalidItem _ _ | GriseousOrbHolder | ItemsDoNotExist _ _ _ => ItemCheck
  end.

Definition from (c : Check) (l : list Problem) : Prop :=
  Forall (fun p => origin p = c) l.

(** [const pokemon = set.name || set.species] *)
Definition pokemon_of (s : PokemonSet) : string :=
  js_or (set_name s) (set_species s).

(** ** Notions the properties are stated with *)

(** The array a call returns, without the store. *)
Definition returned {A} (r : Res (A * Store)) : Res A :=
  match r with
  | Ok (a, _) => Ok a
  | TypeError => TypeError
  end.

(** Every entry is stored under the id of its move. *)
Definition keyed_by_id (t : MoveTable) : Prop :=
  Forall (fun entry => move_id (snd entry) = fst entry) t.

(** Some entry of the list resolves, in generation [g], to a move whose id
    is in [ids]. *)
Definition resolves_into (g : Z) (moves : list string) (ids : IDSet) : Prop :=
  exists m move,
    In m moves /\ Moves_get m g = Some move /\ has ids (move_id move) = true.

(** The duplicate-move problems raised for the move id [id]. *)
Definition is_duplicate_of (id : string) (p : Problem) : bool :=
  match p with
  | DuplicateMove _ move => (move_id move =? id)%string
  | _ => false
  end.

(** The problems of the three per-move clauses. *)
Definition is_clause_ban (p : Problem) : bool :=
  match p with
  | BannedByOHKO _ | BannedByEvasionMoves _ | BannedBySwagger _ => true
  | _ => false
  end.

(** How many entries of the list resolve to a move with id [id]. *)
Definition occurrences (g : Z) (moves : list string) (id : string) : nat :=
  List.length
    (filter (fun m => match Moves_get m g with
                      | Some move => (move_id move =? id)%string
                      | None => false
                      end) moves).

(** The clause problems of every entry that resolves, in order. *)
Definition clause_bans (rules : RuleSet) (g : Z) (moves : list string)
  : list Problem :=
  flat_map (fun m => match Moves_get m g with
                     | Some move => clause_problems rules move
                     | None => []
                     end) moves.

(** The rule for the generation 2 gender in the words of the specification:
    the threshold is the female ratio times 16, corrected to 5 when that is
    4 and to 7 when it is 8; an Atk DV at or above the threshold is male. *)
Definition threshold_by_spec (femaleRatio : Q) : Q :=
  if Qeq_bool (femaleRatio * 16) 4 then 5%Q
  else if Qeq_bool (femaleRatio * 16) 8 then 7%Q
  else (femaleRatio * 16)%Q.

Definition gender_by_spec (ratio : GenderRatio) (atkDV : Z) : string :=
  if Qle_bool (threshold_by_spec (ratio_F ratio)) (inject_Z atkDV)
  then "M" else "F".

(** The gender rule in the words of the specification: a species with a
    fixed gender asks for that gender; any other species asks, in generation
    2 only, for the gender its Atk DV gives. *)
Definition gender_matches_by_spec (s : Species) (g : Z) (gender : string)
    (atkDV : Z) : bool :=
  match sp_gender s with
  | Some fixed => (gender =? fixed)%string
  | None =>
      if g =? 2 then
        match sp_genderRatio s with
        | Some ratio => (gender =? gender_by_spec ratio atkDV)%string
        | None => true
        end
      else true
  end.

(** The legendary predicate in the words of the specification: first the
    conditions on the species alone, then the exemption of shiny Diancie. *)
Definition legendary_species (s : Species) (groups : list string) : Prop :=
  (hd_error groups = Some "Undiscovered" \/ sp_name s = "Manaphy")
  /\ truthy_opt_string (sp_prevo s) = false
  /\ nfe s = false
  /\ sp_name s <> "Unown"
  /\ sp_baseSpecies s <> "Pikachu".

Definition legendary_by_spec (s : Species) (groups : list string)
    (shiny : option bool) : Prop :=
  legendary_species s groups
  /\ (sp_baseSpecies s <> "Diancie" \/ truthy_opt_bool shiny = false).

(** The number of stats with an IV of at least 31. *)
Definition perfect_count (ivs : StatsTable) : nat :=
  List.length (filter (fun iv => 31 <=? iv) (stat_values ivs)).

(** The sources of a boost in the words of the specification. *)
Definition boosts_speed_itself (move : Move) : bool :=
  (move_id move =? "flamecharge")%string || boosts_speed (move_boosts move).

Definition boosts_other_itself (move : Move) : bool :=
  has NON_SPEED_BOOST_MOVES (move_id move) || boosts_other (move_boosts move).

Definition z_boosts_speed (item : option Item) (move : Move) : bool :=
  z_crystal_for item move && boosts_speed (move_zMoveBoosts move).

Definition z_boosts_other (item : option Item) (move : Move) : bool :=
  z_crystal_for item move && boosts_other (move_zMoveBoosts move).

(** The set has a source of a Speed boost: a move, the Z-move of a move with
    the matching Z-crystal held, an ability or an item. *)
Definition speed_source (set : PokemonSet) (format : Format)
    (moves : MoveTable) : bool :=
  let item := Items_get (set_item set) (gen format) in
  existsb (fun move => boosts_speed_itself move || z_boosts_speed item move)
    (table_values moves)
  || (has SPEED_BOOST_ABILITIES (toID (set_ability set))
      || item_in item SPEED_BOOST_ITEMS).

(** The set has a source of a boost to another stat. *)
Definition other_source (set : PokemonSet) (format : Format)
    (moves : MoveTable) : bool :=
  let item := Items_get (set_item set) (gen format) in
  existsb (fun move => boosts_other_itself move || z_boosts_other item move)
    (table_values moves)
  || (has NON_SPEED_BOOST_ABILITIES (toID (set_ability set))
      || item_in item NON_SPEED_BOOST_ITEMS).

(** What the two boosts are attributed to: the values of [speedBoosted] and
    [nonSpeedBoosted] after the loop and the fixed sets. *)
Definition attributions (set : PokemonSet) (format : Format)
    (moves : MoveTable) : Boosted * Boosted :=
  let item := Items_get (set_item set) (gen format) in
  let ability := toID (set_ability set) in
  let '(speedBoosted, nonSpeedBoosted) := batonPass_loop item moves in
  (if has SPEED_BOOST_ABILITIES ability || item_in item SPEED_BOOST_ITEMS
   then Flag true else speedBoosted,
   if has NON_SPEED_BOOST_ABILITIES ability || item_in item NON_SPEED_BOOST_ITEMS
   then Flag true else nonSpeedBoosted).

End Vocabulary.

(** ** A small instance of the data tables

    Modelled from the spec: the tables and the helpers of the [pkmn] package
    are external to the sources at hand.  The instance below holds a few rows
    of them, with [toID] (lower-case letters and digits are kept), the DV of
    an IV ([floor(iv / 2)]) and the HP DV read from the least significant
    bits of the Atk, Def, Spe and Spc DVs.  It serves to run the validator on
    concrete sets. *)
Module Fixture.

Definition lower_alnum (c : Ascii.ascii) : option Ascii.ascii :=
  let n := Ascii.nat_of_ascii c in
  if (Nat.leb 65 n && Nat.leb n 90)%bool then Some (Ascii.ascii_of_nat (n + 32))
  else if ((Nat.leb 97 n && Nat.leb n 122) || (Nat.leb 48 n && Nat.leb n 57))%bool
       then Some c
       else None.

Fixpoint to_id (s : string) : string :=
  match s with
  | EmptyString => EmptyString
  | String c rest =>
      match lower_alnum c with
      | Some c' => String c' (to_id rest)
      | None => to_id rest
      end
  end.

Definition itod (iv : Z) : Z := iv / 2.

Definition istods (ivs : StatsTable) : StatsTable :=
  {| hp := itod (hp ivs); atk := itod (atk ivs); def := itod (def ivs);
     spa := itod (spa ivs); spd := itod (spd ivs); spe := itod (spe ivs) |}.

Definition getHPDV (ivs : StatsTable) : Z :=
  Z.rem (itod (atk ivs)) 2 * 8 + Z.rem (itod (def ivs)) 2 * 4
  + Z.rem (itod (spe ivs)) 2 * 2 + Z.rem (itod (spa ivs)) 2.

Definition mk_move (name type : string) (ohko : bool)
    (boosts zboosts : option BoostsTable) : Move :=
  {| move_id := to_id name; move_name := name; move_type := type;
     move_ohko := ohko; move_boosts := boosts; move_zMoveBoosts := zboosts |}.

Definition plus_atk n := Some {| b_atk := Some n; b_def := None; b_spa := None;
                                 b_spd := None; b_spe := None |}.
Definition plus_spd n := Some {| b_atk := None; b_def := None; b_spa := None;
                                 b_spd := Some n; b_spe := None |}.
Definition plus_spe n := Some {| b_atk := None; b_def := None; b_spa := None;
                                 b_spd := None; b_spe := Some n |}.

(** Moves, each with the generation that introduced it. *)
Definition moves : list (Move * Z) :=
  [ (mk_move "Tackle" "Normal" false None None, 1);
    (mk_move "Baton Pass" "Normal" false None None, 2);
    (mk_move "Agility" "Psychic" false (plus_spe 2) None, 1);
    (mk_move "Swords Dance" "Normal" false (plus_atk 2) None, 1);
    (mk_move "Spore" "Grass" false None None, 1);
    (mk_move "Mean Look" "Normal" false None (plus_spd 1), 2);
    (mk_move "Fissure" "Ground" true None None, 1);
    (mk_move "Minimize" "Normal" false None None, 1);
    (mk_move "Swagger" "Normal" false None None, 2);
    (mk_move "Electric Terrain" "Electric" false None (plus_spe 1), 6);
    (mk_move "Thunder Wave" "Electric" false None (plus_spd 1), 1);
    (mk_move "Charge" "Electric" false (plus_spd 1) (plus_spd 1), 3) ].

Definition items : list (Item * Z) :=
  [ ({| item_id := "leftovers"; item_name := "Leftovers";
        item_zMove := false; item_zMoveType := None |}, 2);
    ({| item_id := "salacberry"; item_name := "Salac Berry";
        item_zMove := false; item_zMoveType := None |}, 3);
    ({| item_id := "griseousorb"; item_name := "Griseous Orb";
        item_zMove := false; item_zMoveType := None |}, 4);
    ({| item_id := "electriumz"; item_name := "Electrium Z";
        item_zMove := true; item_zMoveType := Some "Electric" |}, 7) ].

(** Abilities, each with the generation that introduced it.  The validator
    has no lookup among them. *)
Definition abilities : list (string * Z) :=
  [ ("Sand Veil", 3); ("Snow Cloak", 4); ("Moody", 5); ("Own Tempo", 3) ].

Definition is_ability (name : string) (g : Z) : bool :=
  existsb (fun row => (to_id (fst row) =? to_id name)%string && (snd row <=? g))
    abilities.

Definition natures : list Nature :=
  [ {| nature_name := "Adamant" |}; {| nature_name := "Timid" |} ].

Definition mk_species (name : string) (g num : Z) (prevo : option string)
    (evos : option (list string)) (gender : option string) (female : Q)
    (eggGroups : list string) : Species :=
  {| sp_name := name; sp_baseSpecies := name; sp_gen := g; sp_num := num;
     sp_tier := "OU"; sp_prevo := prevo; sp_evos := evos; sp_gender := gender;
     sp_genderRatio := Some {| ratio_M := (1 - female)%Q; ratio_F := female |};
     sp_eggGroups := Some eggGroups |}.

Definition species_table : list Species :=
  [ mk_species "Nidoran-M" 1 32 None (Some ["nidorino"]) (Some "M") 0
      ["Monster"; "Field"];
    mk_species "Marowak" 1 105 (Some "cubone") None None (1 # 2) ["Monster"];
    mk_species "Smeargle" 2 235 None None None (1 # 2) ["Field"];
    mk_species "Glalie" 3 362 (Some "snorunt") None None (1 # 2)
      ["Fairy"; "Mineral"];
    mk_species "Giratina" 4 487 None None (Some "N") 0 ["Undiscovered"];
    mk_species "Diancie" 6 719 None None (Some "N") 0 ["Undiscovered"] ].

Definition standard : RuleSet :=
  {| clauses := ["OHKO"; "Evasion Moves"; "Swagger"; "Baton Pass";
                 "Evasion Abilities"; "Moody"] |}.

Definition little_cup : RuleSet := {| clauses := ["Little Cup"; "OHKO"] |}.

Definition rules_of (f : Format) : option RuleSet :=
  if (format_id f =? "ou")%string then Some standard
  else if (format_id f =? "lc")%string then Some little_cup
  else None.

Definition find_in {A} (id_of : A -> string) (rows : list (A * Z))
    (name : string) (g : Z) : option A :=
  match find (fun row => (id_of (fst row) =? to_id name)%string
                         && (snd row <=? g)) rows with
  | Some row => Some (fst row)
  | None => None
  end.

#[export] Instance tables : Data := {
  Rules_get := rules_of;
  Rules_isLittleCup := fun r => has (clauses r) "Little Cup";
  Species_get := fun name g =>
    find (fun s => (to_id (sp_name s) =? to_id name)%string && (sp_gen s <=? g))
      species_table;
  Moves_get := find_in move_id moves;
  Items_get := find_in item_id items;
  Natures_get := fun name =>
    find (fun n => (nature_name n =? name)%string) natures;
  toID := to_id;
  Stats_itod := itod;
  Stats_istods := istods;
  Stats_getHPDV := getHPDV;
  Format_toString := format_id;
  Move_toString := fun _ => "[object Object]";
  Nature_toString := nature_name
}.

(** The stub of [src/species.ts] in place of the species table. *)
Definition stubbed : Data := {|
  Rules_get := rules_of;
  Rules_isLittleCup := fun r => has (clauses r) "Little Cup";
  Species_get := Species_get_stub;
  Moves_get := find_in move_id moves;
  Items_get := find_in item_id items;
  Natures_get := fun name =>
    find (fun n => (nature_name n =? name)%string) natures;
  toID := to_id;
  Stats_itod := itod;
  Stats_istods := istods;
  Stats_getHPDV := getHPDV;
  Format_toString := format_id;
  Move_toString := fun _ => "[object Object]";
  Nature_toString := nature_name
|}.

Definition ivs_all (n : Z) : StatsTable :=
  {| hp := n; atk := n; def := n; spa := n; spd := n; spe := n |}.

Definition mk_set (species : string) (level : option Z)
    (gender : option string) (shiny : option bool) (moves : list string)
    (ivs : StatsTable) (nature ability item : string) : PokemonSet :=
  {| set_species := species; set_name := None; set_level := level;
     set_gender := gender; set_shiny := shiny; set_moves := moves;
     set_ivs := ivs; set_evs := ivs_all 0; set_nature := nature;
     set_ability := ability; set_item := item |}.

Definition ou (g : Z) : Format := {| gen := g; format_id := "ou" |}.

(** A generation 2 set, and the store a call on it leaves. *)
Definition spore_fissure : PokemonSet :=
  mk_set "Smeargle" (Some 100) None None ["Spore"; "Fissure"] (ivs_all 30)
    "" "" "".

Definition after_spore_fissure : Store :=
  {| the_set := spore_fissure;
     problems := [BannedByOHKO "Fissure"];
     moveTable := moveTable_of spore_fissure (ou 2) |}.

End Fixture.

From Stdlib Require Import Permutation.

(** * Further notions and samples *)

(** The problem raised for an entry of [set.moves] that does not resolve. *)
Definition is_invalid_move (p : Problem) : bool :=
  match p with
  | InvalidMove _ _ => true
  | _ => false
  end.

(** The duplicate-move problems, whatever the move. *)
Definition is_duplicate (p : Problem) : bool :=
  match p with
  | DuplicateMove _ _ => true
  | _ => false
  end.

Section Counting.

Context {data : Data}.

(** The entry resolves to a move of generation [g]. *)
Definition resolves (g : Z) (m : string) : bool :=
  match Moves_get m g with
  | Some _ => true
  | None => false
  end.

(** The item the set holds is a Z-crystal. *)
Definition holds_z_crystal (set : PokemonSet) (format : Format) : bool :=
  match Items_get (set_item set) (gen format) with
  | Some i => item_zMove i
  | None => false
  end.

(** An ability or the item gives the Speed boost, or the other boost. *)
Definition speed_forced (set : PokemonSet) (format : Format) : bool :=
  has SPEED_BOOST_ABILITIES (toID (set_ability set))
  || item_in (Items_get (set_item set) (gen format)) SPEED_BOOST_ITEMS.

Definition other_forced (set : PokemonSet) (format : Format) : bool :=
  has NON_SPEED_BOOST_ABILITIES (toID (set_ability set))
  || item_in (Items_get (set_item set) (gen format)) NON_SPEED_BOOST_ITEMS.

(** A move that is no source of a boost, with or without its Z-move. *)
Definition inert (item : option Item) (move : Move) : bool :=
  negb (boosts_speed_itself move) && negb (boosts_other_itself move)
  && negb (z_boosts_speed item move) && negb (z_boosts_other item move).

End Counting.

(** More rows of the tables: species outside the usual tiers, a family for
    Little Cup, and the Normal-type Z-crystal with two moves whose Z-moves
    boost.  Modelled from the spec, as [Fixture] is. *)
Module Samples.

Import Fixture.

Definition plus_all n :=
  Some {| b_atk := Some n; b_def := Some n; b_spa := Some n;
          b_spd := Some n; b_spe := Some n |}.

Definition me_first : Move := mk_move "Me First" "Normal" false None (plus_spe 2).

Definition celebrate : Move := mk_move "Celebrate" "Normal" false None (plus_all 1).

Definition more_moves : list (Move * Z) :=
  Fixture.moves ++ [ (me_first, 4); (celebrate, 6) ].

Definition normalium_z : Item :=
  {| item_id := "normaliumz"; item_name := "Normalium Z";
     item_zMove := true; item_zMoveType := Some "Normal" |}.

Definition eevium_z : Item :=
  {| item_id := "eeviumz"; item_name := "Eevium Z";
     item_zMove := true; item_zMoveType := None |}.

Definition more_items : list (Item * Z) :=
  Fixture.items ++ [ (normalium_z, 7); (eevium_z, 7) ].

Definition with_tier (tier : string) (s : Species) : Species :=
  {| sp_name := sp_name s; sp_baseSpecies := sp_baseSpecies s;
     sp_gen := sp_gen s; sp_num := sp_num s; sp_tier := tier;
     sp_prevo := sp_prevo s; sp_evos := sp_evos s; sp_gender := sp_gender s;
     sp_genderRatio := sp_genderRatio s; sp_eggGroups := sp_eggGroups s |}.

Definition without_ratio (s : Species) : Species :=
  {| sp_name := sp_name s; sp_baseSpecies := sp_baseSpecies s;
     sp_gen := sp_gen s; sp_num := sp_num s; sp_tier := sp_tier s;
     sp_prevo := sp_prevo s; sp_evos := sp_evos s; sp_gender := sp_gender s;
     sp_genderRatio := None; sp_eggGroups := sp_eggGroups s |}.

Definition cubone : Species :=
  mk_species "Cubone" 1 104 None (Some ["marowak"]) None (1 # 2) ["Monster"].

Definition marowak : Species :=
  mk_species "Marowak" 1 105 (Some "cubone") None None (1 # 2) ["Monster"].

Definition smeargle : Species :=
  mk_species "Smeargle" 2 235 None None None (1 # 2) ["Field"].

Definition eevee : Species :=
  mk_species "Eevee" 1 133 None (Some ["vaporeon"; "jolteon"; "flareon"]) None
    (1 # 8) ["Field"].

Definition pokestar : Species :=
  with_tier "Illegal"
    (mk_species "Pokestar Smeargle" 5 (-5000) None None None (1 # 2)
       ["Undiscovered"]).

Definition eternal_floette : Species :=
  with_tier "Unreleased"
    (mk_species "Floette-Eternal" 6 670 None None (Some "F") 1
       ["Undiscovered"]).

Definition unown_without_ratio : Species :=
  without_ratio
    (mk_species "Unown" 2 201 None None (Some "N") 0 ["Undiscovered"]).

Definition staryu : Species :=
  mk_species "Staryu" 1 120 None (Some ["starmie"]) (Some "N") 0 ["Water 3"].

Definition more_species : list Species :=
  Fixture.species_table
  ++ [ cubone; eevee; pokestar; eternal_floette; unown_without_ratio;
       staryu ].

Definition more_tables : Data := {|
  Rules_get := rules_of;
  Rules_isLittleCup := fun r => has (clauses r) "Little Cup";
  Species_get := fun name g =>
    find (fun s => (to_id (sp_name s) =? to_id name)%string && (sp_gen s <=? g))
      more_species;
  Moves_get := find_in move_id more_moves;
  Items_get := find_in item_id more_items;
  Natures_get := fun name =>
    find (fun n => (nature_name n =? name)%string) natures;
  toID := to_id;
  Stats_itod := itod;
  Stats_istods := istods;
  Stats_getHPDV := getHPDV;
  Format_toString := format_id;
  Move_toString := fun _ => "[object Object]";
  Nature_toString := nature_name
|}.

(** A table of moves with an entry whose id names a member of
    [Object.prototype]. *)
Definition constructor_move : Move :=
  mk_move "Constructor" "Normal" false None None.

Definition inherited_tables : Data := {|
  Rules_get := rules_of;
  Rules_isLittleCup := fun r => has (clauses r) "Little Cup";
  Species_get := fun name g =>
    find (fun s => (to_id (sp_name s) =? to_id name)%string && (sp_gen s <=? g))
      more_species;
  Moves_get := find_in move_id (more_moves ++ [ (constructor_move, 1) ]);
  Items_get := find_in item_id more_items;
  Natures_get := fun name =>
    find (fun n => (nature_name n =? name)%string) natures;
  toID := to_id;
  Stats_itod := itod;
  Stats_istods := istods;
  Stats_getHPDV := getHPDV;
  Format_toString := format_id;
  Move_toString := fun _ => "[object Object]";
  Nature_toString := nature_name
|}.

Definition lc (g : Z) : Format := {| gen := g; format_id := "lc" |}.

(** A generation 2 set with uneven special EVs, and sets that pass boosts. *)
Definition uneven_evs : PokemonSet :=
  {| set_species := "Smeargle"; set_name := Some "Artist";
     set_level := Some 100; set_gender := None; set_shiny := None;
     set_moves := ["Tackle"]; set_ivs := ivs_all 30;
     set_evs := {| hp := 0; atk := 0; def := 0; spa := 252; spd := 4;
                   spe := 0 |};
     set_nature := ""; set_ability := ""; set_item := "" |}.

Definition passer (moves : list string) (item : string) : PokemonSet :=
  mk_set "Smeargle" (Some 100) None None moves (ivs_all 31) "Timid"
    "Leftovers" item.

End Samples.

(** * Properties *)

Ltac split_ifs :=
  repeat match goal with
         | |- context [if ?b then _ else _] => destruct b
         end.

Ltac run_check :=
  intros;
  repeat match goal with st : Store |- _ => destruct st end;
  unfold pushed, when, bind, push, ret; cbn;
  split_ifs; cbn;
  rewrite <- ?app_assoc, ?app_nil_r; try reflexivity.

(** ** The checks, run

    Each check leaves the store it finds, with its problems appended. *)

Section Denotation.

Context {data : Data}.

Lemma check_tier_run pokemon species st :
  check_tier pokemon species st
  = Ok (tt, pushed st (tier_problems pokemon species)).
Proof. unfold check_tier, tier_problems. run_check. Qed.

Lemma check_level_run rules pokemon set species st :
  check_level rules pokemon set species st
  = Ok (tt, pushed st (level_problems rules pokemon set species)).
Proof. unfold check_level, level_problems. run_check. Qed.

Lemma check_evs_run pokemon set format st :
  check_evs pokemon set format st
  = Ok (tt, pushed st (evs_problems pokemon set format)).
Proof. unfold check_evs, evs_problems. run_check. Qed.

Lemma check_nature_run pokemon set format st :
  check_nature pokemon set format st
  = Ok (tt, pushed st (nature_problems pokemon set format)).
Proof.
  unfold check_nature, nature_problems.
  destruct (Natures_get (set_nature set)); run_check.
Qed.

Lemma check_ability_run rules pokemon set format st :
  check_ability rules pokemon set format st
  = Ok (tt, pushed st (ability_problems rules pokemon set format)).
Proof.
  unfold check_ability, ability_problems.
  destruct (Items_get (set_ability set) (gen format)); run_check.
Qed.

Lemma check_item_run pokemon set format species st :
  check_item pokemon set format species st
  = Ok (tt, pushed st (item_problems pokemon set format species)).
Proof.
  unfold check_item, item_problems.
  destruct (Items_get (set_item set) (gen format)); run_check.
Qed.

Lemma check_gender_run pokemon set format species st :
  check_gender pokemon set format species st
  = match gender_problems pokemon set format species with
    | Ok l => Ok (tt, pushed st l)
    | TypeError => TypeError
    end.
Proof.
  unfold check_gender, gender_problems, fixed_gender_problems,
    dv_gender_problems, throw.
  destruct (set_gender set); [|run_check].
  destruct (sp_genderRatio species); run_check.
Qed.

Lemma check_ivs_run pokemon set format species st :
  check_ivs pokemon set format species st
  = match ivs_problems pokemon set format species with
    | Ok l => Ok (tt, pushed st l)
    | TypeError => TypeError
    end.
Proof.
  unfold check_ivs, ivs_problems, dv_problems, throw.
  destruct (isLegendary species (set_shiny set)) as [[]|]; run_check.
Qed.

Lemma check_move_run rules pokemon format m st :
  check_move rules pokemon format m st
  = Ok (tt,
        {| the_set := the_set st;
           problems :=
             problems st
             ++ loop_problems rules pokemon (gen format) (moveTable st) [m];
           moveTable := loop_table (gen format) (moveTable st) [m] |}).
Proof.
  unfold check_move, loop_problems, loop_table, duplicate_problems,
    clause_problems, assign_move, gets.
  destruct (Moves_get m (gen format)); run_check.
Qed.

Lemma loop_problems_cons rules pokemon g table m rest :
  loop_problems rules pokemon g table (m :: rest)
  = loop_problems rules pokemon g table [m]
    ++ loop_problems rules pokemon g (loop_table g table [m]) rest.
Proof.
  cbn. destruct (Moves_get m g); cbn; [|reflexivity].
  rewrite app_nil_r, <- app_assoc. reflexivity.
Qed.

Lemma loop_table_cons g table m rest :
  loop_table g table (m :: rest) = loop_table g (loop_table g table [m]) rest.
Proof. cbn. destruct (Moves_get m g); reflexivity. Qed.

Lemma for_of_check_move_run rules pokemon format moves :
  forall st,
    for_of moves (check_move rules pokemon format) st
    = Ok (tt,
          {| the_set := the_set st;
             problems :=
               problems st
               ++ loop_problems rules pokemon (gen format) (moveTable st) moves;
             moveTable := loop_table (gen format) (moveTable st) moves |}).
Proof.
  induction moves as [|m rest IH]; intros st.
  - destruct st; cbn. rewrite app_nil_r. reflexivity.
  - change (for_of (m :: rest) (check_move rules pokemon format) st)
      with (bind (check_move rules pokemon format m)
              (fun _ => for_of rest (check_move rules pokemon format)) st).
    unfold bind. rewrite check_move_run, IH.
    rewrite (loop_problems_cons _ _ _ _ m rest), (loop_table_cons _ _ m rest).
    cbn [the_set problems moveTable]. rewrite <- app_assoc. reflexivity.
Qed.

Lemma check_moves_run rules pokemon st format :
  check_moves rules pokemon (the_set st) format st
  = Ok (tt,
        {| the_set := the_set st;
           problems :=
             problems st ++ moves_problems rules pokemon (the_set st) format;
           moveTable :=
             if negb (Nat.eqb (List.length (set_moves (the_set st))) 0)
             then moveTable_of (the_set st) format
             else moveTable st |}).
Proof.
  unfold check_moves, moves_problems, sleepTrap_problems, batonPass_problems,
    moveTable_of.
  destruct (negb (Nat.eqb (List.length (set_moves (the_set st))) 0));
    [|destruct st; reflexivity].
  unfold bind at 1.
  assert (Hfirst : forall b p s,
             when b (push p) s = Ok (tt, pushed s (if b then [p] else []))).
  { intros b p s. run_check. }
  rewrite Hfirst. unfold bind at 1. cbn [new_moveTable].
  unfold bind at 1. rewrite for_of_check_move_run.
  cbn [the_set problems moveTable pushed].
  unfold bind, gets, when, push, ret. cbn [the_set problems moveTable].
  repeat (cbn [the_set problems moveTable];
          match goal with
          | |- context [if ?b then _ else _] => destruct b
          end);
    cbn [the_set problems moveTable];
    rewrite <- ?app_assoc, ?app_nil_r; reflexivity.
Qed.

(** A call either stops at the format or at the species, or it runs the nine
    checks and returns what they pushed onto a fresh array. *)
Lemma validate_call_run format st :
  validate_call format st
  = match Rules_get format with
    | None => Ok ([InvalidFormat format], st)
    | Some rules =>
        match Species_get (set_species (the_set st)) (gen format) with
        | None =>
            Ok ([InvalidSpecies (set_species (the_set st)) (gen format)], st)
        | Some species =>
            match all_problems rules species (the_set st) format with
            | Ok l =>
                Ok (l,
                    {| the_set := the_set st;
                       problems := l;
                       moveTable :=
                         if negb (Nat.eqb
                                    (List.length (set_moves (the_set st))) 0)
                         then moveTable_of (the_set st) format
                         else moveTable st |})
            | TypeError => TypeError
            end
        end
    end.
Proof.
  unfold validate_call, all_problems.
  unfold bind at 1. cbn [gets].
  destruct (Rules_get format) as [rules|]; [|reflexivity].
  destruct (Species_get (set_species (the_set st)) (gen format))
    as [species|]; [|reflexivity].
  set (pokemon := js_or (set_name (the_set st)) (set_species (the_set st))).
  unfold bind at 1. cbn [new_problems].
  unfold bind at 1. rewrite check_tier_run.
  unfold bind at 1. rewrite check_level_run.
  unfold bind at 1.
  change (the_set st) with
    (the_set (pushed (pushed {| the_set := the_set st; problems := [];
                                moveTable := moveTable st |}
                        (tier_problems pokemon species))
                (level_problems rules pokemon (the_set st) species))) at 1.
  rewrite check_moves_run.
  cbn [the_set problems moveTable pushed].
  unfold bind at 1. rewrite check_gender_run.
  destruct (gender_problems pokemon (the_set st) format species)
    as [of_gender|]; [|reflexivity].
  unfold bind at 1. rewrite check_evs_run.
  unfold bind at 1. rewrite check_ivs_run.
  destruct (ivs_problems pokemon (the_set st) format species)
    as [of_ivs|]; [|reflexivity].
  unfold bind at 1. rewrite check_nature_run.
  unfold bind at 1. rewrite check_ability_run.
  unfold bind at 1. rewrite check_item_run.
  unfold gets, pushed. cbn [the_set problems moveTable].
  rewrite <- !app_assoc. reflexivity.
Qed.

Lemma validate_eq set format :
  validate set format
  = match Rules_get format with
    | None => Ok [InvalidFormat format]
    | Some rules =>
        match Species_get (set_species set) (gen format) with
        | None => Ok [InvalidSpecies (set_species set) (gen format)]
        | Some species => all_problems rules species set format
        end
    end.
Proof.
  unfold validate. rewrite validate_call_run. cbn [the_set entry].
  destruct (Rules_get format) as [rules|]; [|reflexivity].
  destruct (Species_get (set_species set) (gen format)) as [species|];
    [|reflexivity].
  destruct (all_problems rules species set format); reflexivity.
Qed.

End Denotation.

(** ** Which check a problem comes from *)

Lemma from_app c l1 l2 : from c l1 -> from c l2 -> from c (l1 ++ l2).
Proof. unfold from. intros; apply Forall_app; split; assumption. Qed.

Lemma from_nil c : from c [].
Proof. constructor. Qed.

Lemma from_one c p : origin p = c -> from c [p].
Proof. intros H. constructor; [exact H | constructor]. Qed.

Ltac from_cases :=
  repeat match goal with
         | |- from _ (if ?b then _ else _) => destruct b
         | |- from _ (match ?o with Some _ => _ | None => _ end) => destruct o
         | |- from _ (_ ++ _) => apply from_app
         | |- from _ [] => apply from_nil
         | |- from _ [_] => apply from_one; reflexivity
         end.

Section Origins.

Context {data : Data}.

Lemma from_tier pokemon species : from Tier (tier_problems pokemon species).
Proof. unfold tier_problems. from_cases. Qed.

Lemma from_level rules pokemon set species :
  from Level (level_problems rules pokemon set species).
Proof. unfold level_problems. from_cases. Qed.

Lemma from_loop rules pokemon g moves :
  forall table, from Moves (loop_problems rules pokemon g table moves).
Proof.
  induction moves as [|m rest IH]; intros table; cbn; [apply from_nil|].
  destruct (Moves_get m g).
  - unfold duplicate_problems, clause_problems.
    repeat apply from_app; try apply IH; from_cases.
  - constructor; [reflexivity | apply IH].
Qed.

Lemma from_moves rules pokemon set format :
  from Moves (moves_problems rules pokemon set format).
Proof.
  unfold moves_problems, sleepTrap_problems, batonPass_problems.
  destruct (negb _); [|from_cases].
  repeat apply from_app; try apply from_loop; from_cases.
Qed.

Lemma from_gender pokemon set format species l :
  gender_problems pokemon set format species = Ok l -> from Gender l.
Proof.
  unfold gender_problems, fixed_gender_problems, dv_gender_problems.
  intros H.
  repeat match type of H with
         | (match ?o with Some _ => _ | None => _ end) = _ => destruct o
         | (if ?b then _ else _) = _ => destruct b
         end;
    inversion H; subst; from_cases.
Qed.

Lemma from_evs pokemon set format : from EVs (evs_problems pokemon set format).
Proof. unfold evs_problems. from_cases. Qed.

Lemma from_ivs pokemon set format species l :
  ivs_problems pokemon set format species = Ok l -> from IVs l.
Proof.
  unfold ivs_problems, dv_problems. intros H.
  repeat match type of H with
         | (match ?o with Ok _ => _ | TypeError => _ end) = _ => destruct o
         | (if ?b then _ else _) = _ => destruct b
         end;
    inversion H; subst; from_cases.
Qed.

Lemma from_nature pokemon set format :
  from NatureCheck (nature_problems pokemon set format).
Proof. unfold nature_problems. from_cases. Qed.

Lemma from_ability rules pokemon set format :
  from Ability (ability_problems rules pokemon set format).
Proof. unfold ability_problems. from_cases. Qed.

Lemma from_item pokemon set format species :
  from ItemCheck (item_problems pokemon set format species).
Proof. unfold item_problems. from_cases. Qed.

Lemma from_In c l p : from c l -> In p l -> origin p = c.
Proof. unfold from. rewrite Forall_forall. auto. Qed.

End Origins.

(** Among the problems of the nine checks, a problem is found in the list of
    the check it comes from, and nowhere else. *)
Lemma In_by_origin p t l m g e i n a it :
  from Tier t -> from Level l -> from Moves m -> from Gender g ->
  from EVs e -> from IVs i -> from NatureCheck n -> from Ability a ->
  from ItemCheck it ->
  In p (t ++ l ++ m ++ g ++ e ++ i ++ n ++ a ++ it)
  <-> In p (match origin p with
            | Resolution => []
            | Tier => t | Level => l | Moves => m | Gender => g | EVs => e
            | IVs => i | NatureCheck => n | Ability => a | ItemCheck => it
            end).
Proof.
  intros Ht Hl Hm Hg He Hi Hn Ha Hit.
  rewrite !in_app_iff.
  split.
  - intros H.
    repeat match type of H with
           | _ \/ _ => destruct H as [H|H]
           end;
      match goal with
      | Hf : from ?c ?x, Hin : In p ?x |- _ =>
          rewrite (from_In _ _ p Hf Hin); exact Hin
      end.
  - destruct (origin p); cbn; intros H; tauto.
Qed.

Section Resolved.

Context {data : Data}.

Variables (set : PokemonSet) (format : Format).
Variables (rules : RuleSet) (species : Species).

Hypothesis rules_resolve : Rules_get format = Some rules.
Hypothesis species_resolves :
  Species_get (set_species set) (gen format) = Some species.

Lemma validate_is_all_problems :
  validate set format = all_problems rules species set format.
Proof.
  rewrite validate_eq, rules_resolve, species_resolves. reflexivity.
Qed.

Lemma gender_problems_total :
  assertions_hold set format species = true ->
  exists l, gender_problems (pokemon_of set) set format species = Ok l.
Proof.
  unfold assertions_hold, gender_problems. intros H.
  apply andb_true_iff in H. destruct H as [H _].
  destruct (set_gender set) as [gender|]; [|eexists; reflexivity].
  cbn in H. destruct (truthy_string gender); [|eexists; reflexivity].
  rewrite andb_true_r in H.
  destruct (gen format =? 2); [|eexists; reflexivity].
  destruct (sp_genderRatio species); [eexists; reflexivity | discriminate].
Qed.

Lemma ivs_problems_total :
  assertions_hold set format species = true ->
  exists l, ivs_problems (pokemon_of set) set format species = Ok l.
Proof.
  unfold assertions_hold, ivs_problems, isLegendary. intros H.
  apply andb_true_iff in H. destruct H as [_ H].
  destruct (gen format >=? 6).
  - destruct (sp_eggGroups species); [eexists; reflexivity | discriminate].
  - destruct (gen format <? 3); eexists; reflexivity.
Qed.

(** With the assertions of the source in force the call returns, and a
    problem is reported exactly when the check it comes from pushes it. *)
Lemma validate_returns :
  assertions_hold set format species = true ->
  exists of_gender of_ivs,
    gender_problems (pokemon_of set) set format species = Ok of_gender
    /\ ivs_problems (pokemon_of set) set format species = Ok of_ivs
    /\ validate set format
       = Ok (tier_problems (pokemon_of set) species
             ++ level_problems rules (pokemon_of set) set species
             ++ moves_problems rules (pokemon_of set) set format
             ++ of_gender
             ++ evs_problems (pokemon_of set) set format
             ++ of_ivs
             ++ nature_problems (pokemon_of set) set format
             ++ ability_problems rules (pokemon_of set) set format
             ++ item_problems (pokemon_of set) set format species).
Proof.
  intros H.
  destruct (gender_problems_total H) as [g Hg].
  destruct (ivs_problems_total H) as [i Hi].
  exists g, i. repeat split; try assumption.
  rewrite validate_is_all_problems. unfold all_problems.
  fold (pokemon_of set). rewrite Hg, Hi. reflexivity.
Qed.

Lemma validate_In ps p :
  validate set format = Ok ps ->
  exists of_gender of_ivs,
    gender_problems (pokemon_of set) set format species = Ok of_gender
    /\ ivs_problems (pokemon_of set) set format species = Ok of_ivs
    /\ (In p ps
        <-> In p (match origin p with
                  | Resolution => []
                  | Tier => tier_problems (pokemon_of set) species
                  | Level => level_problems rules (pokemon_of set) set species
                  | Moves => moves_problems rules (pokemon_of set) set format
                  | Gender => of_gender
                  | EVs => evs_problems (pokemon_of set) set format
                  | IVs => of_ivs
                  | NatureCheck => nature_problems (pokemon_of set) set format
                  | Ability =>
                      ability_problems rules (pokemon_of set) set format
                  | ItemCheck =>
                      item_problems (pokemon_of set) set format species
                  end)).
Proof.
  rewrite validate_is_all_problems. unfold all_problems.
  fold (pokemon_of set).
  destruct (gender_problems (pokemon_of set) set format species)
    as [g|] eqn:Hg; [|discriminate].
  destruct (ivs_problems (pokemon_of set) set format species)
    as [i|] eqn:Hi; [|discriminate].
  intros H. inversion H; subst ps; clear H.
  exists g, i. repeat split; try reflexivity.
  - apply In_by_origin;
      eauto using from_tier, from_level, from_moves, from_gender, from_evs,
        from_ivs, from_nature, from_ability, from_item.
  - apply In_by_origin;
      eauto using from_tier, from_level, from_moves, from_gender, from_evs,
        from_ivs, from_nature, from_ability, from_item.
Qed.

(** The two facts together, with the result left abstract. *)
Lemma validate_by_check :
  assertions_hold set format species = true ->
  exists ps of_gender of_ivs,
    validate set format = Ok ps
    /\ gender_problems (pokemon_of set) set format species = Ok of_gender
    /\ ivs_problems (pokemon_of set) set format species = Ok of_ivs
    /\ forall p,
         In p ps
         <-> In p (match origin p with
                   | Resolution => []
                   | Tier => tier_problems (pokemon_of set) species
                   | Level => level_problems rules (pokemon_of set) set species
                   | Moves => moves_problems rules (pokemon_of set) set format
                   | Gender => of_gender
                   | EVs => evs_problems (pokemon_of set) set format
                   | IVs => of_ivs
                   | NatureCheck => nature_problems (pokemon_of set) set format
                   | Ability =>
                       ability_problems rules (pokemon_of set) set format
                   | ItemCheck =>
                       item_problems (pokemon_of set) set format species
                   end).
Proof.
  intros Ha.
  destruct (validate_returns Ha) as (og & oi & Hg & Hi & Hv).
  eexists. exists og, oi. repeat split; try eassumption.
  - intros H.
    destruct (validate_In _ p Hv) as (og' & oi' & Hg' & Hi' & Hin).
    rewrite Hg in Hg'. rewrite Hi in Hi'.
    inversion Hg'; inversion Hi'; subst og' oi'.
    apply Hin. exact H.
  - intros H.
    destruct (validate_In _ p Hv) as (og' & oi' & Hg' & Hi' & Hin).
    rewrite Hg in Hg'. rewrite Hi in Hi'.
    inversion Hg'; inversion Hi'; subst og' oi'.
    apply Hin. exact H.
Qed.

End Resolved.

(** ** Unresolved formats and species; independence of the checks *)

Section Resolution.

Context {data : Data}.

(** C2. When the rule set of the format does not resolve, the call returns
    the single problem naming the format; when the species does not resolve
    for the generation of the format, it returns the single problem naming
    the species and the generation; in both cases nothing else is run (the
    store is left as found).  Otherwise the nine checks all run: the result
    is the concatenation of what each of them pushes, each a function of the
    inputs alone, so that no problem of one check removes those of another. *)
Theorem validate_short_circuit_or_accumulate (set : PokemonSet) (format : Format) :
  (Rules_get format = None ->
   validate set format = Ok [InvalidFormat format]
   /\ forall st, validate_call format st = Ok ([InvalidFormat format], st))
  /\ (forall rules,
        Rules_get format = Some rules ->
        Species_get (set_species set) (gen format) = None ->
        validate set format
        = Ok [InvalidSpecies (set_species set) (gen format)]
        /\ forall st,
             the_set st = set ->
             validate_call format st
             = Ok ([InvalidSpecies (set_species set) (gen format)], st))
  /\ (forall rules species,
        Rules_get format = Some rules ->
        Species_get (set_species set) (gen format) = Some species ->
        assertions_hold set format species = true ->
        exists of_gender of_ivs,
          gender_problems (pokemon_of set) set format species = Ok of_gender
          /\ ivs_problems (pokemon_of set) set format species = Ok of_ivs
          /\ validate set format
             = Ok (tier_problems (pokemon_of set) species
                   ++ level_problems rules (pokemon_of set) set species
                   ++ moves_problems rules (pokemon_of set) set format
                   ++ of_gender
                   ++ evs_problems (pokemon_of set) set format
                   ++ of_ivs
                   ++ nature_problems (pokemon_of set) set format
                   ++ ability_problems rules (pokemon_of set) set format
                   ++ item_problems (pokemon_of set) set format species)).
Proof.
  split; [|split].
  - intros Hr. split.
    + rewrite validate_eq, Hr. reflexivity.
    + intros st. rewrite validate_call_run, Hr. reflexivity.
  - intros rules Hr Hs. split.
    + rewrite validate_eq, Hr, Hs. reflexivity.
    + intros st Hst. rewrite validate_call_run, Hr, Hst, Hs. reflexivity.
  - intros rules species Hr Hs H.
    exact (validate_returns set format rules species Hr Hs H).
Qed.

(** With the species lookup of [src/species.ts] as it stands, a call on a
    format that resolves stops at the species, whatever the set. *)
Lemma validate_on_species_stub (set : PokemonSet) (format : Format)
    (rules : RuleSet) :
  (forall s g, Species_get s g = Species_get_stub s g) ->
  Rules_get format = Some rules ->
  validate set format = Ok [InvalidSpecies (set_species set) (gen format)].
Proof.
  intros Hstub Hr. rewrite validate_eq, Hr, Hstub. reflexivity.
Qed.

End Resolution.

(** ** The level check *)

Lemma level_above_spec level bound :
  0 <= bound ->
  level_above level bound = true <-> exists n, level = Some n /\ bound < n.
Proof.
  intros Hb. unfold level_above. destruct level as [n|].
  - rewrite andb_true_iff, negb_true_iff, Z.eqb_neq, Z.gtb_ltb, Z.ltb_lt.
    split.
    + intros [_ H]. exists n. split; [reflexivity | exact H].
    + intros (n' & Hn & H). inversion Hn; subst n'. split; lia.
  - split; [discriminate | intros (n & Hn & _); discriminate].
Qed.

Section LevelCheck.

Context {data : Data}.

Lemma LevelAboveFive_in_level_problems p rules pokemon set species :
  In (LevelAboveFive p) (level_problems rules pokemon set species)
  <-> p = pokemon /\ Rules_isLittleCup rules = true
      /\ level_above (set_level set) 5 = true.
Proof.
  unfold level_problems.
  destruct (Rules_isLittleCup rules), (truthy_opt_string (sp_prevo species)),
    (negb (nfe species)), (level_above (set_level set) 5),
    (level_above (set_level set) 100); cbn;
    intuition (try discriminate; try congruence).
Qed.

Lemma LevelAboveHundred_in_level_problems p rules pokemon set species :
  In (LevelAboveHundred p) (level_problems rules pokemon set species)
  <-> p = pokemon /\ Rules_isLittleCup rules = false
      /\ level_above (set_level set) 100 = true.
Proof.
  unfold level_problems.
  destruct (Rules_isLittleCup rules), (truthy_opt_string (sp_prevo species)),
    (negb (nfe species)), (level_above (set_level set) 5),
    (level_above (set_level set) 100); cbn;
    intuition (try discriminate; try congruence).
Qed.

(** C10. A level problem is reported only for a level that is specified and
    not zero: in a Little Cup format exactly when the level is above 5, in
    any other format exactly when it is above 100.  With the level absent or
    zero neither problem is ever in the result. *)
Theorem level_problem_needs_a_level (set : PokemonSet) (format : Format)
    (ps : list Problem) :
  validate set format = Ok ps ->
  (forall p,
      In (LevelAboveFive p) ps
      <-> p = pokemon_of set
          /\ exists rules species n,
               Rules_get format = Some rules
               /\ Species_get (set_species set) (gen format) = Some species
               /\ Rules_isLittleCup rules = true
               /\ set_level set = Some n /\ 5 < n)
  /\ (forall p,
        In (LevelAboveHundred p) ps
        <-> p = pokemon_of set
            /\ exists rules species n,
                 Rules_get format = Some rules
                 /\ Species_get (set_species set) (gen format) = Some species
                 /\ Rules_isLittleCup rules = false
                 /\ set_level set = Some n /\ 100 < n)
  /\ (set_level set = None \/ set_level set = Some 0 ->
      forall p, ~ In (LevelAboveFive p) ps /\ ~ In (LevelAboveHundred p) ps).
Proof.
  intros Hv.
  assert (H5 : forall p,
             In (LevelAboveFive p) ps
             <-> p = pokemon_of set
                 /\ exists rules species n,
                      Rules_get format = Some rules
                      /\ Species_get (set_species set) (gen format)
                         = Some species
                      /\ Rules_isLittleCup rules = true
                      /\ set_level set = Some n /\ 5 < n).
  { intros p.
    destruct (Rules_get format) as [rules|] eqn:Hr.
    - destruct (Species_get (set_species set) (gen format))
        as [species|] eqn:Hs.
      + destruct (validate_In set format rules species Hr Hs ps (LevelAboveFive p) Hv)
          as (g & i & _ & _ & Hin).
        cbn [origin] in Hin. rewrite Hin, LevelAboveFive_in_level_problems.
        rewrite level_above_spec by lia.
        split.
        * intros (Hp & Hlc & n & Hn & Hlt). split; [exact Hp|].
          exists rules, species, n. auto.
        * intros (Hp & rules' & species' & n & Hr' & _ & Hlc & Hn & Hlt).
          inversion Hr'; subst rules'. split; [exact Hp|].
          split; [exact Hlc|]. exists n. auto.
      + rewrite validate_eq, Hr, Hs in Hv. inversion Hv; subst ps.
        split.
        * intros [H|[]]; discriminate.
        * intros (_ & _ & species & _ & _ & H & _); discriminate.
    - rewrite validate_eq, Hr in Hv. inversion Hv; subst ps.
      split.
      + intros [H|[]]; discriminate.
      + intros (_ & rules & _ & _ & H & _); discriminate. }
  assert (H100 : forall p,
             In (LevelAboveHundred p) ps
             <-> p = pokemon_of set
                 /\ exists rules species n,
                      Rules_get format = Some rules
                      /\ Species_get (set_species set) (gen format)
                         = Some species
                      /\ Rules_isLittleCup rules = false
                      /\ set_level set = Some n /\ 100 < n).
  { intros p.
    destruct (Rules_get format) as [rules|] eqn:Hr.
    - destruct (Species_get (set_species set) (gen format))
        as [species|] eqn:Hs.
      + destruct (validate_In set format rules species Hr Hs ps (LevelAboveHundred p) Hv)
          as (g & i & _ & _ & Hin).
        cbn [origin] in Hin. rewrite Hin, LevelAboveHundred_in_level_problems.
        rewrite level_above_spec by lia.
        split.
        * intros (Hp & Hlc & n & Hn & Hlt). split; [exact Hp|].
          exists rules, species, n. auto.
        * intros (Hp & rules' & species' & n & Hr' & _ & Hlc & Hn & Hlt).
          inversion Hr'; subst rules'. split; [exact Hp|].
          split; [exact Hlc|]. exists n. auto.
      + rewrite validate_eq, Hr, Hs in Hv. inversion Hv; subst ps.
        split.
        * intros [H|[]]; discriminate.
        * intros (_ & _ & species & _ & _ & H & _); discriminate.
    - rewrite validate_eq, Hr in Hv. inversion Hv; subst ps.
      split.
      + intros [H|[]]; discriminate.
      + intros (_ & rules & _ & _ & H & _); discriminate. }
  split; [exact H5 | split; [exact H100|]].
  intros Hlevel p. rewrite H5, H100.
  split; intros (_ & _ & _ & n & _ & _ & _ & Hn & Hlt);
    destruct Hlevel as [Hl|Hl]; rewrite Hl in Hn; inversion Hn; lia.
Qed.

End LevelCheck.

(** ** Calls leave no trace *)

Section Idempotence.

Context {data : Data}.

(** C9. What a call returns depends on the set and on the format only,
    whatever an earlier call left in [problems] and [moveTable]: two calls on
    the same set return the same array, or both throw.  A call does not write
    to the set it is given, and a second call, run in the store the first one
    leaves, returns the same array and leaves the same store. *)
Theorem validate_call_idempotent (format : Format) (st : Store) :
  (forall other,
      the_set other = the_set st ->
      returned (validate_call format other)
      = returned (validate_call format st))
  /\ returned (validate_call format st) = validate (the_set st) format
  /\ (forall ps st',
        validate_call format st = Ok (ps, st') ->
        the_set st' = the_set st
        /\ validate_call format st' = Ok (ps, st')).
Proof.
  assert (Hret : forall s,
             returned (validate_call format s) = validate (the_set s) format).
  { intros s. rewrite validate_call_run, validate_eq.
    destruct (Rules_get format) as [rules|]; [|reflexivity].
    destruct (Species_get (set_species (the_set s)) (gen format))
      as [species|]; [|reflexivity].
    destruct (all_problems rules species (the_set s) format); reflexivity. }
  split; [|split].
  - intros other Ho. rewrite !Hret, Ho. reflexivity.
  - apply Hret.
  - intros ps st'. rewrite validate_call_run.
    destruct (Rules_get format) as [rules|] eqn:Hr.
    + destruct (Species_get (set_species (the_set st)) (gen format))
        as [species|] eqn:Hs.
      * destruct (all_problems rules species (the_set st) format)
          as [l|] eqn:Hall; [|discriminate].
        intros H. inversion H; subst ps st'; clear H.
        cbn [the_set problems moveTable]. split; [reflexivity|].
        rewrite validate_call_run, Hr. cbn [the_set problems moveTable].
        rewrite Hs, Hall.
        destruct (negb (Nat.eqb (List.length (set_moves (the_set st))) 0));
          reflexivity.
      * intros H. inversion H; subst ps st'; clear H.
        split; [reflexivity|].
        rewrite validate_call_run, Hr, Hs. reflexivity.
    + intros H. inversion H; subst ps st'; clear H.
      split; [reflexivity|].
      rewrite validate_call_run, Hr. reflexivity.
Qed.

End Idempotence.

(** ** The move table built by the loop *)

Lemma table_has_set t k v x :
  table_has (table_set t k v) x = (k =? x)%string || table_has t x.
Proof.
  induction t as [|[k' v'] rest IH]; cbn.
  - reflexivity.
  - destruct (String.eqb_spec k' k) as [->|Hne]; cbn.
    + destruct (k =? x)%string; reflexivity.
    + rewrite IH.
      destruct (k' =? x)%string, (k =? x)%string; reflexivity.
Qed.

Lemma table_lookup_set t k v x :
  table_lookup (table_set t k v) x = (k =? x)%string || table_lookup t x.
Proof. unfold table_lookup. rewrite table_has_set, orb_assoc. reflexivity. Qed.

(** An id that names no member of [Object.prototype] is found only as an
    own key. *)
Lemma table_lookup_own t k :
  has Object_prototype_members k = false -> table_lookup t k = table_has t k.
Proof. intros H. unfold table_lookup. rewrite H, orb_false_r. reflexivity. Qed.

Lemma keyed_by_id_set t v :
  keyed_by_id t -> keyed_by_id (table_set t (move_id v) v).
Proof.
  unfold keyed_by_id. induction t as [|[k' v'] rest IH]; cbn; intros H.
  - constructor; [reflexivity | constructor].
  - inversion H as [|? ? Hhead Htail]; subst.
    destruct (String.eqb_spec k' (move_id v)) as [->|Hne].
    + constructor; [reflexivity | exact Htail].
    + constructor; [exact Hhead | exact (IH Htail)].
Qed.

(** A test on ids holds of a stored move exactly when it holds of a key. *)
Lemma existsb_values_keys (f : string -> bool) t :
  keyed_by_id t ->
  existsb (fun move => f (move_id move)) (table_values t) = true
  <-> exists id, f id = true /\ table_has t id = true.
Proof.
  unfold keyed_by_id, table_values.
  induction t as [|[k v] rest IH]; cbn; intros H.
  - split; [discriminate | intros (id & _ & Hid); discriminate].
  - inversion H as [|? ? Hhead Htail]; subst. cbn in Hhead.
    rewrite orb_true_iff, (IH Htail). split.
    + intros [Hf|(id & Hf & Hid)].
      * exists k. rewrite <- Hhead, Hf, String.eqb_refl. auto.
      * exists id. rewrite Hf, Hid, orb_true_r. auto.
    + intros (id & Hf & Hid). apply orb_true_iff in Hid.
      destruct Hid as [Hid|Hid].
      * apply String.eqb_eq in Hid. subst id. left. rewrite Hhead. exact Hf.
      * right. exists id. auto.
Qed.

Section MoveTableOfSet.

Context {data : Data}.

Lemma loop_table_keyed g moves :
  forall t, keyed_by_id t -> keyed_by_id (loop_table g t moves).
Proof.
  induction moves as [|m rest IH]; cbn; intros t Ht; [exact Ht|].
  destruct (Moves_get m g) as [move|]; apply IH;
    [apply keyed_by_id_set|]; exact Ht.
Qed.

Lemma loop_table_has g moves x :
  forall t,
    table_has (loop_table g t moves) x = true
    <-> table_has t x = true
        \/ exists m move,
             In m moves /\ Moves_get m g = Some move /\ move_id move = x.
Proof.
  induction moves as [|m rest IH]; cbn; intros t.
  - split; [auto | intros [H|(m & move & [] & _)]; exact H].
  - destruct (Moves_get m g) as [move|] eqn:Hm; rewrite IH.
    + rewrite table_has_set, orb_true_iff, String.eqb_eq. split.
      * intros [[Hid|Ht]|(m' & move' & Hin & Hget & Hid)].
        -- right. exists m, move. auto.
        -- left. exact Ht.
        -- right. exists m', move'. auto.
      * intros [Ht|(m' & move' & [Heq|Hin] & Hget & Hid)].
        -- left. right. exact Ht.
        -- subst m'. rewrite Hm in Hget. inversion Hget; subst move'.
           left. left. exact Hid.
        -- right. exists m', move'. auto.
    + split.
      * intros [Ht|(m' & move' & Hin & Hget & Hid)];
          [left; exact Ht | right; exists m', move'; auto].
      * intros [Ht|(m' & move' & [Heq|Hin] & Hget & Hid)].
        -- left. exact Ht.
        -- subst m'. rewrite Hm in Hget. discriminate.
        -- right. exists m', move'. auto.
Qed.

Lemma moveTable_of_keyed set format : keyed_by_id (moveTable_of set format).
Proof. apply loop_table_keyed. constructor. Qed.

Lemma moveTable_of_has set format x :
  table_has (moveTable_of set format) x = true
  <-> exists m move,
        In m (set_moves set) /\ Moves_get m (gen format) = Some move
        /\ move_id move = x.
Proof.
  unfold moveTable_of. rewrite loop_table_has. cbn.
  split; [intros [H|H]; [discriminate | exact H] | auto].
Qed.

(** The table holds a move with an id in [ids] exactly when an entry of
    [set.moves] resolves into [ids]. *)
Lemma moveTable_of_resolves set format ids :
  existsb (fun move => has ids (move_id move))
    (table_values (moveTable_of set format)) = true
  <-> resolves_into (gen format) (set_moves set) ids.
Proof.
  rewrite (existsb_values_keys (has ids)) by apply moveTable_of_keyed.
  unfold resolves_into. split.
  - intros (id & Hids & Hhas). apply moveTable_of_has in Hhas.
    destruct Hhas as (m & move & Hin & Hget & Hid).
    exists m, move. subst id. auto.
  - intros (m & move & Hin & Hget & Hids).
    exists (move_id move). split; [exact Hids|].
    apply moveTable_of_has. exists m, move. auto.
Qed.

(** What the loop pushes: unresolved, duplicated and clause-banned moves. *)
Lemma loop_problems_kinds rules pokemon g moves :
  forall table,
    Forall (fun p =>
              match p with
              | InvalidMove _ _ | DuplicateMove _ _ | BannedByOHKO _
              | BannedByEvasionMoves _ | BannedBySwagger _ => True
              | _ => False
              end)
      (loop_problems rules pokemon g table moves).
Proof.
  induction moves as [|m rest IH]; intros table; cbn; [constructor|].
  destruct (Moves_get m g) as [move|].
  - unfold duplicate_problems, clause_problems.
    repeat (apply Forall_app; split); try apply IH;
      repeat match goal with
             | |- Forall _ (if ?b then _ else _) => destruct b
             end;
      repeat constructor.
  - constructor; [exact I | apply IH].
Qed.

End MoveTableOfSet.

(** ** Sleep and trap in generation 2 *)

Lemma sleep_is_not_trap id :
  has SLEEP_MOVES id = true -> has TRAP_MOVES id = false.
Proof.
  unfold has, SLEEP_MOVES, TRAP_MOVES. cbn [existsb].
  rewrite !orb_true_iff, !String.eqb_eq.
  intros [H|[H|[H|[H|[H|H]]]]]; try discriminate; subst id; reflexivity.
Qed.

Lemma sleepTrap_fold moves :
  forall sleep trap,
    fold_left sleepTrap_step moves (sleep, trap)
    = (sleep || existsb (fun move => has SLEEP_MOVES (move_id move)) moves,
       trap || existsb (fun move => has TRAP_MOVES (move_id move)) moves).
Proof.
  induction moves as [|move rest IH]; intros sleep trap; cbn [fold_left existsb].
  - rewrite !orb_false_r. reflexivity.
  - unfold sleepTrap_step at 2.
    destruct (has SLEEP_MOVES (move_id move)) eqn:Hs.
    + rewrite IH, (sleep_is_not_trap _ Hs). cbn.
      rewrite orb_true_r. reflexivity.
    + destruct (has TRAP_MOVES (move_id move)); rewrite IH; cbn;
        rewrite ?orb_true_r; reflexivity.
Qed.

Lemma checkSleepTrap_spec moves :
  checkSleepTrap moves
  = existsb (fun move => has SLEEP_MOVES (move_id move)) (table_values moves)
    && existsb (fun move => has TRAP_MOVES (move_id move)) (table_values moves).
Proof. unfold checkSleepTrap. rewrite sleepTrap_fold. reflexivity. Qed.

Section SleepTrapCheck.

Context {data : Data}.

Lemma SleepTrap_in_moves_problems p g rules pokemon set format :
  In (SleepTrap p g) (moves_problems rules pokemon set format)
  <-> p = pokemon /\ g = gen format /\ gen format = 2
      /\ checkSleepTrap (moveTable_of set format) = true.
Proof.
  unfold moves_problems, sleepTrap_problems, batonPass_problems.
  pose proof (loop_problems_kinds rules pokemon (gen format) (set_moves set) [])
    as Hloop.
  rewrite Forall_forall in Hloop.
  destruct (negb (Nat.eqb (List.length (set_moves set)) 0)) eqn:Hlen.
  - rewrite !in_app_iff. split.
    + intros [H|[H|[H|H]]].
      * destruct (Nat.ltb 4 (List.length (set_moves set)));
          [destruct H as [H|[]]; discriminate | destruct H].
      * destruct (Hloop _ H).
      * destruct (Z.eqb_spec (gen format) 2) as [Hg|Hg]; [|destruct H].
        destruct (checkSleepTrap (moveTable_of set format)); [|destruct H].
        destruct H as [H|[]]. inversion H; subst. auto.
      * repeat match type of H with
               | In _ (if ?b then _ else _) => destruct b
               end;
          try destruct H as [H|[]]; try discriminate; destruct H.
    + intros (Hp & Hg & Hgen & Hcheck). right. right. left.
      rewrite Hcheck. subst p g. rewrite Hgen. cbn. auto.
  - split.
    + intros [H|[]]; discriminate.
    + intros (_ & _ & _ & Hcheck).
      apply negb_false_iff, Nat.eqb_eq, length_zero_iff_nil in Hlen.
      unfold moveTable_of in Hcheck. rewrite Hlen in Hcheck. discriminate.
Qed.

(** C5. Once the format and the species are resolved the call returns, and
    the sleep-trap problem is in what it returns exactly when the generation
    is 2, some entry of [set.moves] resolves to a move with its id among
    hypnosis, lovelykiss, sing, sleeppowder and spore, and some entry resolves
    to a move with its id among meanlook and spiderweb.  So a sleep move
    without a trap move, or a trap move without a sleep move, does not raise
    it, and no generation other than 2 does. *)
Theorem sleep_trap_reported_iff (set : PokemonSet) (format : Format)
    (rules : RuleSet) (species : Species) :
  Rules_get format = Some rules ->
  Species_get (set_species set) (gen format) = Some species ->
  assertions_hold set format species = true ->
  exists ps,
    validate set format = Ok ps
    /\ (forall p g,
          In (SleepTrap p g) ps
          <-> p = pokemon_of set /\ g = gen format /\ gen format = 2
              /\ resolves_into (gen format) (set_moves set) SLEEP_MOVES
              /\ resolves_into (gen format) (set_moves set) TRAP_MOVES)
    /\ (~ resolves_into (gen format) (set_moves set) SLEEP_MOVES
        \/ ~ resolves_into (gen format) (set_moves set) TRAP_MOVES
        \/ gen format <> 2 ->
        forall p g, ~ In (SleepTrap p g) ps).
Proof.
  intros Hr Hs Ha.
  destruct (validate_returns set format rules species Hr Hs Ha)
    as (og & oi & _ & _ & Hv).
  eexists. split; [exact Hv|].
  assert (Hiff : forall p g,
             In (SleepTrap p g)
               (tier_problems (pokemon_of set) species
                ++ level_problems rules (pokemon_of set) set species
                ++ moves_problems rules (pokemon_of set) set format
                ++ og ++ evs_problems (pokemon_of set) set format
                ++ oi ++ nature_problems (pokemon_of set) set format
                ++ ability_problems rules (pokemon_of set) set format
                ++ item_problems (pokemon_of set) set format species)
             <-> p = pokemon_of set /\ g = gen format /\ gen format = 2
                 /\ resolves_into (gen format) (set_moves set) SLEEP_MOVES
                 /\ resolves_into (gen format) (set_moves set) TRAP_MOVES).
  { intros p g.
    destruct (validate_In set format rules species Hr Hs _ (SleepTrap p g) Hv)
      as (og' & oi' & _ & _ & Hin).
    cbn [origin] in Hin. rewrite Hin, SleepTrap_in_moves_problems.
    rewrite checkSleepTrap_spec, andb_true_iff, !moveTable_of_resolves.
    tauto. }
  split; [exact Hiff|].
  intros Hnot p g Hin. apply Hiff in Hin. tauto.
Qed.

End SleepTrapCheck.

(** ** Duplicate moves *)

Lemma filter_none (f : Problem -> bool) l :
  Forall (fun p => f p = false) l -> filter f l = [].
Proof.
  induction 1 as [|p l Hp _ IH]; cbn; [reflexivity|].
  rewrite Hp. exact IH.
Qed.

Lemma filter_from (f : Problem -> bool) c l :
  from c l -> (forall p, origin p = c -> f p = false) -> filter f l = [].
Proof.
  intros Hl Hf. apply filter_none. unfold from in Hl.
  rewrite Forall_forall in *. auto.
Qed.

Section Duplicates.

Context {data : Data}.

Lemma filter_duplicate_clause id rules move :
  filter (is_duplicate_of id) (clause_problems rules move) = [].
Proof. unfold clause_problems. split_ifs; reflexivity. Qed.

Lemma filter_clause_clause rules move :
  filter is_clause_ban (clause_problems rules move) = clause_problems rules move.
Proof. unfold clause_problems. split_ifs; reflexivity. Qed.

Lemma filter_clause_duplicate pokemon table move :
  filter is_clause_ban (duplicate_problems pokemon table move) = [].
Proof. unfold duplicate_problems. split_ifs; reflexivity. Qed.

Lemma loop_duplicates rules pokemon g id moves :
  forall table,
    List.length (filter (is_duplicate_of id)
                   (loop_problems rules pokemon g table moves))
    = if table_lookup table id then occurrences g moves id
      else Nat.pred (occurrences g moves id).
Proof.
  unfold occurrences.
  induction moves as [|m rest IH]; intros table; cbn [loop_problems filter].
  - destruct (table_lookup table id); reflexivity.
  - destruct (Moves_get m g) as [move|] eqn:Hm.
    + rewrite !filter_app, filter_duplicate_clause, !length_app, IH.
      rewrite table_lookup_set. unfold duplicate_problems. cbn [List.length].
      destruct (String.eqb_spec (move_id move) id) as [Heq|Hne].
      * rewrite Heq. cbn [orb].
        destruct (table_lookup table id); cbn;
          rewrite ?Heq, ?String.eqb_refl; cbn; reflexivity.
      * cbn [orb].
        assert (Hdup : filter (is_duplicate_of id)
                         (if table_lookup table (move_id move)
                          then [DuplicateMove pokemon move] else []) = []).
        { destruct (table_lookup table (move_id move)); cbn; [|reflexivity].
          apply String.eqb_neq in Hne. rewrite Hne. reflexivity. }
        rewrite Hdup. reflexivity.
    + cbn [is_duplicate_of]. apply IH.
Qed.

Lemma loop_clause_bans rules pokemon g moves :
  forall table,
    filter is_clause_ban (loop_problems rules pokemon g table moves)
    = clause_bans rules g moves.
Proof.
  unfold clause_bans.
  induction moves as [|m rest IH]; intros table; cbn [loop_problems flat_map].
  - reflexivity.
  - destruct (Moves_get m g) as [move|].
    + rewrite !filter_app, filter_clause_duplicate, filter_clause_clause, IH.
      reflexivity.
    + cbn. apply IH.
Qed.

(** Only the loop over the moves raises duplicate and clause problems. *)
Lemma filter_moves_problems (f : Problem -> bool) rules pokemon set format :
  (forall p, f (MoreThanFourMoves p) = false) ->
  (forall p g, f (SleepTrap p g) = false) ->
  (forall p, f (BatonPassBan p) = false) ->
  (forall p, f (NoMoves p) = false) ->
  filter f (moves_problems rules pokemon set format)
  = filter f (loop_problems rules pokemon (gen format) [] (set_moves set)).
Proof.
  intros Hmore Hsleep Hbaton Hnone.
  unfold moves_problems, sleepTrap_problems, batonPass_problems.
  destruct (set_moves set) as [|m rest]; cbn [List.length Nat.eqb negb].
  - cbn. rewrite Hnone. reflexivity.
  - rewrite !filter_app.
    assert (H1 : filter f (if Nat.ltb 4 (S (List.length rest))
                           then [MoreThanFourMoves pokemon] else []) = []).
    { destruct (Nat.ltb 4 (S (List.length rest))); cbn;
        rewrite ?Hmore; reflexivity. }
    rewrite H1. cbn [app].
    repeat match goal with
           | |- context [filter f (if ?b then _ else _)] => destruct b
           end;
      cbn [filter]; rewrite ?Hsleep, ?Hbaton, ?app_nil_r; reflexivity.
Qed.

Lemma filter_all_from_moves (f : Problem -> bool) t l m g e i n a it :
  from Tier t -> from Level l -> from Gender g -> from EVs e -> from IVs i ->
  from NatureCheck n -> from Ability a -> from ItemCheck it ->
  (forall p, origin p <> Moves -> f p = false) ->
  filter f (t ++ l ++ m ++ g ++ e ++ i ++ n ++ a ++ it) = filter f m.
Proof.
  intros Ht Hl Hg He Hi Hn Ha Hit Hf.
  rewrite !filter_app.
  rewrite (filter_from f Tier t), (filter_from f Level l),
    (filter_from f Gender g), (filter_from f EVs e), (filter_from f IVs i),
    (filter_from f NatureCheck n), (filter_from f Ability a),
    (filter_from f ItemCheck it);
    try assumption;
    try (intros p Hp; apply Hf; rewrite Hp; discriminate).
  cbn. rewrite app_nil_r. reflexivity.
Qed.

(** The duplicate and clause problems of a whole run.  The table starts
    empty, so the first entry of an id is a duplicate exactly when the id
    names a member of [Object.prototype]. *)
Lemma validate_duplicates (set : PokemonSet) (format : Format)
    (rules : RuleSet) (species : Species) :
  Rules_get format = Some rules ->
  Species_get (set_species set) (gen format) = Some species ->
  assertions_hold set format species = true ->
  exists ps,
    validate set format = Ok ps
    /\ (forall id,
          List.length (filter (is_duplicate_of id) ps)
          = if has Object_prototype_members id
            then occurrences (gen format) (set_moves set) id
            else Nat.pred (occurrences (gen format) (set_moves set) id))
    /\ filter is_clause_ban ps
       = clause_bans rules (gen format) (set_moves set).
Proof.
  intros Hr Hs Ha.
  destruct (validate_returns set format rules species Hr Hs Ha)
    as (og & oi & Hg & Hi & Hv).
  eexists. split; [exact Hv|].
  split.
  - intros id.
    rewrite filter_all_from_moves;
      eauto using from_tier, from_level, from_gender, from_evs, from_ivs,
        from_nature, from_ability, from_item.
    + rewrite filter_moves_problems by reflexivity.
      rewrite loop_duplicates. reflexivity.
    + intros [] Hp; try reflexivity; cbn in Hp; congruence.
  - rewrite filter_all_from_moves;
      eauto using from_tier, from_level, from_gender, from_evs, from_ivs,
        from_nature, from_ability, from_item.
    + rewrite filter_moves_problems by reflexivity.
      apply loop_clause_bans.
    + intros [] Hp; try reflexivity; cbn in Hp; congruence.
Qed.

(** C4. For every move id that names no member of [Object.prototype], the
    result holds one duplicate-move problem for each entry of [set.moves]
    that resolves to that id, the first such entry excepted: [n] entries give
    [n - 1] problems.  Every entry that resolves, whether or not it repeats an
    earlier one, goes through the clause checks: the clause problems of the
    result are those of the entries, in order. *)
Theorem duplicates_reported_once_per_repeat (set : PokemonSet)
    (format : Format) (rules : RuleSet) (species : Species) :
  Rules_get format = Some rules ->
  Species_get (set_species set) (gen format) = Some species ->
  assertions_hold set format species = true ->
  exists ps,
    validate set format = Ok ps
    /\ (forall id,
          has Object_prototype_members id = false ->
          List.length (filter (is_duplicate_of id) ps)
          = Nat.pred (occurrences (gen format) (set_moves set) id))
    /\ filter is_clause_ban ps
       = clause_bans rules (gen format) (set_moves set).
Proof.
  intros Hr Hs Ha.
  destruct (validate_duplicates set format rules species Hr Hs Ha)
    as (ps & Hv & Hdup & Hclause).
  exists ps. split; [exact Hv|]. split; [|exact Hclause].
  intros id Hid. rewrite Hdup, Hid. reflexivity.
Qed.

(** The lookup [moveTable[move.id]] of an id that names a member of
    [Object.prototype] finds that member before any move is stored: each
    entry resolving to such an id is reported, the first one included. *)
Remark inherited_member_always_duplicate (set : PokemonSet)
    (format : Format) (rules : RuleSet) (species : Species) (id : string) :
  Rules_get format = Some rules ->
  Species_get (set_species set) (gen format) = Some species ->
  assertions_hold set format species = true ->
  has Object_prototype_members id = true ->
  exists ps,
    validate set format = Ok ps
    /\ List.length (filter (is_duplicate_of id) ps)
       = occurrences (gen format) (set_moves set) id.
Proof.
  intros Hr Hs Ha Hid.
  destruct (validate_duplicates set format rules species Hr Hs Ha)
    as (ps & Hv & Hdup & _).
  exists ps. split; [exact Hv|].
  rewrite Hdup, Hid. reflexivity.
Qed.

End Duplicates.

(** ** Gender *)

Lemma expectedGender_by_spec ratio atkDV :
  expectedGender ratio atkDV = gender_by_spec ratio atkDV.
Proof.
  unfold expectedGender, gender_by_spec, threshold_by_spec.
  destruct (Qeq_bool (ratio_F ratio * 16) 4) eqn:H4; [reflexivity|].
  reflexivity.
Qed.

Section GenderCheck.

Context {data : Data}.

(** Mismatches are reported.  For a set that specifies a gender the call
    returns, and: when the species has a fixed gender other than the declared
    one, the wrong-gender problem is in the result; in generation 2, when the
    declared gender is not the one the Atk DV gives under the rule of the
    specification, the problem naming the Atk DV is in the result; and that
    second problem is raised in generation 2 only.  The converse fails: the
    two checks are not alternatives. *)
Lemma gender_mismatch_reported (set : PokemonSet) (format : Format)
    (rules : RuleSet) (species : Species) (gender : string) :
  Rules_get format = Some rules ->
  Species_get (set_species set) (gen format) = Some species ->
  assertions_hold set format species = true ->
  set_gender set = Some gender ->
  gender <> "" ->
  exists ps,
    validate set format = Ok ps
    /\ (forall fixed,
          sp_gender species = Some fixed ->
          gender <> fixed ->
          In (WrongGender (pokemon_of set) gender (Some fixed)) ps)
    /\ (forall ratio,
          gen format = 2 ->
          sp_genderRatio species = Some ratio ->
          gender <> gender_by_spec ratio (Stats_itod (atk (set_ivs set))) ->
          In (GenderAgainstDV (pokemon_of set) gender
                (Stats_itod (atk (set_ivs set)))
                (gender_by_spec ratio (Stats_itod (atk (set_ivs set))))) ps)
    /\ (gen format <> 2 ->
        forall p declared dv expected,
          ~ In (GenderAgainstDV p declared dv expected) ps).
Proof.
  intros Hr Hs Ha Hgender Hne.
  destruct (validate_by_check set format rules species Hr Hs Ha)
    as (ps & og & oi & Hv & Hg & _ & Hin).
  exists ps. split; [exact Hv|].
  assert (Htruthy : truthy_string gender = true).
  { unfold truthy_string. apply negb_true_iff, String.eqb_neq. exact Hne. }
  unfold gender_problems in Hg. rewrite Hgender, Htruthy in Hg.
  split; [|split].
  - intros fixed Hfixed Hmis. apply Hin. cbn [origin].
    assert (Hfix : In (WrongGender (pokemon_of set) gender (Some fixed))
                     (fixed_gender_problems (pokemon_of set) gender species)).
    { unfold fixed_gender_problems. rewrite Hfixed. cbn.
      apply String.eqb_neq in Hmis. rewrite Hmis. cbn. auto. }
    destruct (gen format =? 2).
    + destruct (sp_genderRatio species); [|discriminate].
      inversion Hg; subst og. apply in_or_app. left. exact Hfix.
    + inversion Hg; subst og. exact Hfix.
  - intros ratio Hgen Hratio Hmis. apply Hin. cbn [origin].
    rewrite Hgen, Hratio in Hg. cbn in Hg. inversion Hg; subst og.
    apply in_or_app. right. unfold dv_gender_problems.
    rewrite expectedGender_by_spec.
    apply String.eqb_neq in Hmis. rewrite Hmis. cbn. auto.
  - intros Hgen p declared dv expected H.
    apply Hin in H. cbn [origin] in H.
    apply Z.eqb_neq in Hgen. rewrite Hgen in Hg. inversion Hg; subst og.
    unfold fixed_gender_problems in H.
    destruct (negb _); [destruct H as [H|[]]; discriminate | destruct H].
Qed.

(** The comparison with the fixed gender is made whether or not the species
    has one: for a species without a fixed gender every declared gender is
    reported, in every generation. *)
Remark wrong_gender_without_fixed_gender (set : PokemonSet) (format : Format)
    (rules : RuleSet) (species : Species) (gender : string) :
  Rules_get format = Some rules ->
  Species_get (set_species set) (gen format) = Some species ->
  assertions_hold set format species = true ->
  set_gender set = Some gender ->
  gender <> "" ->
  sp_gender species = None ->
  exists ps,
    validate set format = Ok ps
    /\ In (WrongGender (pokemon_of set) gender None) ps.
Proof.
  intros Hr Hs Ha Hgender Hne Hnone.
  destruct (validate_by_check set format rules species Hr Hs Ha)
    as (ps & og & oi & Hv & Hg & _ & Hin).
  exists ps. split; [exact Hv|].
  apply Hin. cbn [origin].
  unfold gender_problems in Hg. rewrite Hgender in Hg.
  unfold truthy_string in Hg. apply String.eqb_neq in Hne.
  rewrite Hne in Hg. cbn [negb] in Hg.
  assert (Hfix : In (WrongGender (pokemon_of set) gender None)
                   (fixed_gender_problems (pokemon_of set) gender species)).
  { unfold fixed_gender_problems. rewrite Hnone. cbn. auto. }
  destruct (gen format =? 2).
  - destruct (sp_genderRatio species); [|discriminate].
    inversion Hg; subst og. apply in_or_app. left. exact Hfix.
  - inversion Hg; subst og. exact Hfix.
Qed.

End GenderCheck.

(** ** IVs and DVs before generation 3 *)

Lemma expectedShiny_spec dvs :
  expectedShiny dvs = true
  <-> def dvs = 10 /\ spe dvs = 10 /\ spa dvs = 10 /\ 2 <= Z.rem (atk dvs) 4.
Proof.
  unfold expectedShiny.
  rewrite !andb_true_iff, !Z.eqb_eq, Z.geb_le. tauto.
Qed.

Section OldGenerations.

Context {data : Data}.

(** C7. In a format of a generation below 3 the call returns, and: the
    problem on the special IVs is in the result exactly when the SpA and SpD
    IVs differ; in generation 2 the HP DV problem is in the result exactly
    when the HP DV of the set differs from the HP DV computed from its other
    DVs, and the shiny problem exactly when the shiny flag of the set differs
    from the shininess its DVs give (Def, Spe and SpA DVs equal to 10 and Atk
    DV with a remainder of at least 2 modulo 4). *)
Theorem old_generation_ivs_checked (set : PokemonSet) (format : Format)
    (rules : RuleSet) (species : Species) :
  Rules_get format = Some rules ->
  Species_get (set_species set) (gen format) = Some species ->
  assertions_hold set format species = true ->
  gen format < 3 ->
  let ivs := set_ivs set in
  let dvs := Stats_istods ivs in
  let shiny := truthy_opt_bool (set_shiny set) in
  let shiny_dvs :=
    def dvs = 10 /\ spe dvs = 10 /\ spa dvs = 10 /\ 2 <= Z.rem (atk dvs) 4 in
  exists ps,
    validate set format = Ok ps
    /\ (In (IVsDiffer (pokemon_of set) (spa ivs) (spd ivs)) ps
        <-> spa ivs <> spd ivs)
    /\ (gen format = 2 ->
        (In (WrongHPDV (pokemon_of set) (hp dvs) (Stats_getHPDV ivs)) ps
         <-> hp dvs <> Stats_getHPDV ivs)
        /\ (In (WrongShiny (pokemon_of set) shiny) ps
            <-> (shiny_dvs /\ shiny = false) \/ (~ shiny_dvs /\ shiny = true))).
Proof.
  intros Hr Hs Ha Hlt ivs dvs shiny shiny_dvs.
  destruct (validate_by_check set format rules species Hr Hs Ha)
    as (ps & og & oi & Hv & _ & Hi & Hin).
  exists ps. split; [exact Hv|].
  unfold ivs_problems in Hi.
  assert (H6 : (gen format >=? 6) = false).
  { destruct (gen format >=? 6) eqn:E; [|reflexivity].
    apply Z.geb_le in E. lia. }
  assert (H3 : (gen format <? 3) = true) by (apply Z.ltb_lt; exact Hlt).
  rewrite H6, H3 in Hi. inversion Hi; subst oi; clear Hi.
  fold ivs in Hin |- *.
  split.
  - rewrite Hin. cbn [origin]. rewrite in_app_iff.
    destruct (Z.eqb_spec (spa ivs) (spd ivs)) as [Heq|Hne]; cbn [negb].
    + split; [|tauto].
      intros [[]|H].
      destruct (gen format =? 2); [|destruct H].
      unfold dv_problems in H. apply in_app_or in H.
      destruct H as [H|H];
        match type of H with
        | In _ (if ?b then _ else _) => destruct b
        end;
        try destruct H as [H|[]]; try discriminate; destruct H.
    + split; [tauto|]. intros _. left. left. reflexivity.
  - intros Hgen. apply Z.eqb_eq in Hgen.
    assert (Hin' : forall p,
               origin p = IVs ->
               In p ps
               <-> In p ((if negb (spa ivs =? spd ivs)
                          then [IVsDiffer (pokemon_of set) (spa ivs) (spd ivs)]
                          else [])
                         ++ (if negb (hp dvs =? Stats_getHPDV ivs)
                             then [WrongHPDV (pokemon_of set) (hp dvs)
                                     (Stats_getHPDV ivs)]
                             else [])
                         ++ (if (expectedShiny dvs && negb shiny)
                                || (negb (expectedShiny dvs) && shiny)
                             then [WrongShiny (pokemon_of set) shiny]
                             else []))).
    { intros p Hp. rewrite Hin, Hp, Hgen. reflexivity. }
    clear Hin.
    split.
    + rewrite Hin' by reflexivity. rewrite !in_app_iff.
      destruct (Z.eqb_spec (hp dvs) (Stats_getHPDV ivs)) as [Heq|Hne];
        cbn [negb].
      * split; [|tauto].
        intros [H|[[]|H]].
        -- destruct (negb (spa ivs =? spd ivs));
             [destruct H as [H|[]]; discriminate | destruct H].
        -- destruct (_ || _); [destruct H as [H|[]]; discriminate | destruct H].
      * split; [tauto|]. intros _. right. left. left. reflexivity.
    + rewrite Hin' by reflexivity. rewrite !in_app_iff.
      pose proof (expectedShiny_spec dvs) as Hspec. fold shiny_dvs in Hspec.
      destruct (expectedShiny dvs) eqn:Hexp, shiny eqn:Hshiny; cbn.
      * split; [|intros [[_ H]|[H _]];
                 [discriminate | exfalso; apply H, Hspec; reflexivity]].
        intros [H|[H|[]]].
        -- destruct (negb (spa ivs =? spd ivs));
             [destruct H as [H|[]]; discriminate | destruct H].
        -- destruct (negb (hp dvs =? Stats_getHPDV ivs));
             [destruct H as [H|[]]; discriminate | destruct H].
      * split; [|intros _; right; right; left; reflexivity].
        intros _. left. split; [apply Hspec; reflexivity | reflexivity].
      * split; [|intros _; right; right; left; reflexivity].
        intros _. right. split; [|reflexivity].
        intros H. apply Hspec in H. discriminate.
      * split; [|intros [[H _]|[_ H]];
                 [apply Hspec in H; discriminate | discriminate]].
        intros [H|[H|[]]].
        -- destruct (negb (spa ivs =? spd ivs));
             [destruct H as [H|[]]; discriminate | destruct H].
        -- destruct (negb (hp dvs =? Stats_getHPDV ivs));
             [destruct H as [H|[]]; discriminate | destruct H].
Qed.

End OldGenerations.

(** ** The IV floor of legendaries *)

Lemma opt_string_eqb_eq a b : opt_string_eqb a b = true <-> a = b.
Proof.
  destruct a as [x|], b as [y|]; cbn.
  - rewrite String.eqb_eq. split; [intros ->; reflexivity | congruence].
  - split; discriminate.
  - split; discriminate.
  - tauto.
Qed.

Lemma perfect_ivs_count ivs : perfect_ivs ivs = Z.of_nat (perfect_count ivs).
Proof.
  unfold perfect_ivs, perfect_count.
  assert (H : forall l acc,
             fold_left (fun perfect iv => if iv >=? 31 then perfect + 1
                                          else perfect) l acc
             = acc + Z.of_nat (List.length (filter (fun iv => 31 <=? iv) l))).
  { induction l as [|iv l IH]; intros acc; cbn [fold_left filter List.length].
    - lia.
    - rewrite IH, Z.geb_leb. destruct (31 <=? iv); cbn [List.length]; lia. }
  rewrite H. lia.
Qed.

Section Legendaries.

Context {data : Data}.

Lemma isLegendary_by_spec s groups shiny :
  sp_eggGroups s = Some groups ->
  exists b,
    isLegendary s shiny = Ok b /\ (b = true <-> legendary_by_spec s groups shiny).
Proof.
  intros Hgroups. unfold isLegendary. rewrite Hgroups.
  eexists. split; [reflexivity|].
  unfold legendary_by_spec, legendary_species.
  rewrite !andb_true_iff, !orb_true_iff, !negb_true_iff, opt_string_eqb_eq,
    String.eqb_eq, !String.eqb_neq.
  tauto.
Qed.

(** C8. In a format of generation 6 or later the call returns, and the
    problem on the perfect IVs is in the result exactly when the species is a
    legendary in the sense of the specification and fewer than three of the
    six IVs are 31 or more.  A shiny set whose base species is Diancie never
    gets the problem; the same set when not shiny gets it as soon as the
    other conditions hold. *)
Theorem legendary_needs_three_perfect_ivs (set : PokemonSet) (format : Format)
    (rules : RuleSet) (species : Species) (groups : list string) :
  Rules_get format = Some rules ->
  Species_get (set_species set) (gen format) = Some species ->
  sp_eggGroups species = Some groups ->
  6 <= gen format ->
  exists ps,
    validate set format = Ok ps
    /\ (In (LegendaryIVs (pokemon_of set) (gen format)) ps
        <-> legendary_by_spec species groups (set_shiny set)
            /\ (perfect_count (set_ivs set) < 3)%nat)
    /\ (sp_baseSpecies species = "Diancie" ->
        truthy_opt_bool (set_shiny set) = true ->
        forall p g, ~ In (LegendaryIVs p g) ps)
    /\ (sp_baseSpecies species = "Diancie" ->
        truthy_opt_bool (set_shiny set) = false ->
        legendary_species species groups ->
        (perfect_count (set_ivs set) < 3)%nat ->
        In (LegendaryIVs (pokemon_of set) (gen format)) ps).
Proof.
  intros Hr Hs Hgroups Hgen.
  assert (H6 : (gen format >=? 6) = true) by (apply Z.geb_le; exact Hgen).
  assert (Ha : assertions_hold set format species = true).
  { unfold assertions_hold. rewrite H6, Hgroups.
    destruct (Z.eqb_spec (gen format) 2) as [E|E]; [lia | reflexivity]. }
  destruct (validate_by_check set format rules species Hr Hs Ha)
    as (ps & og & oi & Hv & _ & Hi & Hin).
  exists ps. split; [exact Hv|].
  destruct (isLegendary_by_spec species groups (set_shiny set) Hgroups)
    as (b & Hb & Hspec).
  unfold ivs_problems in Hi. rewrite H6, Hb in Hi.
  inversion Hi; subst oi; clear Hi.
  assert (Hperfect : (perfect_ivs (set_ivs set) <? 3) = true
                     <-> (perfect_count (set_ivs set) < 3)%nat).
  { rewrite perfect_ivs_count, Z.ltb_lt. lia. }
  assert (Hiff : forall p g,
             In (LegendaryIVs p g) ps
             <-> p = pokemon_of set /\ g = gen format
                 /\ legendary_by_spec species groups (set_shiny set)
                 /\ (perfect_count (set_ivs set) < 3)%nat).
  { intros p g. rewrite Hin. cbn [origin].
    rewrite <- Hspec, <- Hperfect.
    destruct b, (perfect_ivs (set_ivs set) <? 3); cbn;
      intuition (try discriminate; try congruence). }
  split; [|split].
  - rewrite Hiff. tauto.
  - intros Hbase Hshiny p g H. apply Hiff in H.
    destruct H as (_ & _ & (_ & [Hd|Hd]) & _);
      [contradiction | congruence].
  - intros Hbase Hshiny Hleg Hcount. apply Hiff.
    repeat split; try assumption; try apply Hleg.
    right. exact Hshiny.
Qed.

End Legendaries.

(** ** Baton Pass *)

Section BatonPass.

Context {data : Data}.

Lemma batonPass_step_eq item s n move :
  batonPass_step item (s, n) move
  = let s1 := if boosts_speed_itself move then Flag true else s in
    let n1 := if boosts_other_itself move then Flag true else n in
    let s2 := if z_boosts_speed item move && negb (truthy s1)
              then Name (move_name move) else s1 in
    let n2 := if z_boosts_other item move
                 && (negb (truthy n1) || name_is (move_name move) s2)
              then Name (move_name move) else n1 in
    (s2, n2).
Proof.
  unfold batonPass_step, boosts_speed_itself, boosts_other_itself,
    z_boosts_speed, z_boosts_other.
  cbv zeta.
  destruct (z_crystal_for item move),
    (boosts_speed (move_zMoveBoosts move)),
    (boosts_other (move_zMoveBoosts move)); cbn [andb];
    repeat match goal with
           | |- context [if ?b then _ else _] => destruct b
           end; reflexivity.
Qed.

Lemma truthy_name s : s <> "" -> truthy (Name s) = true.
Proof.
  intros H. cbn. unfold truthy_string.
  apply negb_true_iff, String.eqb_neq. exact H.
Qed.

(** A variable is truthy after the loop when it was before, or when the
    loop met a source of the boost. *)
Lemma batonPass_fold_truthy item moves :
  (forall move, In move moves -> move_name move <> "") ->
  forall s n,
    truthy (fst (fold_left (batonPass_step item) moves (s, n)))
    = truthy s
      || existsb (fun move => boosts_speed_itself move || z_boosts_speed item move)
           moves
    /\ truthy (snd (fold_left (batonPass_step item) moves (s, n)))
       = truthy n
         || existsb (fun move => boosts_other_itself move
                                 || z_boosts_other item move) moves.
Proof.
  induction moves as [|move rest IH]; intros Hnames s n;
    cbn [fold_left existsb].
  - rewrite !orb_false_r. auto.
  - rewrite batonPass_step_eq. cbv zeta.
    assert (Hname : truthy (Name (move_name move)) = true).
    { apply truthy_name, Hnames. left. reflexivity. }
    cbn [truthy] in Hname.
    match goal with
    | |- context [fold_left _ rest (?a, ?b)] =>
        destruct (IH (fun m H => Hnames m (or_intror H)) a b) as [Hs Hn];
        rewrite Hs, Hn; clear Hs Hn
    end.
    split.
    + destruct (boosts_speed_itself move), (z_boosts_speed item move),
        (truthy s) eqn:Ht; cbn [andb orb negb truthy];
        rewrite ?Ht, ?Hname; reflexivity.
    + destruct (boosts_other_itself move), (z_boosts_other item move),
        (truthy n) eqn:Ht; cbn [andb orb negb truthy];
        repeat match goal with
               | |- context [if ?b then _ else _] => destruct b
               end;
        cbn [truthy]; rewrite ?Ht, ?Hname, ?orb_true_r; reflexivity.
Qed.

(** A variable that holds a name after the loop held it before, or it holds
    the name of a move the loop met whose Z-move gives the boost. *)
Lemma batonPass_fold_names item moves :
  forall s n,
    (forall a,
        fst (fold_left (batonPass_step item) moves (s, n)) = Name a ->
        s = Name a
        \/ exists move,
             In move moves /\ move_name move = a
             /\ z_boosts_speed item move = true)
    /\ (forall b,
          snd (fold_left (batonPass_step item) moves (s, n)) = Name b ->
          n = Name b
          \/ exists move,
               In move moves /\ move_name move = b
               /\ z_boosts_other item move = true).
Proof.
  induction moves as [|move rest IH]; intros s n; cbn [fold_left].
  - split; intros x H; left; exact H.
  - rewrite batonPass_step_eq. cbv zeta.
    match goal with
    | |- context [fold_left _ rest (?a, ?b)] =>
        destruct (IH a b) as [Hs Hn]
    end.
    split.
    + intros a H. destruct (Hs a H) as [H'|(m & Hin & Hm & Hz)].
      * destruct (z_boosts_speed item move) eqn:Hz; cbn [andb] in H'.
        -- destruct (negb _) in H'.
           ++ inversion H'. right. exists move. cbn. auto.
           ++ destruct (boosts_speed_itself move); [discriminate | auto].
        -- destruct (boosts_speed_itself move); [discriminate | auto].
      * right. exists m. cbn. auto.
    + intros b H. destruct (Hn b H) as [H'|(m & Hin & Hm & Hz)].
      * destruct (z_boosts_other item move) eqn:Hz; cbn [andb] in H'.
        -- destruct (_ || _) in H'.
           ++ inversion H'. right. exists move. cbn. auto.
           ++ destruct (boosts_other_itself move); [discriminate | auto].
        -- destruct (boosts_other_itself move); [discriminate | auto].
      * right. exists m. cbn. auto.
Qed.

Lemma distinct_names_spec s n :
  strict_neq s n && is_string s && is_string n = true
  <-> exists a b, (s, n) = (Name a, Name b) /\ a <> b.
Proof.
  destruct s as [x|a], n as [y|b]; cbn;
    rewrite ?andb_false_r;
    try (split; [discriminate | intros (a' & b' & H & _); discriminate]).
  rewrite !andb_true_r, negb_true_iff, String.eqb_neq. split.
  - intros H. exists a, b. auto.
  - intros (a' & b' & H & Hne). inversion H; subst. exact Hne.
Qed.

Lemma same_or_unnamed_spec s n :
  negb (strict_neq s n && is_string s && is_string n) = true
  <-> ~ exists a b, (s, n) = (Name a, Name b) /\ a <> b.
Proof.
  rewrite negb_true_iff, <- not_true_iff_false, distinct_names_spec. tauto.
Qed.

Lemma truthy_forced (forced : bool) v :
  truthy (if forced then Flag true else v) = truthy v || forced.
Proof. destruct forced; cbn; rewrite ?orb_true_r, ?orb_false_r; reflexivity. Qed.

(** [checkBatonPass] on any move table whose moves have a name. *)
Lemma checkBatonPass_spec set format moves :
  (forall move, In move (table_values moves) -> move_name move <> "") ->
  (checkBatonPass set format moves = true
   <-> speed_source set format moves = true
       /\ other_source set format moves = true
       /\ ~ exists a b,
             attributions set format moves = (Name a, Name b) /\ a <> b)
  /\ (forall a b,
        attributions set format moves = (Name a, Name b) ->
        exists by_speed by_other,
          In by_speed (table_values moves)
          /\ In by_other (table_values moves)
          /\ move_name by_speed = a /\ move_name by_other = b
          /\ z_boosts_speed (Items_get (set_item set) (gen format)) by_speed
             = true
          /\ z_boosts_other (Items_get (set_item set) (gen format)) by_other
             = true).
Proof.
  intros Hnames.
  unfold checkBatonPass, speed_source, other_source, attributions,
    batonPass_loop.
  cbv zeta.
  set (item := Items_get (set_item set) (gen format)).
  set (ability := toID (set_ability set)).
  destruct (batonPass_fold_truthy item (table_values moves) Hnames
              (Flag false) (Flag false)) as [Hs Hn].
  destruct (batonPass_fold_names item (table_values moves)
              (Flag false) (Flag false)) as [Ns Nn].
  destruct (fold_left (batonPass_step item) (table_values moves)
              (Flag false, Flag false)) as [s n].
  cbn [fst snd truthy orb] in Hs, Hn, Ns, Nn.
  rewrite <- Hs, <- Hn, <- !truthy_forced.
  split.
  - destruct (truthy (if has SPEED_BOOST_ABILITIES ability
                         || item_in item SPEED_BOOST_ITEMS
                      then Flag true else s)); cbn [negb];
      [|split; [discriminate | intros (H & _); discriminate]].
    destruct (truthy (if has NON_SPEED_BOOST_ABILITIES ability
                         || item_in item NON_SPEED_BOOST_ITEMS
                      then Flag true else n)); cbn [negb];
      [|split; [discriminate | intros (_ & H & _); discriminate]].
    rewrite same_or_unnamed_spec. tauto.
  - intros a b H.
    destruct (has SPEED_BOOST_ABILITIES ability
              || item_in item SPEED_BOOST_ITEMS); [discriminate|].
    destruct (has NON_SPEED_BOOST_ABILITIES ability
              || item_in item NON_SPEED_BOOST_ITEMS); [discriminate|].
    inversion H; subst s n.
    destruct (Ns a eq_refl) as [Hf|(ma & Hina & Hma & Hza)]; [discriminate|].
    destruct (Nn b eq_refl) as [Hf|(mb & Hinb & Hmb & Hzb)]; [discriminate|].
    exists ma, mb. auto 10.
Qed.

End BatonPass.

Lemma In_table_set t k v entry :
  In entry (table_set t k v) -> In entry t \/ entry = (k, v).
Proof.
  induction t as [|[k' v'] rest IH]; cbn.
  - intros [H|[]]. right. symmetry. exact H.
  - destruct (String.eqb_spec k' k) as [->|Hne]; cbn.
    + intros [H|H]; [right; symmetry; exact H | left; right; exact H].
    + intros [H|H]; [left; left; exact H|].
      destruct (IH H) as [H'|H']; [left; right; exact H' | right; exact H'].
Qed.

Section BatonPassCheck.

Context {data : Data}.

Lemma loop_table_values g moves :
  forall t move,
    In move (table_values (loop_table g t moves)) ->
    In move (table_values t)
    \/ exists m, In m moves /\ Moves_get m g = Some move.
Proof.
  unfold table_values.
  induction moves as [|m rest IH]; cbn [loop_table]; intros t move H.
  - left. exact H.
  - destruct (Moves_get m g) as [resolved|] eqn:Hm.
    + destruct (IH _ _ H) as [H'|(m' & Hin & Hget)].
      * apply in_map_iff in H'. destruct H' as (entry & Hsnd & Hentry).
        apply In_table_set in Hentry. destruct Hentry as [Hentry|Hentry].
        -- left. apply in_map_iff. exists entry. auto.
        -- subst entry. cbn in Hsnd. subst move.
           right. exists m. split; [left; reflexivity | exact Hm].
      * right. exists m'. split; [right; exact Hin | exact Hget].
    + destruct (IH _ _ H) as [H'|(m' & Hin & Hget)].
      * left. exact H'.
      * right. exists m'. split; [right; exact Hin | exact Hget].
Qed.

Lemma moveTable_of_values set format move :
  In move (table_values (moveTable_of set format)) ->
  exists m, In m (set_moves set) /\ Moves_get m (gen format) = Some move.
Proof.
  intros H. apply loop_table_values in H. destruct H as [[]|H]. exact H.
Qed.

Lemma BatonPassBan_in_moves_problems p rules pokemon set format :
  In (BatonPassBan p) (moves_problems rules pokemon set format)
  <-> p = pokemon
      /\ has (clauses rules) "Baton Pass" = true
      /\ table_has (moveTable_of set format) "batonpass" = true
      /\ checkBatonPass set format (moveTable_of set format) = true.
Proof.
  unfold moves_problems, sleepTrap_problems, batonPass_problems.
  rewrite (table_lookup_own (moveTable_of set format) "batonpass" eq_refl).
  pose proof (loop_problems_kinds rules pokemon (gen format) (set_moves set) [])
    as Hloop.
  rewrite Forall_forall in Hloop.
  destruct (negb (Nat.eqb (List.length (set_moves set)) 0)) eqn:Hlen.
  - rewrite !in_app_iff. split.
    + intros [H|[H|[H|H]]].
      * destruct (Nat.ltb 4 (List.length (set_moves set)));
          [destruct H as [H|[]]; discriminate | destruct H].
      * destruct (Hloop _ H).
      * repeat match type of H with
               | In _ (if ?b then _ else _) => destruct b
               end;
          try destruct H as [H|[]]; try discriminate; destruct H.
      * destruct (has (clauses rules) "Baton Pass"); [|destruct H].
        destruct (table_has (moveTable_of set format) "batonpass");
          [|destruct H].
        destruct (checkBatonPass set format (moveTable_of set format));
          [|destruct H].
        destruct H as [H|[]]. inversion H. auto.
    + intros (Hp & Hclause & Htable & Hcheck). right. right. right.
      rewrite Hclause, Htable, Hcheck. subst p. cbn. auto.
  - split.
    + intros [H|[]]; discriminate.
    + intros (_ & _ & Htable & _).
      apply negb_false_iff, Nat.eqb_eq, length_zero_iff_nil in Hlen.
      unfold moveTable_of in Htable. rewrite Hlen in Htable. discriminate.
Qed.

(** C1. Take a set with an entry that resolves to Baton Pass, under rules
    with the Baton Pass clause, the moves of the set having a name.  The
    call returns, and the Baton Pass problem is in the result exactly when
    [checkBatonPass] answers true on the move table of the set; it answers
    true exactly when the set has a source of a Speed boost and a source of
    a boost to another stat, unless both boosts are attributed to names and
    the names differ.  Two such names are names of moves of the table whose
    Z-moves, with the held Z-crystal, give the Speed boost and the other
    boost.  Without a source of a Speed boost, or without a source of another
    boost, the answer is false. *)
Theorem batonPass_banned_iff (set : PokemonSet) (format : Format)
    (rules : RuleSet) (species : Species) :
  Rules_get format = Some rules ->
  Species_get (set_species set) (gen format) = Some species ->
  assertions_hold set format species = true ->
  has (clauses rules) "Baton Pass" = true ->
  resolves_into (gen format) (set_moves set) ["batonpass"] ->
  (forall m move,
      In m (set_moves set) -> Moves_get m (gen format) = Some move ->
      move_name move <> "") ->
  let moves := moveTable_of set format in
  let item := Items_get (set_item set) (gen format) in
  exists ps,
    validate set format = Ok ps
    /\ (In (BatonPassBan (pokemon_of set)) ps
        <-> checkBatonPass set format moves = true)
    /\ (checkBatonPass set format moves = true
        <-> speed_source set format moves = true
            /\ other_source set format moves = true
            /\ ~ exists a b,
                  attributions set format moves = (Name a, Name b) /\ a <> b)
    /\ (forall a b,
          attributions set format moves = (Name a, Name b) ->
          exists by_speed by_other,
            In by_speed (table_values moves) /\ In by_other (table_values moves)
            /\ move_name by_speed = a /\ move_name by_other = b
            /\ z_boosts_speed item by_speed = true
            /\ z_boosts_other item by_other = true)
    /\ (speed_source set format moves = false
        \/ other_source set format moves = false ->
        checkBatonPass set format moves = false).
Proof.
  intros Hr Hs Ha Hclause Hbaton Hnames moves item.
  destruct (validate_by_check set format rules species Hr Hs Ha)
    as (ps & og & oi & Hv & _ & _ & Hin).
  exists ps. split; [exact Hv|].
  assert (Htable : table_has moves "batonpass" = true).
  { apply moveTable_of_has.
    destruct Hbaton as (m & move & Hm & Hget & Hid).
    exists m, move. repeat split; try assumption.
    unfold has in Hid. cbn [existsb] in Hid. rewrite orb_false_r in Hid.
    apply String.eqb_eq in Hid. symmetry. exact Hid. }
  assert (Hvalues : forall move,
             In move (table_values moves) -> move_name move <> "").
  { intros move H. apply moveTable_of_values in H.
    destruct H as (m & Hm & Hget). exact (Hnames m move Hm Hget). }
  destruct (checkBatonPass_spec set format moves Hvalues) as [Hspec Hz].
  split; [|split; [exact Hspec | split; [exact Hz|]]].
  - rewrite Hin. cbn [origin]. rewrite BatonPassBan_in_moves_problems.
    fold moves. tauto.
  - intros Hnone.
    destruct (checkBatonPass set format moves) eqn:Hcheck; [|reflexivity].
    destruct (proj1 Hspec eq_refl) as (H1 & H2 & _).
    destruct Hnone as [H|H]; congruence.
Qed.

End BatonPassCheck.

(** ** Abilities *)

Section AbilityCheck.

Context {data : Data}.

(** Before generation 3 a set with an ability gets the problem saying that
    abilities do not exist; from generation 3 on, the ability string is
    looked up with [Items.get], and the problem on the ability is raised
    exactly when no item of that name exists. *)
Lemma ability_looked_up_among_items (set : PokemonSet) (format : Format)
    (rules : RuleSet) (species : Species) :
  Rules_get format = Some rules ->
  Species_get (set_species set) (gen format) = Some species ->
  assertions_hold set format species = true ->
  exists ps,
    validate set format = Ok ps
    /\ (gen format < 3 ->
        set_ability set <> "" ->
        In (AbilitiesDoNotExist (gen format) (pokemon_of set) (set_ability set))
          ps)
    /\ (3 <= gen format ->
        (In (InvalidAbility (set_ability set) (gen format)) ps
         <-> Items_get (set_ability set) (gen format) = None)).
Proof.
  intros Hr Hs Ha.
  destruct (validate_by_check set format rules species Hr Hs Ha)
    as (ps & og & oi & Hv & _ & _ & Hin).
  exists ps. split; [exact Hv|]. split.
  - intros Hlt Hne. apply Hin. cbn [origin]. unfold ability_problems.
    destruct (gen format >=? 3) eqn:E; [apply Z.geb_le in E; lia|].
    unfold truthy_string. apply String.eqb_neq in Hne. rewrite Hne.
    cbn. auto.
  - intros Hge. rewrite Hin. cbn [origin]. unfold ability_problems.
    apply Z.geb_le in Hge. rewrite Hge.
    destruct (Items_get (set_ability set) (gen format)) as [found|].
    + split; [|discriminate].
      rewrite in_app_iff.
      intros [H|H];
        match type of H with
        | In _ (if ?b then _ else _) => destruct b
        end;
        try destruct H as [H|[]]; try discriminate; destruct H.
    + split; [reflexivity | intros _; left; reflexivity].
Qed.

End AbilityCheck.

(** * Further properties *)

(** ** The checks on the species, the EVs, the nature and the item *)

Ltac in_cases H :=
  repeat match type of H with
         | In _ (if ?b then _ else _) => destruct b eqn:?
         | In _ (match ?o with Some _ => _ | None => _ end) => destruct o eqn:?
         | In _ (_ ++ _) => apply in_app_or in H; destruct H as [H|H]
         | In _ [] => destruct H
         | In _ [_] => destruct H as [H|[]]
         end.

Lemma truthy_string_true s : truthy_string s = true <-> s <> "".
Proof. unfold truthy_string. rewrite negb_true_iff. apply String.eqb_neq. Qed.

Lemma truthy_string_false s : truthy_string s = false <-> s = "".
Proof. unfold truthy_string. rewrite negb_false_iff. apply String.eqb_eq. Qed.

Section SimpleChecks.

Context {data : Data}.

Variables (set : PokemonSet) (format : Format).
Variables (rules : RuleSet) (species : Species).

Hypothesis rules_resolve : Rules_get format = Some rules.
Hypothesis species_resolves :
  Species_get (set_species set) (gen format) = Some species.
Hypothesis no_throw : assertions_hold set format species = true.

(** X1. The tier problems name the generation of the species, not that of
    the format: the species is reported as not existing exactly when its
    tier is Illegal, and as unreleased exactly when its tier is Unreleased. *)
Theorem tier_reported_iff :
  exists ps,
    validate set format = Ok ps
    /\ (forall p g,
          In (IllegalSpecies p g) ps
          <-> p = pokemon_of set /\ g = sp_gen species
              /\ sp_tier species = "Illegal")
    /\ (forall p g,
          In (UnreleasedSpecies p g) ps
          <-> p = pokemon_of set /\ g = sp_gen species
              /\ sp_tier species = "Unreleased").
Proof.
  destruct (validate_by_check set format rules species rules_resolve
              species_resolves no_throw)
    as (ps & og & oi & Hv & _ & _ & Hin).
  exists ps. split; [exact Hv|].
  split; intros p g; rewrite Hin; cbn [origin]; unfold tier_problems.
  - destruct (String.eqb_spec (sp_tier species) "Illegal") as [E|E].
    + split.
      * intros [H|[]]. inversion H. auto.
      * intros (-> & -> & _). left. reflexivity.
    + split; [|tauto]. intros H. in_cases H; discriminate.
  - destruct (String.eqb_spec (sp_tier species) "Illegal") as [E|E].
    + split.
      * intros [H|[]]. discriminate.
      * intros (_ & _ & E'). rewrite E in E'. discriminate.
    + destruct (String.eqb_spec (sp_tier species) "Unreleased") as [E'|E'].
      * split.
        -- intros [H|[]]. inversion H. auto.
        -- intros (-> & -> & _). left. reflexivity.
      * split; [intros [] | tauto].
Qed.

(** X2. Under Little Cup rules a species with a pre-evolution is reported
    as not first in its family; one without pre-evolution and without
    evolutions as having no family; never both, and neither under other
    rules. *)
Theorem little_cup_family_reported_iff :
  exists ps,
    validate set format = Ok ps
    /\ (forall p,
          In (NotFirstInFamily p) ps
          <-> p = pokemon_of set /\ Rules_isLittleCup rules = true
              /\ truthy_opt_string (sp_prevo species) = true)
    /\ (forall p,
          In (NoEvolutionFamily p) ps
          <-> p = pokemon_of set /\ Rules_isLittleCup rules = true
              /\ truthy_opt_string (sp_prevo species) = false
              /\ nfe species = false).
Proof.
  destruct (validate_by_check set format rules species rules_resolve
              species_resolves no_throw)
    as (ps & og & oi & Hv & _ & _ & Hin).
  exists ps. split; [exact Hv|].
  split; intros p; rewrite Hin; cbn [origin]; unfold level_problems;
    destruct (Rules_isLittleCup rules),
      (truthy_opt_string (sp_prevo species)), (nfe species),
      (level_above (set_level set) 5), (level_above (set_level set) 100);
    cbn; intuition (try discriminate; try congruence).
Qed.

(** X6. The EV problem is raised exactly when the generation is below 3
    and the SpA and SpD EVs differ; it carries the two EVs. *)
Theorem evs_reported_iff :
  exists ps,
    validate set format = Ok ps
    /\ forall p a d,
         In (EVsDiffer p a d) ps
         <-> p = pokemon_of set /\ a = spa (set_evs set)
             /\ d = spd (set_evs set) /\ gen format < 3 /\ a <> d.
Proof.
  destruct (validate_by_check set format rules species rules_resolve
              species_resolves no_throw)
    as (ps & og & oi & Hv & _ & _ & Hin).
  exists ps. split; [exact Hv|].
  intros p a d. rewrite Hin. cbn [origin]. unfold evs_problems.
  destruct (Z.ltb_spec (gen format) 3) as [Hlt|Hge];
    destruct (Z.eqb_spec (spa (set_evs set)) (spd (set_evs set))) as [E|E];
    cbn [andb negb].
  - split; [intros [] | intros (_ & -> & -> & _ & Hne); contradiction].
  - split.
    + intros [H|[]]. inversion H. subst. auto.
    + intros (-> & -> & -> & _). left. reflexivity.
  - split; [intros [] | intros (_ & _ & _ & Hg & _); lia].
  - split; [intros [] | intros (_ & _ & _ & Hg & _); lia].
Qed.

(** X7. From generation 3 on, an empty nature is reported as missing and a
    nature that does not resolve as invalid; before generation 3 a nature
    that resolves is reported as not existing, and a nature string that
    does not resolve is not reported at all. *)
Theorem nature_reported_iff :
  exists ps,
    validate set format = Ok ps
    /\ (forall p g,
          In (NatureRequired p g) ps
          <-> p = pokemon_of set /\ g = gen format /\ 3 <= gen format
              /\ set_nature set = "")
    /\ (forall n g,
          In (InvalidNature n g) ps
          <-> n = set_nature set /\ g = gen format /\ 3 <= gen format
              /\ set_nature set <> "" /\ Natures_get (set_nature set) = None)
    /\ (forall g p n,
          In (NaturesDoNotExist g p n) ps
          <-> g = gen format /\ p = pokemon_of set /\ gen format < 3
              /\ set_nature set <> ""
              /\ Natures_get (set_nature set) = Some n)
    /\ (gen format < 3 -> Natures_get (set_nature set) = None ->
        forall p, origin p = NatureCheck -> ~ In p ps).
Proof.
  destruct (validate_by_check set format rules species rules_resolve
              species_resolves no_throw)
    as (ps & og & oi & Hv & _ & _ & Hin).
  exists ps. split; [exact Hv|].
  assert (Hcases :
            (set_nature set = "" \/ set_nature set <> "")
            /\ (3 <= gen format \/ gen format < 3)) by
    (split; [destruct (String.eqb_spec (set_nature set) ""); auto | lia]).
  assert (Hlist : forall p,
             origin p = NatureCheck ->
             In p ps <-> In p (nature_problems (pokemon_of set) set format)).
  { intros p Hp. rewrite Hin, Hp. reflexivity. }
  clear Hin. unfold nature_problems in Hlist.
  destruct Hcases as [[He|Hne] [H3|H3]];
    [apply truthy_string_false in He as Ht
    |apply truthy_string_false in He as Ht
    |apply truthy_string_true in Hne as Ht
    |apply truthy_string_true in Hne as Ht];
    rewrite Ht in Hlist;
    [apply Z.geb_le in H3 as Hg | | apply Z.geb_le in H3 as Hg | ];
    try (assert (Hg : (gen format >=? 3) = false)
          by (rewrite Z.geb_leb; apply Z.leb_gt; exact H3);
         apply Z.ltb_lt in H3 as Hl);
    try (assert (Hl : (gen format <? 3) = false)
          by (apply Z.ltb_ge; exact H3));
    rewrite ?Hg, ?Hl in Hlist;
    destruct (Natures_get (set_nature set)) as [nature|];
    rewrite ?Hl, ?Hg in Hlist;
    (split; [intros p g; rewrite Hlist by reflexivity
            |split; [intros n g; rewrite Hlist by reflexivity
                    |split; [intros g p n; rewrite Hlist by reflexivity
                            |intros Hlow Hnone p Hp; rewrite (Hlist p Hp)]]]);
    cbn [In];
    intuition (subst; try discriminate; try congruence; try lia).
Qed.

(** X8. In generation 1 any item is reported as not existing; from
    generation 2 on an item that does not resolve is reported as invalid,
    and a Griseous Orb is reported for every species other than number 487,
    in every generation where the item resolves. *)
Theorem item_reported_iff :
  exists ps,
    validate set format = Ok ps
    /\ (forall g p i,
          In (ItemsDoNotExist g p i) ps
          <-> g = gen format /\ p = pokemon_of set /\ i = set_item set
              /\ gen format < 2 /\ set_item set <> "")
    /\ (forall i g,
          In (InvalidItem i g) ps
          <-> i = set_item set /\ g = gen format /\ 2 <= gen format
              /\ set_item set <> ""
              /\ Items_get (set_item set) (gen format) = None)
    /\ (In GriseousOrbHolder ps
        <-> 2 <= gen format
            /\ exists item,
                 Items_get (set_item set) (gen format) = Some item
                 /\ item_id item = "griseousorb" /\ sp_num species <> 487).
Proof.
  destruct (validate_by_check set format rules species rules_resolve
              species_resolves no_throw)
    as (ps & og & oi & Hv & _ & _ & Hin).
  exists ps. split; [exact Hv|].
  assert (Hlist : forall p,
             origin p = ItemCheck ->
             In p ps
             <-> In p (item_problems (pokemon_of set) set format species)).
  { intros p Hp. rewrite Hin, Hp. reflexivity. }
  clear Hin. unfold item_problems in Hlist.
  assert (Hg : (gen format >=? 2) = true /\ 2 <= gen format
               \/ (gen format >=? 2) = false /\ gen format < 2).
  { destruct (gen format >=? 2) eqn:E.
    - left. split; [reflexivity | apply Z.geb_le; exact E].
    - right. split; [reflexivity|].
      rewrite Z.geb_leb in E. apply Z.leb_gt. exact E. }
  assert (Ht : truthy_string (set_item set) = true /\ set_item set <> ""
               \/ truthy_string (set_item set) = false /\ set_item set = "").
  { destruct (truthy_string (set_item set)) eqn:E.
    - left. split; [reflexivity | apply truthy_string_true; exact E].
    - right. split; [reflexivity | apply truthy_string_false; exact E]. }
  destruct Hg as [[Hg Hg']|[Hg Hg']], Ht as [[Ht Ht']|[Ht Ht']];
    rewrite Hg, Ht in Hlist;
    destruct (Items_get (set_item set) (gen format)) as [item|] eqn:Hitem;
    try (destruct (String.eqb_spec (item_id item) "griseousorb") as [Hid|Hid],
           (Z.eqb_spec (sp_num species) 487) as [Hnum|Hnum]);
    cbn [andb negb app] in Hlist;
    (split; [intros g p i; rewrite Hlist by reflexivity
            |split; [intros i g; rewrite Hlist by reflexivity
                    |rewrite Hlist by reflexivity]]);
    cbn [In];
    try solve [intuition (subst; try discriminate; try congruence; try lia)];
    (split;
     [intros H;
      first [solve [destruct H]
            |solve [destruct H as [H|[]]; discriminate]
            |split; [lia | eexists; repeat split; eauto]]
     |try tauto; intros (_ & it & Hit & Hid' & Hnum');
      inversion Hit; subst it; try congruence; try lia; tauto]).
Qed.

(** X10. In generations 3, 4 and 5 the IVs are not checked at all. *)
Theorem ivs_unchecked_between :
  3 <= gen format < 6 ->
  exists ps,
    validate set format = Ok ps
    /\ forall p, origin p = IVs -> ~ In p ps.
Proof.
  intros Hgen.
  destruct (validate_by_check set format rules species rules_resolve
              species_resolves no_throw)
    as (ps & og & oi & Hv & _ & Hi & Hin).
  exists ps. split; [exact Hv|].
  intros p Hp H. rewrite Hin, Hp in H.
  unfold ivs_problems in Hi.
  assert (H6 : (gen format >=? 6) = false).
  { rewrite Z.geb_leb. apply Z.leb_gt. lia. }
  assert (H3 : (gen format <? 3) = false) by (apply Z.ltb_ge; lia).
  rewrite H6, H3 in Hi. inversion Hi; subst oi. destruct H.
Qed.

(** X11. The wrong-gender problem is raised exactly when the set declares
    a non-empty gender different from the gender field of the species, an
    undefined field being different from every gender; a set that declares
    no gender gets no gender problem. *)
Theorem wrong_gender_reported_iff :
  exists ps,
    validate set format = Ok ps
    /\ (forall p declared fixed,
          In (WrongGender p declared fixed) ps
          <-> p = pokemon_of set /\ set_gender set = Some declared
              /\ declared <> "" /\ fixed = sp_gender species
              /\ sp_gender species <> Some declared)
    /\ (set_gender set = None \/ set_gender set = Some "" ->
        forall p, origin p = Gender -> ~ In p ps).
Proof.
  destruct (validate_by_check set format rules species rules_resolve
              species_resolves no_throw)
    as (ps & og & oi & Hv & Hg & _ & Hin).
  exists ps. split; [exact Hv|].
  assert (Hlist : forall p, origin p = Gender -> In p ps <-> In p og).
  { intros p Hp. rewrite Hin, Hp. reflexivity. }
  clear Hin. unfold gender_problems in Hg.
  split.
  - intros p declared fixed. rewrite Hlist by reflexivity.
    destruct (set_gender set) as [gender|].
    + destruct (truthy_string gender) eqn:Ht.
      * apply truthy_string_true in Ht.
        assert (Hfix : In (WrongGender p declared fixed)
                         (fixed_gender_problems (pokemon_of set) gender species)
                       <-> p = pokemon_of set /\ Some gender = Some declared
                           /\ declared <> "" /\ fixed = sp_gender species
                           /\ sp_gender species <> Some declared).
        { unfold fixed_gender_problems.
          destruct (opt_string_eqb (Some gender) (sp_gender species)) eqn:E;
            cbn [negb In].
          - apply opt_string_eqb_eq in E. split; [intros [] |].
            intros (_ & Hd & _ & _ & Hne). congruence.
          - assert (Hne : Some gender <> sp_gender species).
            { intros Heq. apply opt_string_eqb_eq in Heq. congruence. }
            split.
            + intros [H|[]]. inversion H. subst. repeat split; congruence.
            + intros (-> & Hd & _ & -> & _). inversion Hd. left. reflexivity. }
        destruct (gen format =? 2).
        -- destruct (sp_genderRatio species) as [ratio|]; [|discriminate].
           inversion Hg; subst og. rewrite in_app_iff, Hfix.
           split; [|tauto]. intros [H|H]; [exact H|].
           unfold dv_gender_problems in H. in_cases H; discriminate.
        -- inversion Hg; subst og. exact Hfix.
      * inversion Hg; subst og. apply truthy_string_false in Ht.
        split; [intros [] | intros (_ & Hd & Hne & _); congruence].
    + inversion Hg; subst og.
      split; [intros [] | intros (_ & Hd & _); discriminate].
  - intros Hnone p Hp H. apply (Hlist p Hp) in H.
    destruct Hnone as [Hn|Hn]; rewrite Hn in Hg; cbn in Hg;
      inversion Hg; subst og; destruct H.
Qed.

End SimpleChecks.

(** ** The checks on the moves *)

Lemma table_keys_set t k v :
  map fst (table_set t k v)
  = if table_has t k then map fst t else map fst t ++ [k].
Proof.
  induction t as [|[k' v'] rest IH]; cbn; [reflexivity|].
  destruct (String.eqb_spec k' k) as [->|Hne]; cbn; [reflexivity|].
  rewrite IH. destruct (table_has rest k); reflexivity.
Qed.

Lemma table_has_keys t k : table_has t k = true <-> In k (map fst t).
Proof.
  induction t as [|[k' v'] rest IH]; cbn.
  - split; [discriminate | intros []].
  - rewrite orb_true_iff, String.eqb_eq, IH. tauto.
Qed.

Lemma table_set_distinct t k v :
  NoDup (map fst t) -> NoDup (map fst (table_set t k v)).
Proof.
  intros H. rewrite table_keys_set.
  destruct (table_has t k) eqn:E; [exact H|].
  apply NoDup_app; [exact H | constructor; [intros [] | constructor] |].
  intros x Hx [Hk|[]]. subst x. apply table_has_keys in Hx. congruence.
Qed.

Lemma table_set_length t k v :
  List.length (table_set t k v)
  = if table_has t k then List.length t else S (List.length t).
Proof.
  rewrite <- !(length_map fst), table_keys_set.
  destruct (table_has t k); [reflexivity|].
  rewrite length_app. cbn. lia.
Qed.

Lemma clause_problems_spec rules move p :
  In p (clause_problems rules move)
  <-> (p = BannedByOHKO (move_name move)
       /\ has (clauses rules) "OHKO" && move_ohko move = true)
      \/ (p = BannedByEvasionMoves (move_name move)
          /\ has (clauses rules) "OHKO" && move_ohko move = false
          /\ has (clauses rules) "Evasion Moves"
             && ((move_name move =? "Minimize")%string
                 || (move_name move =? "Double Team")%string) = true)
      \/ (p = BannedBySwagger (move_name move)
          /\ has (clauses rules) "OHKO" && move_ohko move = false
          /\ has (clauses rules) "Evasion Moves"
             && ((move_name move =? "Minimize")%string
                 || (move_name move =? "Double Team")%string) = false
          /\ has (clauses rules) "Swagger"
             && (move_name move =? "Swagger")%string = true).
Proof.
  unfold clause_problems.
  destruct (has (clauses rules) "OHKO" && move_ohko move),
    (has (clauses rules) "Evasion Moves"
     && ((move_name move =? "Minimize")%string
         || (move_name move =? "Double Team")%string)),
    (has (clauses rules) "Swagger" && (move_name move =? "Swagger")%string);
    cbn [In]; intuition (try discriminate; try congruence).
Qed.

Section MovesChecks.

Context {data : Data}.

Lemma loop_table_distinct g moves :
  forall t, NoDup (map fst t) -> NoDup (map fst (loop_table g t moves)).
Proof.
  induction moves as [|m rest IH]; cbn; intros t Ht; [exact Ht|].
  destruct (Moves_get m g) as [move|]; apply IH;
    [apply table_set_distinct|]; exact Ht.
Qed.

Lemma loop_duplicates_and_table rules pokemon g moves :
  (forall m move,
      In m moves -> Moves_get m g = Some move ->
      has Object_prototype_members (move_id move) = false) ->
  forall t,
    (List.length (filter is_duplicate (loop_problems rules pokemon g t moves))
     + List.length (loop_table g t moves)
     = List.length t + List.length (filter (resolves g) moves))%nat.
Proof.
  induction moves as [|m rest IH]; intros Hown t;
    cbn [loop_problems loop_table filter]; [cbn; lia|].
  assert (Hrest : forall m' move,
             In m' rest -> Moves_get m' g = Some move ->
             has Object_prototype_members (move_id move) = false).
  { intros m' move Hin. apply Hown. right. exact Hin. }
  unfold resolves at 1.
  destruct (Moves_get m g) as [move|] eqn:Hget.
  - rewrite !filter_app, !length_app.
    assert (Hclause : filter is_duplicate (clause_problems rules move) = []).
    { unfold clause_problems. split_ifs; reflexivity. }
    pose proof (IH Hrest (table_set t (move_id move) move)) as H.
    rewrite table_set_length in H.
    rewrite Hclause. unfold duplicate_problems.
    rewrite (table_lookup_own t (move_id move)
               (Hown m move (or_introl eq_refl) Hget)).
    destruct (table_has t (move_id move));
      cbn [filter is_duplicate List.length app];
      cbn [filter is_duplicate List.length app] in H; lia.
  - cbn [is_duplicate]. apply (IH Hrest).
Qed.

Lemma loop_invalid_moves rules pokemon g moves :
  forall t,
    filter is_invalid_move (loop_problems rules pokemon g t moves)
    = map (fun m => InvalidMove m g)
        (filter (fun m => negb (resolves g m)) moves).
Proof.
  induction moves as [|m rest IH]; intros t;
    cbn [loop_problems filter map]; [reflexivity|].
  unfold resolves at 1.
  destruct (Moves_get m g) as [move|]; cbn [negb].
  - rewrite !filter_app.
    assert (Hclause : filter is_invalid_move (clause_problems rules move) = []).
    { unfold clause_problems. split_ifs; reflexivity. }
    assert (Hdup : filter is_invalid_move (duplicate_problems pokemon t move)
                   = []).
    { unfold duplicate_problems. split_ifs; reflexivity. }
    rewrite Hclause, Hdup. cbn [app]. apply IH.
  - cbn [filter is_invalid_move map]. rewrite IH. reflexivity.
Qed.

Lemma clause_problems_length rules move :
  (List.length (clause_problems rules move) <= 1)%nat.
Proof. unfold clause_problems. split_ifs; cbn; lia. Qed.

Lemma clause_bans_length rules g moves :
  (List.length (clause_bans rules g moves) <= List.length moves)%nat.
Proof.
  unfold clause_bans. induction moves as [|m rest IH]; cbn; [lia|].
  rewrite length_app.
  destruct (Moves_get m g) as [move|].
  - pose proof (clause_problems_length rules move). lia.
  - cbn. lia.
Qed.

Variables (set : PokemonSet) (format : Format).
Variables (rules : RuleSet) (species : Species).

Hypothesis rules_resolve : Rules_get format = Some rules.
Hypothesis species_resolves :
  Species_get (set_species set) (gen format) = Some species.
Hypothesis no_throw : assertions_hold set format species = true.

(** The result, with the problems a test on the moves selects. *)
Lemma validate_filter_moves (f : Problem -> bool) :
  (forall p, origin p <> Moves -> f p = false) ->
  (forall p, f (MoreThanFourMoves p) = false) ->
  (forall p g, f (SleepTrap p g) = false) ->
  (forall p, f (BatonPassBan p) = false) ->
  (forall p, f (NoMoves p) = false) ->
  exists ps,
    validate set format = Ok ps
    /\ filter f ps
       = filter f (loop_problems rules (pokemon_of set) (gen format) []
                     (set_moves set)).
Proof.
  intros Hf H1 H2 H3 H4.
  destruct (validate_returns set format rules species rules_resolve
              species_resolves no_throw)
    as (og & oi & Hg & Hi & Hv).
  eexists. split; [exact Hv|].
  rewrite filter_all_from_moves;
    eauto using from_tier, from_level, from_gender, from_evs, from_ivs,
      from_nature, from_ability, from_item.
  apply filter_moves_problems; assumption.
Qed.

Lemma validate_unique ps ps' :
  validate set format = Ok ps -> validate set format = Ok ps' -> ps = ps'.
Proof. intros H H'. rewrite H in H'. inversion H'. reflexivity. Qed.

(** X3. A set without moves gets the problem of having none, and nothing
    else from the checks on the moves; a set with more than four entries
    gets the problem of having too many; the two never come together. *)
Theorem move_count_reported_iff :
  exists ps,
    validate set format = Ok ps
    /\ (forall p,
          In (NoMoves p) ps <-> p = pokemon_of set /\ set_moves set = [])
    /\ (forall p,
          In (MoreThanFourMoves p) ps
          <-> p = pokemon_of set /\ (4 < List.length (set_moves set))%nat)
    /\ (set_moves set = [] ->
        forall p, origin p = Moves -> In p ps -> p = NoMoves (pokemon_of set)).
Proof.
  destruct (validate_by_check set format rules species rules_resolve
              species_resolves no_throw)
    as (ps & og & oi & Hv & _ & _ & Hin).
  exists ps. split; [exact Hv|].
  assert (Hlist : forall p,
             origin p = Moves ->
             In p ps
             <-> In p (moves_problems rules (pokemon_of set) set format)).
  { intros p Hp. rewrite Hin, Hp. reflexivity. }
  clear Hin. unfold moves_problems in Hlist.
  pose proof (loop_problems_kinds rules (pokemon_of set) (gen format)
                (set_moves set) []) as Hloop.
  rewrite Forall_forall in Hloop.
  destruct (set_moves set) as [|m rest] eqn:Hmoves.
  - cbn in Hlist. split; [|split].
    + intros p. split.
      * intros H. apply Hlist in H; [|reflexivity].
        destruct H as [H|[]]. inversion H. auto.
      * intros (-> & _). apply Hlist; [reflexivity|]. left. reflexivity.
    + intros p. split.
      * intros H. apply Hlist in H; [|reflexivity].
        destruct H as [H|[]]. discriminate.
      * intros (_ & H). cbn in H. lia.
    + intros _ p Hp H. apply (Hlist p Hp) in H.
      destruct H as [H|[]]. symmetry. exact H.
  - cbn [List.length Nat.eqb negb] in Hlist.
    unfold sleepTrap_problems, batonPass_problems in Hlist.
    split; [|split].
    + intros p. split.
      * intros H. apply Hlist in H; [|reflexivity].
        in_cases H; try discriminate; destruct (Hloop _ H).
      * intros (_ & H). discriminate.
    + intros p. split.
      * intros H. apply Hlist in H; [|reflexivity].
        apply in_app_or in H. destruct H as [H|H].
        -- destruct (Nat.ltb_spec 4 (S (List.length rest))) as [Hlt|Hge];
             [|destruct H].
           destruct H as [H|[]]. inversion H. split; [reflexivity|].
           cbn [List.length]. exact Hlt.
        -- in_cases H; try discriminate; destruct (Hloop _ H).
      * intros (-> & Hlt). apply Hlist; [reflexivity|].
        apply in_or_app. left. cbn [List.length] in Hlt.
        apply Nat.ltb_lt in Hlt. rewrite Hlt. left. reflexivity.
    + intros H. discriminate.
Qed.

(** X4. Every entry of [set.moves] that does not resolve is reported, once
    per entry and in the order of the entries, and the loop goes on with the
    entries that follow. *)
Theorem unresolved_moves_reported :
  exists ps,
    validate set format = Ok ps
    /\ filter is_invalid_move ps
       = map (fun m => InvalidMove m (gen format))
           (filter (fun m => negb (resolves (gen format) m)) (set_moves set))
    /\ (forall m g,
          In (InvalidMove m g) ps
          <-> g = gen format /\ In m (set_moves set)
              /\ Moves_get m (gen format) = None).
Proof.
  destruct (validate_filter_moves is_invalid_move) as (ps & Hv & Hf);
    try reflexivity.
  { intros [] Hp; try reflexivity; cbn in Hp; congruence. }
  rewrite loop_invalid_moves in Hf.
  exists ps. split; [exact Hv|]. split; [exact Hf|].
  intros m g.
  assert (Hfilter : In (InvalidMove m g) ps
                    <-> In (InvalidMove m g) (filter is_invalid_move ps)).
  { rewrite filter_In. cbn. tauto. }
  rewrite Hfilter, Hf, in_map_iff. split.
  - intros (m' & Heq & Hm'). inversion Heq; subst.
    apply filter_In in Hm'. destruct Hm' as [Hm' Hres].
    unfold resolves in Hres.
    destruct (Moves_get m (gen format)); [discriminate | auto].
  - intros (-> & Hm & Hnone). exists m. split; [reflexivity|].
    apply filter_In. split; [exact Hm|].
    unfold resolves. rewrite Hnone. reflexivity.
Qed.

(** X5. A move raises at most one clause problem: the OHKO clause comes
    first, so that a move it bans is reported under neither the Evasion
    Moves clause nor the Swagger clause. *)
Theorem clause_precedence :
  exists ps,
    validate set format = Ok ps
    /\ (List.length (filter is_clause_ban ps)
        <= List.length (set_moves set))%nat
    /\ (forall name,
          In (BannedByOHKO name) ps
          <-> exists m move,
                In m (set_moves set)
                /\ Moves_get m (gen format) = Some move
                /\ move_name move = name
                /\ has (clauses rules) "OHKO" = true
                /\ move_ohko move = true)
    /\ (forall name,
          In (BannedByEvasionMoves name) ps
          <-> exists m move,
                In m (set_moves set)
                /\ Moves_get m (gen format) = Some move
                /\ move_name move = name
                /\ has (clauses rules) "Evasion Moves" = true
                /\ (name = "Minimize" \/ name = "Double Team")
                /\ has (clauses rules) "OHKO" && move_ohko move = false)
    /\ (forall name,
          In (BannedBySwagger name) ps
          <-> exists m move,
                In m (set_moves set)
                /\ Moves_get m (gen format) = Some move
                /\ move_name move = name
                /\ has (clauses rules) "Swagger" = true
                /\ name = "Swagger"
                /\ has (clauses rules) "OHKO" && move_ohko move = false).
Proof.
  destruct (validate_filter_moves is_clause_ban) as (ps & Hv & Hf);
    try reflexivity.
  { intros [] Hp; try reflexivity; cbn in Hp; congruence. }
  rewrite loop_clause_bans in Hf.
  exists ps. split; [exact Hv|].
  split; [rewrite Hf; apply clause_bans_length|].
  assert (Hban : forall p,
             is_clause_ban p = true ->
             In p ps
             <-> exists m move,
                   In m (set_moves set)
                   /\ Moves_get m (gen format) = Some move
                   /\ In p (clause_problems rules move)).
  { intros p Hp.
    assert (Hfilter : In p ps <-> In p (filter is_clause_ban ps)).
    { rewrite filter_In. rewrite Hp. tauto. }
    rewrite Hfilter, Hf. unfold clause_bans. rewrite in_flat_map. split.
    - intros (m & Hm & H).
      destruct (Moves_get m (gen format)) as [move|] eqn:Hget; [|destruct H].
      exists m, move. auto.
    - intros (m & move & Hm & Hget & H). exists m. rewrite Hget. auto. }
  split; [|split]; intros name; rewrite Hban by reflexivity; split.
  - intros (m & move & Hm & Hget & H). exists m, move.
    apply clause_problems_spec in H.
    destruct H as [[H Ho]|[[H _]|[H _]]]; try discriminate.
    inversion H. apply andb_true_iff in Ho. tauto.
  - intros (m & move & Hm & Hget & <- & Hc & Ho). exists m, move.
    split; [exact Hm | split; [exact Hget|]].
    apply clause_problems_spec. left. rewrite Hc, Ho. auto.
  - intros (m & move & Hm & Hget & H). exists m, move.
    apply clause_problems_spec in H.
    destruct H as [[H _]|[[H (Ho & He)]|[H _]]]; try discriminate.
    inversion H. apply andb_true_iff in He. destruct He as [Hc Hn].
    apply orb_true_iff in Hn. rewrite !String.eqb_eq in Hn. tauto.
  - intros (m & move & Hm & Hget & <- & Hc & Hn & Ho). exists m, move.
    split; [exact Hm | split; [exact Hget|]].
    apply clause_problems_spec. right. left.
    split; [reflexivity | split; [exact Ho|]].
    rewrite Hc. destruct Hn as [-> | ->]; reflexivity.
  - intros (m & move & Hm & Hget & H). exists m, move.
    apply clause_problems_spec in H.
    destruct H as [[H _]|[[H _]|[H (Ho & _ & Hs)]]]; try discriminate.
    inversion H. apply andb_true_iff in Hs. destruct Hs as [Hc Hn].
    apply String.eqb_eq in Hn. tauto.
  - intros (m & move & Hm & Hget & <- & Hc & Hn & Ho). exists m, move.
    split; [exact Hm | split; [exact Hget|]].
    apply clause_problems_spec. right. right.
    split; [reflexivity | split; [exact Ho|]].
    rewrite Hc, Hn. split; [|reflexivity].
    destruct (has (clauses rules) "Evasion Moves"); reflexivity.
Qed.

(** X13. Take a set none of whose moves resolves to an id that names a
    member of [Object.prototype].  The keys of the move table are distinct,
    and every entry that resolves either adds a key or raises a duplicate
    problem: the number of duplicate problems and the size of the table add
    up to the number of entries that resolve. *)
Theorem duplicates_and_table_size :
  (forall m move,
      In m (set_moves set) -> Moves_get m (gen format) = Some move ->
      has Object_prototype_members (move_id move) = false) ->
  exists ps,
    validate set format = Ok ps
    /\ NoDup (map fst (moveTable_of set format))
    /\ (List.length (filter is_duplicate ps)
        + List.length (moveTable_of set format)
        = List.length (filter (resolves (gen format)) (set_moves set)))%nat.
Proof.
  intros Hown.
  destruct (validate_filter_moves is_duplicate) as (ps & Hv & Hf);
    try reflexivity.
  { intros [] Hp; try reflexivity; cbn in Hp; congruence. }
  exists ps. split; [exact Hv|]. split.
  - apply loop_table_distinct. constructor.
  - rewrite Hf. unfold moveTable_of.
    rewrite (loop_duplicates_and_table _ _ _ _ Hown). reflexivity.
Qed.

End MovesChecks.

(** ** Thrown calls and the species stub *)

Section Throws.

Context {data : Data}.

Lemma gender_problems_throws pokemon set format species :
  gender_problems pokemon set format species = TypeError
  <-> gen format = 2
      /\ (exists gender, set_gender set = Some gender /\ gender <> "")
      /\ sp_genderRatio species = None.
Proof.
  unfold gender_problems.
  destruct (set_gender set) as [gender|].
  - destruct (truthy_string gender) eqn:Ht.
    + apply truthy_string_true in Ht.
      destruct (Z.eqb_spec (gen format) 2) as [Hg|Hg].
      * destruct (sp_genderRatio species).
        -- split; [discriminate | intros (_ & _ & H); discriminate].
        -- split; [|reflexivity]. intros _.
           split; [exact Hg | split; [exists gender; auto | reflexivity]].
      * split; [discriminate | intros (H & _); contradiction].
    + apply truthy_string_false in Ht.
      split; [discriminate|].
      intros (_ & (g & Hg & Hne) & _). inversion Hg. congruence.
  - split; [discriminate | intros (_ & (g & Hg & _) & _); discriminate].
Qed.

Lemma ivs_problems_throws pokemon set format species :
  ivs_problems pokemon set format species = TypeError
  <-> 6 <= gen format /\ sp_eggGroups species = None.
Proof.
  unfold ivs_problems, isLegendary.
  destruct (gen format >=? 6) eqn:H6.
  - apply Z.geb_le in H6.
    destruct (sp_eggGroups species).
    + split; [discriminate | intros (_ & H); discriminate].
    + split; [auto | reflexivity].
  - rewrite Z.geb_leb in H6. apply Z.leb_gt in H6.
    destruct (gen format <? 3);
      (split; [discriminate | intros (H & _); lia]).
Qed.

(** X9. A call throws exactly when the format and the species resolve and
    either the generation is 2, the set declares a gender and the species
    has no gender ratio, or the generation is 6 or later and the species has
    no egg groups.  In every other case it returns a list. *)
Theorem validate_throws_iff (set : PokemonSet) (format : Format) :
  validate set format = TypeError
  <-> exists rules species,
        Rules_get format = Some rules
        /\ Species_get (set_species set) (gen format) = Some species
        /\ ((gen format = 2
             /\ (exists gender, set_gender set = Some gender /\ gender <> "")
             /\ sp_genderRatio species = None)
            \/ (6 <= gen format /\ sp_eggGroups species = None)).
Proof.
  rewrite validate_eq.
  destruct (Rules_get format) as [rules|].
  - destruct (Species_get (set_species set) (gen format)) as [species|].
    + unfold all_problems.
      pose proof (gender_problems_throws
                    (js_or (set_name set) (set_species set)) set format species)
        as Hg.
      pose proof (ivs_problems_throws
                    (js_or (set_name set) (set_species set)) set format species)
        as Hi.
      destruct (gender_problems _ set format species) as [og|];
        destruct (ivs_problems _ set format species) as [oi|].
      * split; [discriminate|].
        intros (r & s & _ & Hs & [H|H]); inversion Hs; subst s.
        -- apply Hg in H. discriminate.
        -- apply Hi in H. discriminate.
      * split; [|reflexivity]. intros _. exists rules, species.
        split; [reflexivity | split; [reflexivity|]].
        right. apply Hi. reflexivity.
      * split; [|reflexivity]. intros _. exists rules, species.
        split; [reflexivity | split; [reflexivity|]].
        left. apply Hg. reflexivity.
      * split; [|reflexivity]. intros _. exists rules, species.
        split; [reflexivity | split; [reflexivity|]].
        left. apply Hg. reflexivity.
    + split; [discriminate | intros (r & s & _ & H & _); discriminate].
  - split; [discriminate | intros (r & s & H & _); discriminate].
Qed.

(** X19. With the species lookup as [src/species.ts] has it, which finds no
    species at all, every call returns exactly one problem, on the format or
    on the species, and never throws. *)
Theorem stub_stops_every_set (set : PokemonSet) (format : Format) :
  (forall s g, Species_get s g = Species_get_stub s g) ->
  exists p,
    validate set format = Ok [p]
    /\ (p = InvalidFormat format
        \/ p = InvalidSpecies (set_species set) (gen format)).
Proof.
  intros Hstub. rewrite validate_eq, Hstub. unfold Species_get_stub.
  destruct (Rules_get format); eexists; split; try reflexivity; auto.
Qed.

End Throws.

(** ** The gender a generation 2 Atk DV gives *)

Lemma Qeq_bool_compat a b c : (a == b)%Q -> Qeq_bool a c = Qeq_bool b c.
Proof.
  intros H.
  destruct (Qeq_bool a c) eqn:Ea, (Qeq_bool b c) eqn:Eb; try reflexivity.
  - apply Qeq_bool_iff in Ea. apply Qeq_bool_neq in Eb.
    exfalso. apply Eb. rewrite <- H. exact Ea.
  - apply Qeq_bool_iff in Eb. apply Qeq_bool_neq in Ea.
    exfalso. apply Ea. rewrite H. exact Eb.
Qed.

Lemma threshold_by_spec_compat a b :
  (a == b)%Q -> (threshold_by_spec a == threshold_by_spec b)%Q.
Proof.
  intros H. unfold threshold_by_spec.
  assert (H16 : (a * 16 == b * 16)%Q) by (rewrite H; reflexivity).
  rewrite (Qeq_bool_compat _ _ 4 H16), (Qeq_bool_compat _ _ 8 H16).
  destruct (Qeq_bool (b * 16) 4); [reflexivity|].
  destruct (Qeq_bool (b * 16) 8); [reflexivity | exact H16].
Qed.

Lemma expectedGender_male ratio atkDV :
  expectedGender ratio atkDV = "M"
  <-> (threshold_by_spec (ratio_F ratio) <= inject_Z atkDV)%Q.
Proof.
  rewrite expectedGender_by_spec. unfold gender_by_spec.
  rewrite <- Qle_bool_iff.
  destruct (Qle_bool (threshold_by_spec (ratio_F ratio)) (inject_Z atkDV));
    split; try reflexivity; discriminate.
Qed.

Lemma expectedGender_at ratio (female : Q) (threshold atkDV : Z) :
  (ratio_F ratio == female)%Q ->
  (threshold_by_spec female == inject_Z threshold)%Q ->
  expectedGender ratio atkDV = "M" <-> threshold <= atkDV.
Proof.
  intros HF Ht.
  rewrite expectedGender_male, (threshold_by_spec_compat _ _ HF), Ht.
  rewrite <- Zle_Qle. tauto.
Qed.

(** X12. The gender read from the Atk DV: a higher DV never turns a male
    into a female, and the DV from which a set is male is 0 for a species
    that is never female, 2, 5, 7, 12 and 14 for a female ratio of one
    eighth, a quarter, a half, three quarters and seven eighths, and 16 for
    a species that is always female. *)
Theorem expectedGender_thresholds (ratio : GenderRatio) (atkDV : Z) :
  (forall higher,
      atkDV <= higher ->
      expectedGender ratio atkDV = "M" -> expectedGender ratio higher = "M")
  /\ ((ratio_F ratio == 0)%Q ->
      expectedGender ratio atkDV = "M" <-> 0 <= atkDV)
  /\ ((ratio_F ratio == 1 # 8)%Q ->
      expectedGender ratio atkDV = "M" <-> 2 <= atkDV)
  /\ ((ratio_F ratio == 1 # 4)%Q ->
      expectedGender ratio atkDV = "M" <-> 5 <= atkDV)
  /\ ((ratio_F ratio == 1 # 2)%Q ->
      expectedGender ratio atkDV = "M" <-> 7 <= atkDV)
  /\ ((ratio_F ratio == 3 # 4)%Q ->
      expectedGender ratio atkDV = "M" <-> 12 <= atkDV)
  /\ ((ratio_F ratio == 7 # 8)%Q ->
      expectedGender ratio atkDV = "M" <-> 14 <= atkDV)
  /\ ((ratio_F ratio == 1)%Q ->
      expectedGender ratio atkDV = "M" <-> 16 <= atkDV).
Proof.
  split.
  - intros higher Hle. rewrite !expectedGender_male. intros H.
    eapply Qle_trans; [exact H|]. rewrite <- Zle_Qle. exact Hle.
  - repeat (split;
            [intros HF;
             apply (expectedGender_at ratio _ _ atkDV HF); reflexivity|]).
    intros HF. apply (expectedGender_at ratio _ _ atkDV HF). reflexivity.
Qed.

(** ** More on the two combination checks *)

Lemma existsb_Permutation {A} (f : A -> bool) l l' :
  Permutation l l' -> existsb f l = existsb f l'.
Proof.
  induction 1 as [|x l l' _ IH|x y l|l l' l'' _ IH1 _ IH2]; cbn.
  - reflexivity.
  - rewrite IH. reflexivity.
  - destruct (f x), (f y); reflexivity.
  - rewrite IH1. exact IH2.
Qed.

Lemma existsb_same {A} (f g : A -> bool) l :
  (forall x, f x = g x) -> existsb f l = existsb g l.
Proof.
  intros H. induction l as [|x l IH]; cbn; [reflexivity|].
  rewrite H, IH. reflexivity.
Qed.

(** X18. [checkSleepTrap] answers true exactly when the table holds a move
    with a sleep id and a move with a trap id; the order in which the table
    lists its moves does not matter. *)
Theorem checkSleepTrap_any_order (moves : MoveTable) :
  (checkSleepTrap moves = true
   <-> (exists move,
          In move (table_values moves)
          /\ has SLEEP_MOVES (move_id move) = true)
       /\ (exists move,
             In move (table_values moves)
             /\ has TRAP_MOVES (move_id move) = true))
  /\ forall moves',
       Permutation (table_values moves) (table_values moves') ->
       checkSleepTrap moves' = checkSleepTrap moves.
Proof.
  split.
  - rewrite checkSleepTrap_spec, andb_true_iff, !existsb_exists. tauto.
  - intros moves' Hperm. rewrite !checkSleepTrap_spec.
    rewrite (existsb_Permutation _ _ _ Hperm).
    rewrite (existsb_Permutation
               (fun move => has TRAP_MOVES (move_id move)) _ _ Hperm).
    reflexivity.
Qed.

Section BatonPassMore.

Context {data : Data}.

Lemma inert_step item s n move :
  inert item move = true -> batonPass_step item (s, n) move = (s, n).
Proof.
  unfold inert. rewrite !andb_true_iff, !negb_true_iff.
  intros [[[H1 H2] H3] H4].
  rewrite batonPass_step_eq, H1, H2, H3, H4. reflexivity.
Qed.

Lemma inert_fold item moves :
  forallb (inert item) moves = true ->
  forall s n, fold_left (batonPass_step item) moves (s, n) = (s, n).
Proof.
  induction moves as [|move rest IH]; cbn [forallb fold_left]; intros H s n.
  - reflexivity.
  - apply andb_true_iff in H. destruct H as [Hmove Hrest].
    rewrite (inert_step _ _ _ _ Hmove). apply IH. exact Hrest.
Qed.

Lemma no_crystal_fold item moves :
  (forall move, In move moves -> z_crystal_for item move = false) ->
  forall a b,
    fold_left (batonPass_step item) moves (Flag a, Flag b)
    = (Flag (a || existsb boosts_speed_itself moves),
       Flag (b || existsb boosts_other_itself moves)).
Proof.
  induction moves as [|move rest IH]; cbn [fold_left existsb]; intros Hz a b.
  - rewrite !orb_false_r. reflexivity.
  - rewrite batonPass_step_eq. unfold z_boosts_speed, z_boosts_other.
    rewrite (Hz move (or_introl eq_refl)). cbn [andb].
    destruct (boosts_speed_itself move), (boosts_other_itself move);
      cbv zeta; rewrite IH by (intros m Hm; apply Hz; right; exact Hm);
      cbn [orb]; rewrite ?orb_true_r; reflexivity.
Qed.

Lemma checkBatonPass_unfold set format moves :
  checkBatonPass set format moves
  = let item := Items_get (set_item set) (gen format) in
    let after := batonPass_loop item moves in
    let s := if speed_forced set format then Flag true else fst after in
    let n := if other_forced set format then Flag true else snd after in
    truthy s && truthy n
    && negb (strict_neq s n && is_string s && is_string n).
Proof.
  unfold checkBatonPass, speed_forced, other_forced. cbv zeta.
  destruct (batonPass_loop (Items_get (set_item set) (gen format)) moves)
    as [s n].
  cbn [fst snd].
  repeat match goal with
         | |- context [truthy ?v] => destruct (truthy v)
         end; reflexivity.
Qed.

(** X14. When the held item is no Z-crystal, or there is no item,
    [checkBatonPass] is the conjunction of the two sources: the set is
    banned exactly when it has a source of a Speed boost and a source of
    another boost, and the order of the moves does not matter. *)
Theorem checkBatonPass_without_crystal (set : PokemonSet) (format : Format)
    (moves : MoveTable) :
  holds_z_crystal set format = false ->
  checkBatonPass set format moves
  = speed_source set format moves && other_source set format moves
  /\ forall moves',
       Permutation (table_values moves) (table_values moves') ->
       checkBatonPass set format moves' = checkBatonPass set format moves.
Proof.
  intros Hcrystal.
  assert (Hz : forall move,
             z_crystal_for (Items_get (set_item set) (gen format)) move
             = false).
  { intros move. unfold holds_z_crystal in Hcrystal. unfold z_crystal_for.
    destruct (Items_get (set_item set) (gen format)); [|reflexivity].
    rewrite Hcrystal. reflexivity. }
  assert (Hcheck : forall t,
             checkBatonPass set format t
             = speed_source set format t && other_source set format t).
  { intros t. rewrite checkBatonPass_unfold. cbv zeta.
    unfold batonPass_loop, speed_source, other_source.
    rewrite no_crystal_fold by (intros move _; apply Hz).
    cbn [fst snd orb]. fold (speed_forced set format) (other_forced set format).
    assert (Hs : existsb
                   (fun move =>
                      boosts_speed_itself move
                      || z_boosts_speed (Items_get (set_item set) (gen format))
                           move) (table_values t)
                 = existsb boosts_speed_itself (table_values t)).
    { apply existsb_same. intros move. unfold z_boosts_speed.
      rewrite Hz. cbn. apply orb_false_r. }
    assert (Hn : existsb
                   (fun move =>
                      boosts_other_itself move
                      || z_boosts_other (Items_get (set_item set) (gen format))
                           move) (table_values t)
                 = existsb boosts_other_itself (table_values t)).
    { apply existsb_same. intros move. unfold z_boosts_other.
      rewrite Hz. cbn. apply orb_false_r. }
    rewrite Hs, Hn.
    destruct (speed_forced set format), (other_forced set format),
      (existsb boosts_speed_itself (table_values t)),
      (existsb boosts_other_itself (table_values t)); reflexivity. }
  split; [apply Hcheck|].
  intros moves' Hperm. rewrite !Hcheck. unfold speed_source, other_source.
  rewrite (existsb_Permutation _ _ _ Hperm).
  rewrite (existsb_Permutation
             (fun move =>
                boosts_other_itself move
                || z_boosts_other (Items_get (set_item set) (gen format)) move)
             _ _ Hperm).
  reflexivity.
Qed.

(** X16. When an ability or the item gives the Speed boost and an ability
    or the item gives another boost, the set is banned whatever its moves;
    so is every set that holds Eevium Z or Kommonium Z, which are in both
    lists of items. *)
Theorem checkBatonPass_forced (set : PokemonSet) (format : Format) :
  (speed_forced set format = true ->
   other_forced set format = true ->
   forall moves, checkBatonPass set format moves = true)
  /\ (forall item,
        Items_get (set_item set) (gen format) = Some item ->
        item_id item = "eeviumz" \/ item_id item = "kommoniumz" ->
        forall moves, checkBatonPass set format moves = true).
Proof.
  assert (Hforced : speed_forced set format = true ->
                    other_forced set format = true ->
                    forall moves, checkBatonPass set format moves = true).
  { intros Hs Hn moves. rewrite checkBatonPass_unfold. cbv zeta.
    rewrite Hs, Hn. reflexivity. }
  split; [exact Hforced|].
  intros item Hitem Hid. apply Hforced.
  - unfold speed_forced. rewrite Hitem. cbn [item_in].
    destruct Hid as [-> | ->]; apply orb_true_r.
  - unfold other_forced. rewrite Hitem. cbn [item_in].
    destruct Hid as [-> | ->]; apply orb_true_r.
Qed.

(** X15. With two Z-moves the order of the moves decides: take a move
    whose Z-move boosts Speed only and a move whose Z-move boosts Speed and
    another stat, both of the type of the held crystal, neither boosting by
    itself, with different names.  Listed in that order the two boosts are
    attributed to the two moves and the set is not banned; listed in the
    other order both boosts are attributed to the second move and the set is
    banned. *)
Theorem checkBatonPass_depends_on_order (set : PokemonSet) (format : Format)
    (key_a key_b : string) (a b : Move) :
  let item := Items_get (set_item set) (gen format) in
  speed_forced set format = false ->
  other_forced set format = false ->
  boosts_speed_itself a = false -> boosts_other_itself a = false ->
  boosts_speed_itself b = false -> boosts_other_itself b = false ->
  z_boosts_speed item a = true -> z_boosts_other item a = false ->
  z_boosts_speed item b = true -> z_boosts_other item b = true ->
  move_name a <> "" -> move_name b <> "" ->
  move_name a <> move_name b ->
  checkBatonPass set format [(key_a, a); (key_b, b)] = false
  /\ attributions set format [(key_a, a); (key_b, b)]
     = (Name (move_name a), Name (move_name b))
  /\ checkBatonPass set format [(key_b, b); (key_a, a)] = true
  /\ attributions set format [(key_b, b); (key_a, a)]
     = (Name (move_name b), Name (move_name b)).
Proof.
  intros item Hs Hn Ha1 Ha2 Hb1 Hb2 Hza1 Hza2 Hzb1 Hzb2 Hna Hnb Hne.
  apply truthy_string_true in Hna, Hnb.
  assert (Hab : (move_name a =? move_name b)%string = false)
    by (apply String.eqb_neq; exact Hne).
  assert (Hba : (move_name b =? move_name a)%string = false)
    by (apply String.eqb_neq; congruence).
  assert (Hfirst : batonPass_loop item [(key_a, a); (key_b, b)]
                   = (Name (move_name a), Name (move_name b))).
  { unfold batonPass_loop. cbn [table_values map snd fold_left].
    rewrite !batonPass_step_eq, Ha1, Ha2, Hza1, Hza2. cbn.
    rewrite Hb1, Hb2, Hzb1, Hzb2. cbn. rewrite Hna. reflexivity. }
  assert (Hsecond : batonPass_loop item [(key_b, b); (key_a, a)]
                    = (Name (move_name b), Name (move_name b))).
  { unfold batonPass_loop. cbn [table_values map snd fold_left].
    rewrite !batonPass_step_eq, Hb1, Hb2, Hzb1, Hzb2. cbn.
    rewrite Ha1, Ha2, Hza1, Hza2. cbn. rewrite Hnb. reflexivity. }
  unfold attributions. rewrite !checkBatonPass_unfold. cbv zeta.
  fold item. fold (speed_forced set format) (other_forced set format).
  rewrite Hfirst, Hsecond, Hs, Hn. cbn [fst snd truthy is_string strict_neq].
  rewrite Hna, Hnb, Hab, String.eqb_refl.
  unfold speed_forced in Hs. unfold other_forced in Hn.
  fold item in Hs, Hn. rewrite Hs, Hn. repeat split.
Qed.

(** X17. One Z-move that gives both boosts is banned: when the table holds
    a named move whose Z-move, with the held crystal, boosts Speed and
    another stat, and no other move of the table is a source of a boost,
    [checkBatonPass] answers true. *)
Theorem checkBatonPass_same_z_move (set : PokemonSet) (format : Format)
    (moves : MoveTable) (before after : list Move) (move : Move) :
  let item := Items_get (set_item set) (gen format) in
  table_values moves = before ++ move :: after ->
  forallb (inert item) before = true ->
  forallb (inert item) after = true ->
  z_boosts_speed item move = true ->
  z_boosts_other item move = true ->
  move_name move <> "" ->
  checkBatonPass set format moves = true.
Proof.
  intros item Hvalues Hbefore Hafter Hzs Hzo Hname.
  apply truthy_string_true in Hname.
  rewrite checkBatonPass_unfold. cbv zeta. fold item.
  unfold batonPass_loop. rewrite Hvalues, fold_left_app.
  rewrite (inert_fold item before Hbefore). cbn [fold_left].
  rewrite batonPass_step_eq, Hzs, Hzo. cbv zeta.
  destruct (boosts_speed_itself move), (boosts_other_itself move);
    cbn [truthy negb andb orb name_is];
    rewrite ?Hname, ?String.eqb_refl; cbn [negb andb orb];
    rewrite (inert_fold item after Hafter); cbn [fst snd];
    destruct (speed_forced set format), (other_forced set format);
    cbn [truthy is_string strict_neq andb negb];
    rewrite ?Hname, ?String.eqb_refl; reflexivity.
Qed.

End BatonPassMore.

(** * Runs on the sample tables *)

Import Fixture.

Lemma validate_short_circuit_or_accumulate_witness :
  validate
    (mk_set "Smeargle" None None None ["Tackle"] (ivs_all 31) "" "" "")
    {| gen := 7; format_id := "anything goes" |}
  = Ok [InvalidFormat {| gen := 7; format_id := "anything goes" |}]
  /\ validate
       (mk_set "Missingno" None None None ["Tackle"] (ivs_all 31) "" "" "")
       (ou 7)
     = Ok [InvalidSpecies "Missingno" 7]
  /\ validate
       (mk_set "Smeargle" (Some 100) None None
          ["Spore"; "Mean Look"; "Fissure"] (ivs_all 30) "Timid" "Moody"
          "Salac Berry")
       (ou 2)
     = Ok [BannedByOHKO "Fissure"; SleepTrap "Smeargle" 2;
           NaturesDoNotExist 2 "Smeargle" {| nature_name := "Timid" |};
           AbilitiesDoNotExist 2 "Smeargle" "Moody";
           InvalidItem "Salac Berry" 2].
Proof.
  split; [|split].
  - exact (proj1 (proj1 (validate_short_circuit_or_accumulate
                           (mk_set "Smeargle" None None None ["Tackle"]
                              (ivs_all 31) "" "" "")
                           {| gen := 7; format_id := "anything goes" |})
                    eq_refl)).
  - exact (proj1 (proj1 (proj2 (validate_short_circuit_or_accumulate
                                  (mk_set "Missingno" None None None
                                     ["Tackle"] (ivs_all 31) "" "" "")
                                  (ou 7)))
                    standard eq_refl eq_refl)).
  - destruct (proj2 (proj2 (validate_short_circuit_or_accumulate
                              (mk_set "Smeargle" (Some 100) None None
                                 ["Spore"; "Mean Look"; "Fissure"]
                                 (ivs_all 30) "Timid" "Moody" "Salac Berry")
                              (ou 2)))
                standard
                (mk_species "Smeargle" 2 235 None None None (1 # 2) ["Field"]))
      as (g & i & Hg & Hi & H); [reflexivity | reflexivity | reflexivity |].
    vm_compute in Hg, Hi. inversion Hg; inversion Hi; subst g i.
    exact H.
Defined.

Lemma level_problem_needs_a_level_witness :
  validate
    (mk_set "Nidoran-M" (Some 0) None None ["Tackle"] (ivs_all 31) "" "" "")
    {| gen := 7; format_id := "lc" |}
  = Ok [NatureRequired "Nidoran-M" 7; InvalidAbility "" 7]
  /\ ~ In (LevelAboveFive "Nidoran-M")
         [NatureRequired "Nidoran-M" 7; InvalidAbility "" 7].
Proof.
  split; [reflexivity|].
  exact (proj1 (proj2 (proj2 (level_problem_needs_a_level
                                (mk_set "Nidoran-M" (Some 0) None None
                                   ["Tackle"] (ivs_all 31) "" "" "")
                                {| gen := 7; format_id := "lc" |}
                                _ eq_refl))
                  (or_intror eq_refl) "Nidoran-M")).
Defined.

Lemma validate_call_idempotent_witness :
  returned (validate_call (ou 2) after_spore_fissure)
  = returned (validate_call (ou 2) (entry spore_fissure))
  /\ the_set after_spore_fissure = spore_fissure
  /\ validate_call (ou 2) after_spore_fissure
     = Ok ([BannedByOHKO "Fissure"], after_spore_fissure).
Proof.
  destruct (validate_call_idempotent (ou 2) (entry spore_fissure))
    as (Hsame & _ & Hagain).
  split; [exact (Hsame after_spore_fissure eq_refl)|].
  exact (Hagain [BannedByOHKO "Fissure"] after_spore_fissure eq_refl).
Defined.

Lemma sleep_trap_reported_iff_witness :
  exists ps,
    validate
      (mk_set "Smeargle" (Some 100) None None ["Spore"; "Mean Look"]
         (ivs_all 30) "" "" "")
      (ou 2)
    = Ok ps
    /\ In (SleepTrap "Smeargle" 2) ps.
Proof.
  destruct (sleep_trap_reported_iff
              (mk_set "Smeargle" (Some 100) None None ["Spore"; "Mean Look"]
                 (ivs_all 30) "" "" "")
              (ou 2) standard
              (mk_species "Smeargle" 2 235 None None None (1 # 2) ["Field"]))
    as (ps & Hv & Hiff & _); [reflexivity | reflexivity | reflexivity |].
  exists ps. split; [exact Hv|].
  apply Hiff. repeat split.
  - exists "Spore", (mk_move "Spore" "Grass" false None None).
    repeat split. left. reflexivity.
  - exists "Mean Look", (mk_move "Mean Look" "Normal" false None (plus_spd 1)).
    repeat split. right. left. reflexivity.
Defined.

Lemma duplicates_reported_once_per_repeat_witness :
  exists ps,
    validate
      (mk_set "Smeargle" (Some 100) None None
         ["Fissure"; "Tackle"; "Fissure"; "fissure"] (ivs_all 31) "Timid"
         "Leftovers" "")
      (ou 7)
    = Ok ps
    /\ List.length (filter (is_duplicate_of "fissure") ps) = 2%nat
    /\ filter is_clause_ban ps
       = [BannedByOHKO "Fissure"; BannedByOHKO "Fissure";
          BannedByOHKO "Fissure"].
Proof.
  destruct (duplicates_reported_once_per_repeat
              (mk_set "Smeargle" (Some 100) None None
                 ["Fissure"; "Tackle"; "Fissure"; "fissure"] (ivs_all 31)
                 "Timid" "Leftovers" "")
              (ou 7) standard
              (mk_species "Smeargle" 2 235 None None None (1 # 2) ["Field"]))
    as (ps & Hv & Hdup & Hban); [reflexivity | reflexivity | reflexivity |].
  exists ps. split; [exact Hv|]. split.
  - exact (Hdup "fissure" eq_refl).
  - exact Hban.
Defined.

(** C6. The two gender checks are not alternatives.  The declared gender is
    compared with [species.gender] also when the species has no fixed gender,
    and in generation 2 the Atk DV is consulted also when it has one.  Sets
    that meet the rule of the specification are reported: in generation 7 a
    Smeargle, of no fixed gender, declared male; in generation 2 a Smeargle
    declared female with the Atk DV of a female; in generation 2 a Staryu,
    genderless, declared genderless. *)
Theorem gender_checks_unguarded :
  (Species_get "Smeargle" 7 = Some Samples.smeargle
   /\ gender_matches_by_spec Samples.smeargle 7 "M" (itod 31) = true
   /\ validate_text
        (mk_set "Smeargle" (Some 100) (Some "M") None ["Tackle"] (ivs_all 31)
           "Timid" "Leftovers" "")
        (ou 7)
      = Ok ["Smeargle is the wrong gender for its species (M vs. undefined)."])
  /\ (Species_get "Smeargle" 2 = Some Samples.smeargle
      /\ gender_matches_by_spec Samples.smeargle 2 "F" (itod 12) = true
      /\ validate
           (mk_set "Smeargle" (Some 100) (Some "F") None ["Tackle"]
              {| hp := 14; atk := 12; def := 30; spa := 30; spd := 30;
                 spe := 30 |}
              "" "" "")
           (ou 2)
         = Ok [WrongGender "Smeargle" "F" None])
  /\ (@Species_get Samples.more_tables "Staryu" 2 = Some Samples.staryu
      /\ gender_matches_by_spec Samples.staryu 2 "N" (itod 30) = true
      /\ @validate Samples.more_tables
           (mk_set "Staryu" (Some 100) (Some "N") None ["Tackle"] (ivs_all 30)
              "" "" "")
           (ou 2)
         = Ok [GenderAgainstDV "Staryu" "N" 15 "M"]).
Proof. repeat split; reflexivity. Qed.

(** A mismatch with the fixed gender and with the Atk DV, both reported. *)
Example gender_mismatch_on_nidoran :
  exists ps,
    validate
      (mk_set "Nidoran-M" (Some 100) (Some "F") None ["Tackle"] (ivs_all 30)
         "" "" "")
      (ou 2)
    = Ok ps
    /\ In (WrongGender "Nidoran-M" "F" (Some "M")) ps
    /\ In (GenderAgainstDV "Nidoran-M" "F" 15 "M") ps.
Proof.
  destruct (gender_mismatch_reported
              (mk_set "Nidoran-M" (Some 100) (Some "F") None ["Tackle"]
                 (ivs_all 30) "" "" "")
              (ou 2) standard
              (mk_species "Nidoran-M" 1 32 None (Some ["nidorino"]) (Some "M")
                 0 ["Monster"; "Field"])
              "F")
    as (ps & Hv & Hfixed & Hdv & _);
    [reflexivity | reflexivity | reflexivity | reflexivity | discriminate |].
  exists ps. split; [exact Hv|]. split.
  - apply (Hfixed "M"); [reflexivity | discriminate].
  - apply (Hdv {| ratio_M := (1 - 0)%Q; ratio_F := 0 |});
      [reflexivity | reflexivity | discriminate].
Qed.

Lemma old_generation_ivs_checked_witness :
  exists ps,
    validate
      (mk_set "Smeargle" (Some 100) None (Some true) ["Tackle"]
         {| hp := 0; atk := 30; def := 30; spa := 30; spd := 28; spe := 30 |}
         "" "" "")
      (ou 2)
    = Ok ps
    /\ In (IVsDiffer "Smeargle" 30 28) ps
    /\ In (WrongHPDV "Smeargle" 0 15) ps
    /\ In (WrongShiny "Smeargle" true) ps.
Proof.
  destruct (old_generation_ivs_checked
              (mk_set "Smeargle" (Some 100) None (Some true) ["Tackle"]
                 {| hp := 0; atk := 30; def := 30; spa := 30; spd := 28;
                    spe := 30 |}
                 "" "" "")
              (ou 2) standard
              (mk_species "Smeargle" 2 235 None None None (1 # 2) ["Field"]))
    as (ps & Hv & Hspc & Hgen2);
    [reflexivity | reflexivity | reflexivity | reflexivity |].
  destruct (Hgen2 eq_refl) as [Hhp Hshiny].
  exists ps. split; [exact Hv|]. repeat split.
  - apply Hspc. discriminate.
  - apply Hhp. discriminate.
  - apply Hshiny. right. split; [|reflexivity].
    intros (H & _). discriminate.
Defined.

Lemma legendary_needs_three_perfect_ivs_witness :
  exists ps,
    validate
      (mk_set "Diancie" (Some 100) None None ["Tackle"]
         {| hp := 31; atk := 31; def := 0; spa := 0; spd := 0; spe := 0 |}
         "Timid" "Leftovers" "")
      (ou 7)
    = Ok ps
    /\ In (LegendaryIVs "Diancie" 7) ps.
Proof.
  destruct (legendary_needs_three_perfect_ivs
              (mk_set "Diancie" (Some 100) None None ["Tackle"]
                 {| hp := 31; atk := 31; def := 0; spa := 0; spd := 0;
                    spe := 0 |}
                 "Timid" "Leftovers" "")
              (ou 7) standard
              (mk_species "Diancie" 6 719 None None (Some "N") 0
                 ["Undiscovered"])
              ["Undiscovered"])
    as (ps & Hv & _ & _ & Hplain);
    [reflexivity | reflexivity | reflexivity | simpl; lia |].
  exists ps. split; [exact Hv|].
  apply Hplain;
    [reflexivity | reflexivity | | apply Nat.ltb_lt; reflexivity].
  repeat split; try discriminate.
  left. reflexivity.
Defined.

Lemma batonPass_banned_iff_witness :
  exists ps,
    validate
      (mk_set "Smeargle" (Some 100) None None
         ["Baton Pass"; "Agility"; "Swords Dance"] (ivs_all 31) "Timid"
         "Leftovers" "Leftovers")
      (ou 7)
    = Ok ps
    /\ In (BatonPassBan "Smeargle") ps.
Proof.
  destruct (batonPass_banned_iff
              (mk_set "Smeargle" (Some 100) None None
                 ["Baton Pass"; "Agility"; "Swords Dance"] (ivs_all 31)
                 "Timid" "Leftovers" "Leftovers")
              (ou 7) standard
              (mk_species "Smeargle" 2 235 None None None (1 # 2) ["Field"]))
    as (ps & Hv & Hban & Hcheck & _);
    [reflexivity | reflexivity | reflexivity | reflexivity | | |].
  - exists "Baton Pass", (mk_move "Baton Pass" "Normal" false None None).
    repeat split. left. reflexivity.
  - intros m move [H|[H|[H|[]]]] Hget; subst m;
      vm_compute in Hget; inversion Hget; discriminate.
  - exists ps. split; [exact Hv|].
    apply Hban, Hcheck. repeat split.
    intros (a & b & H & _). vm_compute in H. discriminate.
Defined.

(** C3. The ability is resolved in the table of items.  In generation 7,
    under rules with the Moody clause, a set with the ability Moody, which
    is an ability and not an item, gets the problem of an invalid ability and
    no ban; a set whose ability field holds Leftovers, which is an item and
    not an ability, gets no problem at all. *)
Theorem ability_resolved_as_item :
  has (clauses standard) "Moody" = true
  /\ is_ability "Moody" 7 = true
  /\ validate
       (mk_set "Smeargle" (Some 100) None None ["Tackle"] (ivs_all 31) "Timid"
          "Moody" "")
       (ou 7)
     = Ok [InvalidAbility "Moody" 7]
  /\ is_ability "Leftovers" 7 = false
  /\ validate
       (mk_set "Smeargle" (Some 100) None None ["Tackle"] (ivs_all 31) "Timid"
          "Leftovers" "")
       (ou 7)
     = Ok [].
Proof. repeat split. Qed.

(** The texts of the problems the caller receives. *)
Example validate_text_unresolved_species :
  validate_text
    (mk_set "Missingno" None None None ["Tackle"] (ivs_all 31) "" "" "") (ou 7)
  = Ok ["Missingno is not a valid species for generation 7"].
Proof. reflexivity. Qed.

Example validate_text_generation_2 :
  validate_text
    (mk_set "Nidoran-M" (Some 100) (Some "F") None ["Spore"; "Mean Look"]
       (ivs_all 30) "" "" "")
    (ou 2)
  = Ok ["Nidoran-M has both a sleeping and a trapping move, a combination which is banned in generation 2.";
        "Nidoran-M is the wrong gender for its species (F vs. M).";
        "Nidoran-M is F, but it has an Atk DV of 15, which makes its gender M."].
Proof. reflexivity. Qed.

(** With the species stub of [src/species.ts] no set gets past the species. *)
Example validate_with_stub :
  @validate stubbed
    (mk_set "Smeargle" (Some 100) None None ["Tackle"] (ivs_all 31) "Timid"
       "Own Tempo" "")
    (ou 7)
  = Ok [InvalidSpecies "Smeargle" 7].
Proof. reflexivity. Qed.

(** Two different Z-moves behind the two boosts are not banned; one ordinary
    boost next to a Z-move is. *)
Example batonPass_two_z_moves :
  validate
    (mk_set "Smeargle" (Some 100) None None
       ["Baton Pass"; "Electric Terrain"; "Thunder Wave"] (ivs_all 31) "Timid"
       "Leftovers" "Electrium Z")
    (ou 7)
  = Ok []
  /\ attributions
       (mk_set "Smeargle" (Some 100) None None
          ["Baton Pass"; "Electric Terrain"; "Thunder Wave"] (ivs_all 31)
          "Timid" "Leftovers" "Electrium Z")
       (ou 7)
       (moveTable_of
          (mk_set "Smeargle" (Some 100) None None
             ["Baton Pass"; "Electric Terrain"; "Thunder Wave"] (ivs_all 31)
             "Timid" "Leftovers" "Electrium Z")
          (ou 7))
     = (Name "Electric Terrain", Name "Thunder Wave").
Proof. split; reflexivity. Qed.

Example batonPass_z_move_and_charge :
  validate
    (mk_set "Smeargle" (Some 100) None None
       ["Baton Pass"; "Electric Terrain"; "Charge"] (ivs_all 31) "Timid"
       "Leftovers" "Electrium Z")
    (ou 7)
  = Ok [BatonPassBan "Smeargle"].
Proof. reflexivity. Qed.

(** A shiny Diancie with two perfect IVs passes the IV floor. *)
Example shiny_diancie :
  validate
    (mk_set "Diancie" (Some 100) None (Some true) ["Tackle"]
       {| hp := 31; atk := 31; def := 0; spa := 0; spd := 0; spe := 0 |}
       "Timid" "Leftovers" "")
    (ou 7)
  = Ok [].
Proof. reflexivity. Qed.

(** * Runs of the further properties *)

Import Samples.

Lemma tier_reported_iff_witness :
  exists ps,
    @validate more_tables
      (mk_set "Pokestar Smeargle" (Some 100) None None ["Tackle"] (ivs_all 31)
         "Timid" "Leftovers" "")
      (ou 7)
    = Ok ps
    /\ In (IllegalSpecies "Pokestar Smeargle" 5) ps.
Proof.
  destruct (@tier_reported_iff more_tables
              (mk_set "Pokestar Smeargle" (Some 100) None None ["Tackle"]
                 (ivs_all 31) "Timid" "Leftovers" "")
              (ou 7) standard pokestar)
    as (ps & Hv & Hillegal & _); [reflexivity | reflexivity | reflexivity |].
  exists ps. split; [exact Hv|]. apply Hillegal. repeat split.
Defined.

Lemma little_cup_family_reported_iff_witness :
  exists ps,
    @validate more_tables
      (mk_set "Marowak" (Some 5) None None ["Tackle"] (ivs_all 31) "Timid"
         "Leftovers" "")
      (lc 7)
    = Ok ps
    /\ In (NotFirstInFamily "Marowak") ps
    /\ ~ In (NoEvolutionFamily "Marowak") ps.
Proof.
  destruct (@little_cup_family_reported_iff more_tables
              (mk_set "Marowak" (Some 5) None None ["Tackle"] (ivs_all 31)
                 "Timid" "Leftovers" "")
              (lc 7) little_cup marowak)
    as (ps & Hv & Hfirst & Hnone); [reflexivity | reflexivity | reflexivity |].
  exists ps. split; [exact Hv|]. split.
  - apply Hfirst. repeat split.
  - intros H. apply Hnone in H. destruct H as (_ & _ & H & _). discriminate.
Defined.

Lemma move_count_reported_iff_witness :
  exists ps,
    validate
      (mk_set "Smeargle" (Some 100) None None [] (ivs_all 31) "Timid"
         "Leftovers" "")
      (ou 7)
    = Ok ps
    /\ In (NoMoves "Smeargle") ps
    /\ ~ In (MoreThanFourMoves "Smeargle") ps.
Proof.
  destruct (move_count_reported_iff
              (mk_set "Smeargle" (Some 100) None None [] (ivs_all 31) "Timid"
                 "Leftovers" "")
              (ou 7) standard smeargle)
    as (ps & Hv & Hnone & Hmore & _); [reflexivity | reflexivity | reflexivity |].
  exists ps. split; [exact Hv|]. split.
  - apply Hnone. repeat split.
  - intros H. apply Hmore in H. destruct H as (_ & H). simpl in H. lia.
Defined.

Lemma unresolved_moves_reported_witness :
  exists ps,
    validate
      (mk_set "Smeargle" (Some 100) None None
         ["Splash Attack"; "Fissure"; "Splash Attack"] (ivs_all 31) "Timid"
         "Leftovers" "")
      (ou 7)
    = Ok ps
    /\ filter is_invalid_move ps
       = [InvalidMove "Splash Attack" 7; InvalidMove "Splash Attack" 7]
    /\ In (BannedByOHKO "Fissure") ps.
Proof.
  destruct (unresolved_moves_reported
              (mk_set "Smeargle" (Some 100) None None
                 ["Splash Attack"; "Fissure"; "Splash Attack"] (ivs_all 31)
                 "Timid" "Leftovers" "")
              (ou 7) standard smeargle)
    as (ps & Hv & Hfilter & _); [reflexivity | reflexivity | reflexivity |].
  exists ps. split; [exact Hv|]. split; [exact Hfilter|].
  assert (Hps : Ok ps
                = Ok [InvalidMove "Splash Attack" 7; BannedByOHKO "Fissure";
                      InvalidMove "Splash Attack" 7])
    by (rewrite <- Hv; reflexivity).
  inversion Hps. right. left. reflexivity.
Defined.

Lemma clause_precedence_witness :
  exists ps,
    validate
      (mk_set "Smeargle" (Some 100) None None ["Fissure"; "Swagger"]
         (ivs_all 31) "Timid" "Leftovers" "")
      (ou 7)
    = Ok ps
    /\ In (BannedByOHKO "Fissure") ps
    /\ In (BannedBySwagger "Swagger") ps.
Proof.
  destruct (clause_precedence
              (mk_set "Smeargle" (Some 100) None None ["Fissure"; "Swagger"]
                 (ivs_all 31) "Timid" "Leftovers" "")
              (ou 7) standard smeargle)
    as (ps & Hv & _ & Hohko & _ & Hswagger);
    [reflexivity | reflexivity | reflexivity |].
  exists ps. split; [exact Hv|]. split.
  - apply Hohko.
    exists "Fissure", (mk_move "Fissure" "Ground" true None None).
    repeat split. left. reflexivity.
  - apply Hswagger.
    exists "Swagger", (mk_move "Swagger" "Normal" false None None).
    repeat split. right. left. reflexivity.
Defined.

Lemma evs_reported_iff_witness :
  exists ps,
    validate uneven_evs (ou 2) = Ok ps /\ In (EVsDiffer "Artist" 252 4) ps.
Proof.
  destruct (evs_reported_iff uneven_evs (ou 2) standard smeargle)
    as (ps & Hv & Hevs); [reflexivity | reflexivity | reflexivity |].
  exists ps. split; [exact Hv|].
  apply Hevs. repeat split; simpl; lia.
Defined.

Lemma nature_reported_iff_witness :
  exists ps,
    validate
      (mk_set "Smeargle" (Some 100) None None ["Tackle"] (ivs_all 30)
         "Sleepy" "" "")
      (ou 2)
    = Ok ps
    /\ forall p, origin p = NatureCheck -> ~ In p ps.
Proof.
  destruct (nature_reported_iff
              (mk_set "Smeargle" (Some 100) None None ["Tackle"] (ivs_all 30)
                 "Sleepy" "" "")
              (ou 2) standard smeargle)
    as (ps & Hv & _ & _ & _ & Hsilent);
    [reflexivity | reflexivity | reflexivity |].
  exists ps. split; [exact Hv|].
  apply Hsilent; [simpl; lia | reflexivity].
Defined.

Lemma item_reported_iff_witness :
  exists ps,
    validate
      (mk_set "Smeargle" (Some 100) None None ["Tackle"] (ivs_all 31) "Timid"
         "Leftovers" "Griseous Orb")
      (ou 7)
    = Ok ps
    /\ In GriseousOrbHolder ps.
Proof.
  destruct (item_reported_iff
              (mk_set "Smeargle" (Some 100) None None ["Tackle"] (ivs_all 31)
                 "Timid" "Leftovers" "Griseous Orb")
              (ou 7) standard smeargle)
    as (ps & Hv & _ & _ & Horb); [reflexivity | reflexivity | reflexivity |].
  exists ps. split; [exact Hv|].
  apply Horb. split; [simpl; lia|].
  exists {| item_id := "griseousorb"; item_name := "Griseous Orb";
            item_zMove := false; item_zMoveType := None |}.
  repeat split. discriminate.
Defined.

Lemma validate_throws_iff_witness :
  @validate more_tables
    (mk_set "Unown" (Some 100) (Some "N") None ["Tackle"] (ivs_all 30) "" ""
       "")
    (ou 2)
  = TypeError.
Proof.
  apply (proj2 (@validate_throws_iff more_tables
                  (mk_set "Unown" (Some 100) (Some "N") None ["Tackle"]
                     (ivs_all 30) "" "" "")
                  (ou 2))).
  exists standard, unown_without_ratio.
  split; [reflexivity | split; [reflexivity|]].
  left. split; [reflexivity | split; [|reflexivity]].
  exists "N". split; [reflexivity | discriminate].
Defined.

Lemma ivs_unchecked_between_witness :
  exists ps,
    validate
      (mk_set "Giratina" (Some 100) None None ["Tackle"]
         {| hp := 31; atk := 0; def := 0; spa := 3; spd := 9; spe := 0 |}
         "Timid" "Leftovers" "Griseous Orb")
      (ou 4)
    = Ok ps
    /\ forall p, origin p = IVs -> ~ In p ps.
Proof.
  destruct (ivs_unchecked_between
              (mk_set "Giratina" (Some 100) None None ["Tackle"]
                 {| hp := 31; atk := 0; def := 0; spa := 3; spd := 9;
                    spe := 0 |}
                 "Timid" "Leftovers" "Griseous Orb")
              (ou 4) standard
              (mk_species "Giratina" 4 487 None None (Some "N") 0
                 ["Undiscovered"]))
    as (ps & Hv & Hsilent);
    [reflexivity | reflexivity | reflexivity | simpl; lia |].
  exists ps. split; [exact Hv | exact Hsilent].
Defined.

Lemma wrong_gender_reported_iff_witness :
  exists ps,
    validate
      (mk_set "Smeargle" (Some 100) (Some "M") None ["Tackle"] (ivs_all 31)
         "Timid" "Leftovers" "")
      (ou 7)
    = Ok ps
    /\ In (WrongGender "Smeargle" "M" None) ps.
Proof.
  destruct (wrong_gender_reported_iff
              (mk_set "Smeargle" (Some 100) (Some "M") None ["Tackle"]
                 (ivs_all 31) "Timid" "Leftovers" "")
              (ou 7) standard smeargle)
    as (ps & Hv & Hwrong & _); [reflexivity | reflexivity | reflexivity |].
  exists ps. split; [exact Hv|].
  apply Hwrong. repeat split; discriminate.
Defined.

Lemma expectedGender_thresholds_witness :
  expectedGender {| ratio_M := 1 # 2; ratio_F := 2 # 4 |} 7 = "M"
  /\ expectedGender {| ratio_M := 1 # 2; ratio_F := 2 # 4 |} 15 = "M".
Proof.
  destruct (expectedGender_thresholds {| ratio_M := 1 # 2; ratio_F := 2 # 4 |} 7)
    as (Hup & _ & _ & _ & Hhalf & _).
  assert (H7 : expectedGender {| ratio_M := 1 # 2; ratio_F := 2 # 4 |} 7 = "M").
  { apply Hhalf; [reflexivity | lia]. }
  split; [exact H7 | apply Hup; [lia | exact H7]].
Defined.

(** A single entry whose id names a member of [Object.prototype] is reported
    as a duplicate: the lookup finds [Object.prototype.constructor]. *)
Example first_entry_found_in_prototype :
  has Object_prototype_members (move_id constructor_move) = true
  /\ @validate inherited_tables
       (mk_set "Smeargle" (Some 100) None None ["Constructor"] (ivs_all 31)
          "Timid" "Leftovers" "")
       (ou 7)
     = Ok [DuplicateMove "Smeargle" constructor_move]
  /\ @moveTable_of inherited_tables
       (mk_set "Smeargle" (Some 100) None None ["Constructor"] (ivs_all 31)
          "Timid" "Leftovers" "")
       (ou 7)
     = [("constructor", constructor_move)].
Proof. repeat split; reflexivity. Qed.

Lemma duplicates_and_table_size_witness :
  exists ps,
    validate
      (mk_set "Smeargle" (Some 100) None None
         ["Spore"; "Tackle"; "spore"; "Splash Attack"; "Spore"] (ivs_all 31)
         "Timid" "Leftovers" "")
      (ou 7)
    = Ok ps
    /\ (List.length (filter is_duplicate ps) + 2 = 4)%nat.
Proof.
  destruct (duplicates_and_table_size
              (mk_set "Smeargle" (Some 100) None None
                 ["Spore"; "Tackle"; "spore"; "Splash Attack"; "Spore"]
                 (ivs_all 31) "Timid" "Leftovers" "")
              (ou 7) standard smeargle)
    as (ps & Hv & _ & Hsize); [reflexivity | reflexivity | reflexivity | |].
  - intros m move [H|[H|[H|[H|[H|[]]]]]] Hget; subst m;
      vm_compute in Hget; inversion Hget; reflexivity.
  - exists ps. split; [exact Hv | exact Hsize].
Defined.

Lemma checkSleepTrap_any_order_witness :
  checkSleepTrap
    [("meanlook", mk_move "Mean Look" "Normal" false None (plus_spd 1));
     ("spore", mk_move "Spore" "Grass" false None None)]
  = checkSleepTrap
      [("spore", mk_move "Spore" "Grass" false None None);
       ("meanlook", mk_move "Mean Look" "Normal" false None (plus_spd 1))].
Proof.
  apply (proj2 (checkSleepTrap_any_order
                  [("spore", mk_move "Spore" "Grass" false None None);
                   ("meanlook",
                    mk_move "Mean Look" "Normal" false None (plus_spd 1))])).
  simpl. apply perm_swap.
Defined.

Lemma checkBatonPass_without_crystal_witness :
  checkBatonPass (passer ["Baton Pass"; "Agility"; "Swords Dance"] "Leftovers")
    (ou 7)
    (moveTable_of
       (passer ["Baton Pass"; "Agility"; "Swords Dance"] "Leftovers") (ou 7))
  = true.
Proof.
  destruct (checkBatonPass_without_crystal
              (passer ["Baton Pass"; "Agility"; "Swords Dance"] "Leftovers")
              (ou 7)
              (moveTable_of
                 (passer ["Baton Pass"; "Agility"; "Swords Dance"]
                    "Leftovers") (ou 7)))
    as [Hcheck _]; [reflexivity|].
  rewrite Hcheck. reflexivity.
Defined.

Lemma checkBatonPass_forced_witness :
  @checkBatonPass more_tables (passer ["Baton Pass"; "Tackle"] "Eevium Z")
    (ou 7)
    (@moveTable_of more_tables (passer ["Baton Pass"; "Tackle"] "Eevium Z")
       (ou 7))
  = true.
Proof.
  apply (proj2 (@checkBatonPass_forced more_tables
                  (passer ["Baton Pass"; "Tackle"] "Eevium Z") (ou 7))
           eevium_z eq_refl (or_introl eq_refl)).
Defined.

Lemma checkBatonPass_depends_on_order_witness :
  @checkBatonPass more_tables (passer [] "Normalium Z") (ou 7)
    [("mefirst", me_first); ("celebrate", celebrate)]
  = false
  /\ @checkBatonPass more_tables (passer [] "Normalium Z") (ou 7)
       [("celebrate", celebrate); ("mefirst", me_first)]
     = true.
Proof.
  destruct (@checkBatonPass_depends_on_order more_tables
              (passer [] "Normalium Z") (ou 7) "mefirst" "celebrate"
              me_first celebrate)
    as (Hfirst & _ & Hsecond & _);
    try reflexivity; try discriminate.
  split; [exact Hfirst | exact Hsecond].
Defined.

Lemma checkBatonPass_same_z_move_witness :
  @checkBatonPass more_tables
    (passer ["Baton Pass"; "Celebrate"] "Normalium Z") (ou 7)
    (@moveTable_of more_tables
       (passer ["Baton Pass"; "Celebrate"] "Normalium Z") (ou 7))
  = true.
Proof.
  apply (@checkBatonPass_same_z_move more_tables
           (passer ["Baton Pass"; "Celebrate"] "Normalium Z") (ou 7)
           (@moveTable_of more_tables
              (passer ["Baton Pass"; "Celebrate"] "Normalium Z") (ou 7))
           [mk_move "Baton Pass" "Normal" false None None] [] celebrate);
    try reflexivity.
  discriminate.
Defined.

Lemma stub_stops_every_set_witness :
  exists p,
    @validate stubbed (passer ["Baton Pass"; "Agility"] "Leftovers") (ou 7)
    = Ok [p].
Proof.
  destruct (@stub_stops_every_set stubbed
              (passer ["Baton Pass"; "Agility"] "Leftovers") (ou 7))
    as (p & Hv & _); [reflexivity|].
  exists p. exact Hv.
Defined.

(** The order of the entries decides for the validator as well. *)
Example validate_depends_on_order :
  @validate more_tables
    (passer ["Baton Pass"; "Me First"; "Celebrate"] "Normalium Z") (ou 7)
  = Ok []
  /\ @validate more_tables
       (passer ["Baton Pass"; "Celebrate"; "Me First"] "Normalium Z") (ou 7)
     = Ok [BatonPassBan "Smeargle"].
Proof. split; reflexivity. Qed.
